(** * Billy B-Assistant: audio-to-actuation pipeline and session rules

    A shallow embedding of the parts of [src/core] that the checked
    properties talk about:

    - [movements.py]: the lgpio motor helpers and the envelope follower
      [flap_from_pcm_chunk];
    - [audio_playback.py]: the playback queue protocol, the head, beat
      and PCM sections of [_playback_worker], [enqueue_wav_to_playback],
      [stop_playback] and [rotate_and_save_response_audio];
    - [audio.py]: [load_metadata] and the metadata prologue of [play_song];
    - [session.py]: [mic_callback], the stream loop of [run_stream] with
      the audio, text, [response.done] and [update_personality] branches
      of [handle_message], [mic_timeout_checker], [stop_session] and
      [post_response_handling];
    - [error_handling.py]: the synchronous wrapper of [retry_on_failure].

    Conventions.  Python floats are idealised as exact rationals ([Q]);
    wall-clock instants returned by [time.time()] are inputs.  Calls into
    lgpio are recorded as a list of primitive calls, which [run_gpio]
    replays on a pin table.  Python dicts and the file system are finite
    maps. *)

From Stdlib Require Import QArith Qabs Qround Qminmax ZArith List Lia Lqa Ascii String.
From stdpp Require Import gmap strings list pretty.

Local Open Scope Z_scope.

(** ** Numeric helpers (numpy / builtins) *)

Module Np.
Local Open Scope Q_scope.

(** Python's [x < y] and [x <= y] on floats. *)
Definition ltb (x y : Q) : bool := if Qlt_le_dec x y then true else false.
Definition leb (x y : Q) : bool := if Qlt_le_dec y x then false else true.

(** [np.clip(x, lo, hi)] is [minimum(maximum(x, lo), hi)]. *)
Definition clip (x lo hi : Q) : Q := Qmin (Qmax x lo) hi.

(** [np.interp(x, [x0, x1], [y0, y1])] for a two-point table: constant
    outside the table, linear inside. *)
Definition interp (x x0 x1 y0 y1 : Q) : Q :=
  if leb x x0 then y0
  else if leb x1 x then y1
  else y0 + (x - x0) * ((y1 - y0) / (x1 - x0)).

(** Python [int(x)] on a float: truncation towards zero. *)
Definition int (x : Q) : Z :=
  if ltb x 0 then Qceiling x else Qfloor x.

(** [np.max(np.abs(a))] on a non-empty array. *)
Definition max_abs (a : list Q) : Q :=
  fold_right (fun s acc => Qmax (Qabs s) acc) 0 a.



End Np.

(** ** movements.py *)

Module Movements.

(** *** GPIO *)

Inductive gpio_call : Type :=
| tx_pwm (pin : Z) (freq : Z) (duty : Z)
| gpio_write (pin : Z) (level : Z)
| sleep (seconds : Q).

Record pin_state : Type := PinState {
  pwm_freq : Z;
  pwm_duty : Z;
  level : Z
}.

(** Pins are claimed as outputs and written low at import time. *)
Definition pin_init : pin_state := PinState 0 0 0.

Definition pin_of (g : gmap Z pin_state) (pin : Z) : pin_state :=
  default pin_init (g !! pin).

Definition gpio_step (g : gmap Z pin_state) (c : gpio_call) : gmap Z pin_state :=
  match c with
  | tx_pwm pin f d => <[pin := PinState f d (level (pin_of g pin))]> g
  | gpio_write pin l =>
      <[pin := PinState (pwm_freq (pin_of g pin)) (pwm_duty (pin_of g pin)) l]> g
  | sleep _ => g
  end.

Definition run_gpio (cs : list gpio_call) (g : gmap Z pin_state) : gmap Z pin_state :=
  fold_left gpio_step cs g.

Definition DEFAULT_MOTOR_FREQ : Z := 10000.
Definition DEFAULT_HEAD_SPEED : Z := 80.
Definition DEFAULT_TAIL_SPEED : Z := 80.
Definition DEFAULT_HEAD_DURATION : Q := 5 # 10.
Definition DEFAULT_TAIL_DURATION : Q := 2 # 10.

Definition FREQ : Z := DEFAULT_MOTOR_FREQ.

Definition MOUTH_IN1 : Z := 12.
Definition MOUTH_IN2 : Z := 5.
Definition HEAD_IN1 : Z := 13.
Definition HEAD_IN2 : Z := 6.
Definition TAIL_IN1 : Z := 19.
Definition TAIL_IN2 : Z := 26.

Definition motor_pins (USE_THIRD_MOTOR : bool) : list Z :=
  [MOUTH_IN1; MOUTH_IN2; HEAD_IN1; HEAD_IN2]
    ++ (if USE_THIRD_MOTOR then [TAIL_IN1; TAIL_IN2] else []).

(** The pin record a brake leaves behind, and a channel whose two pins
    both hold it. *)
Definition braked : pin_state := PinState FREQ 0 0.

Definition channel_braked (pin1 pin2 : Z) (g : gmap Z pin_state) : Prop :=
  g !! pin1 = Some braked /\ g !! pin2 = Some braked.

(** *** Motor helpers *)

Definition brake_motor (pin1 pin2 : Z) : list gpio_call :=
  [tx_pwm pin1 FREQ 0; tx_pwm pin2 FREQ 0; gpio_write pin1 0; gpio_write pin2 0].

Definition run_motor (pwm_pin low_pin : Z) (speed_percent : Z) (duration : Q)
    (brake : bool) : list gpio_call :=
  [gpio_write low_pin 0; tx_pwm pwm_pin FREQ speed_percent; sleep duration]
    ++ (if brake then brake_motor pwm_pin low_pin else []).

Definition move_mouth (speed_percent : Z) (duration : Q) (brake : bool) : list gpio_call :=
  run_motor MOUTH_IN1 MOUTH_IN2 speed_percent duration brake.

Definition stop_mouth : list gpio_call := brake_motor MOUTH_IN1 MOUTH_IN2.

(** The body of the thread started by [move_head("on")]. *)
Definition _move_head_on : list gpio_call :=
  [gpio_write HEAD_IN2 0; tx_pwm HEAD_IN1 FREQ DEFAULT_HEAD_SPEED;
   sleep DEFAULT_HEAD_DURATION; tx_pwm HEAD_IN1 FREQ 100].

(** [move_head(state)] on the module global [head_out]; any [state] other
    than ["on"] takes the braking branch. *)
Definition move_head (state : string) (head_out : bool) : bool * list gpio_call :=
  if String.eqb state "on" then
    if negb head_out then (true, _move_head_on) else (head_out, [])
  else (false, brake_motor HEAD_IN1 HEAD_IN2).

Definition move_tail (USE_THIRD_MOTOR : bool) (duration : Q) : list gpio_call :=
  if USE_THIRD_MOTOR
  then run_motor TAIL_IN1 TAIL_IN2 DEFAULT_TAIL_SPEED duration true
  else run_motor HEAD_IN2 HEAD_IN1 DEFAULT_TAIL_SPEED duration true.

(** [stop_all_motors]: head off, then every motor pin to zero. *)
Definition stop_all_motors (USE_THIRD_MOTOR : bool) (head_out : bool)
    : bool * list gpio_call :=
  let '(ho, cs) := move_head "off" head_out in
  (ho, cs ++ flat_map (fun pin => [tx_pwm pin FREQ 0; gpio_write pin 0])
                      (motor_pins USE_THIRD_MOTOR)).

(** *** Mouth sync *)

Record mouth_sync : Type := MouthSync {
  _last_flap : Q;
  _mouth_open_until : Q;
  _last_rms : Q
}.

Definition mouth_sync_init : mouth_sync := MouthSync 0 0 0.

Local Open Scope Q_scope.

(** A lgpio call that energises a motor: a PWM with a positive duty. *)
Definition is_drive (c : gpio_call) : bool :=
  match c with
  | tx_pwm _ _ duty => (0 <? duty)%Z
  | _ => false
  end.

Definition drive_calls (cs : list gpio_call) : nat := length (filter is_drive cs).

(** The smoothing step, [alpha * rms + (1 - alpha) * _last_rms] with the
    source's [alpha = 1]. *)
Definition alpha : Q := 1.
Definition smooth (rms last_rms : Q) : Q := alpha * rms + (1 - alpha) * last_rms.

(** [flap_from_pcm_chunk(audio, threshold, min_flap_gap, chunk_ms)].
    [rms0] is the value numpy computes for the chunk RMS (see
    [Np.is_rms]); [now] is the reading of [time.time()].  The guard
    ['_last_rms' not in globals()] never fires because the module binds
    [_last_rms] at import.  Returns the updated globals and the lgpio
    calls made. *)
Definition flap_from_pcm_chunk (audio : list Q) (rms0 : Q) (now : Q)
    (threshold min_flap_gap chunk_ms : Q) (st : mouth_sync)
    : mouth_sync * list gpio_call :=
  if Nat.eqb (length audio) 0 then (st, [])
  else
    let rms := rms0 in
    let peak := Np.max_abs audio in
    let rms := smooth rms (_last_rms st) in
    let st := MouthSync (_last_flap st) (_mouth_open_until st) rms in
    if Np.ltb rms (threshold / 2) && Np.leb (_mouth_open_until st) now
    then (st, stop_mouth)
    else if Np.leb rms threshold || Np.ltb (now - _last_flap st) min_flap_gap
    then (st, [])
    else
      let normalized := Np.clip (rms / 32768) 0 1 in
      let dyn_range := peak / (rms + (1 # 100000)) in
      let speed :=
        Np.int (Np.clip (Np.interp normalized (5 # 1000) (15 # 100) 25 100) 25 100) in
      let duration_ms := Np.interp normalized (5 # 1000) (15 # 100) 15 70 in
      let duration_ms := Np.clip duration_ms 15 chunk_ms in
      let duration := duration_ms / 1000 in
      (MouthSync now (now + duration) rms, move_mouth speed duration false).

End Movements.

(** ** Python values, exceptions and string helpers *)

Module Py.

Inductive exn : Type :=
| NameError (name : string)
| TypeError
| ValueError
| IndexError
| ZeroDivisionError
| Empty.

(** A computation either returns or raises. *)
Definition result (A : Type) : Type := A + exn.

Definition ret {A} (a : A) : result A := inl a.
Definition raise {A} (e : exn) : result A := inr e.
Definition bind {A B} (m : result A) (k : A -> result B) : result B :=
  match m with
  | inl a => k a
  | inr e => inr e
  end.

Declare Scope py_scope.
Delimit Scope py_scope with py.
Notation "x <- m ;; k" := (bind m (fun x => k))
  (at level 100, m at next level, right associativity) : py_scope.

Inductive pyval : Type :=
| PNone
| PBool (b : bool)
| PInt (z : Z)
| PFloat (q : Q)
| PStr (s : string)
| PPairs (l : list (Q * Q)).

(** Truth value of an object in a condition. *)
Definition truthy (v : pyval) : bool :=
  match v with
  | PNone => false
  | PBool b => b
  | PInt z => negb (z =? 0)
  | PFloat q => negb (Qeq_bool q 0)
  | PStr s => negb (String.eqb s "")
  | PPairs l => negb (Nat.eqb (length l) 0)
  end.


(** [d.get(key, dflt)]: the default is used only when the key is absent. *)
Definition dict_get (d : gmap string pyval) (key : string) (dflt : pyval) : pyval :=
  default dflt (d !! key).

(** [str.isspace] on code points below 256. *)
Definition isspace (c : ascii) : bool :=
  let n := nat_of_ascii c in
  ((9 <=? n) && (n <=? 13) || (28 <=? n) && (n <=? 32)
   || (n =? 133) || (n =? 160))%nat.

Definition isalpha_ascii (c : ascii) : bool :=
  let n := nat_of_ascii c in
  ((65 <=? n) && (n <=? 90) || (97 <=? n) && (n <=? 122))%nat.

Fixpoint lstrip (s : list ascii) : list ascii :=
  match s with
  | c :: s' => if isspace c then lstrip s' else s
  | [] => []
  end.

Definition rstrip (s : list ascii) : list ascii := rev (lstrip (rev s)).

(** [s.strip()] *)
Definition strip (s : list ascii) : list ascii := rstrip (lstrip s).

(** [s.split(sep)] for a one-character separator. *)
Fixpoint split (sep : ascii) (s : list ascii) : list (list ascii) :=
  match s with
  | [] => [[]]
  | c :: s' =>
      if Ascii.eqb c sep then [] :: split sep s'
      else match split sep s' with
           | w :: ws => (c :: w) :: ws
           | [] => [[c]]
           end
  end.

(** [s.split(sep, 1)]: the parts before and after the first separator,
    when there is one. *)
Fixpoint split_once (sep : ascii) (s : list ascii)
    : option (list ascii * list ascii) :=
  match s with
  | [] => None
  | c :: s' =>
      if Ascii.eqb c sep then Some ([], s')
      else match split_once sep s' with
           | Some (a, b) => Some (c :: a, b)
           | None => None
           end
  end.

Definition lower_char (c : ascii) : ascii :=
  let n := nat_of_ascii c in
  if ((65 <=? n) && (n <=? 90))%nat then ascii_of_nat (n + 32) else c.

(** [s.lower()] on ASCII. *)
Definition lower (s : list ascii) : list ascii := map lower_char s.

End Py.

(** ** queue.Queue *)

Module PyQueue.
Import Py.

Record t (A : Type) : Type := Mk {
  items : list A;
  unfinished_tasks : nat
}.
Arguments Mk {A}.
Arguments items {A}.
Arguments unfinished_tasks {A}.

Definition new {A} : t A := Mk [] 0.

Definition empty {A} (q : t A) : bool := Nat.eqb (length (items q)) 0.

Definition put {A} (x : A) (q : t A) : t A :=
  Mk (items q ++ [x]) (S (unfinished_tasks q)).

(** [get_nowait]: raises [Empty] on an empty queue. *)
Definition get_nowait {A} (q : t A) : result (A * t A) :=
  match items q with
  | [] => raise Empty
  | x :: rest => ret (x, Mk rest (unfinished_tasks q))
  end.

(** [task_done]: raises [ValueError] when called more often than [put]. *)
Definition task_done {A} (q : t A) : result (t A) :=
  match unfinished_tasks q with
  | O => raise ValueError
  | S n => ret (Mk (items q) n)
  end.

(** [q.queue.clear()]: empties the deque behind the queue's back, the
    task counter is untouched. *)
Definition clear {A} (q : t A) : t A := Mk [] (unfinished_tasks q).

(** [join] returns when the task counter is zero. *)
Definition join_returns {A} (q : t A) : bool := Nat.eqb (unfinished_tasks q) 0.

(** The flush loop shared by [stop_playback] and the barge-in branch of
    [handle_message]:
    [while not q.empty(): try: q.get_nowait(); q.task_done() except: break].
    Every iteration removes an item, so [length (items q)] rounds of fuel
    are enough. *)
Fixpoint flush_loop {A} (fuel : nat) (q : t A) : t A :=
  match fuel with
  | O => q
  | S fuel' =>
      if empty q then q
      else match get_nowait q with
           | inr _ => q
           | inl (_, q1) =>
               match task_done q1 with
               | inr _ => q1
               | inl q2 => flush_loop fuel' q2
               end
           end
  end.

Definition flush {A} (q : t A) : t A := flush_loop (length (items q)) q.

End PyQueue.

(** ** audio_playback.py *)

Module Playback.
Import Py.

(** What producers put on [playback_queue]: [None] (stop signal), a
    [("song", audio_chunk, flap_chunk, rms_drums)] tuple, another tagged
    tuple such as [("tts", chunk)], or raw PCM bytes.  PCM payloads are
    held as their int16 samples. *)
Inductive item : Type :=
| StopSignal
| SongItem (audio_chunk flap_chunk : list Z) (rms_drums : Q)
| TupleItem (mode : string) (chunk : list Z)
| RawItem (chunk : list Z).

Definition is_stop (x : item) : bool :=
  match x with StopSignal => true | _ => false end.

Record AudioPlaybackManager : Type := Manager {
  playback_queue : PyQueue.t item;
  head_move_queue : list (Q * Q);
  playback_done_event : bool;
  last_played_time : Q;
  song_mode : bool;
  beat_length : Q;
  compensate_tail_beats : Q
}.

(** [__init__] at time [now]. *)
Definition init (now : Q) : AudioPlaybackManager :=
  Manager PyQueue.new [] false now false (5 # 10) 0.

(** [stop_playback]: flush the queue, then set the done event. *)
Definition stop_playback (pm : AudioPlaybackManager) : AudioPlaybackManager :=
  Manager (PyQueue.flush (playback_queue pm)) (head_move_queue pm) true
          (last_played_time pm) (song_mode pm) (beat_length pm)
          (compensate_tail_beats pm).

(** *** The queue protocol between producers, the worker and the flushers

    One record for what the threads share: the queue, the item the
    worker currently holds between [get] and [task_done], whether the
    worker thread is alive, and two history variables: everything ever
    [put] and every item whose processing the worker completed. *)
Record sys : Type := Sys {
  q : PyQueue.t item;
  in_flight : option item;
  worker_alive : bool;
  enqueued : list item;
  played : list item
}.

Definition sys_init : sys := Sys PyQueue.new None true [] [].

Inductive label : Type :=
| l_put (x : item)      (* any producer: [playback_queue.put(x)] *)
| l_get                 (* worker: the blocking [playback_queue.get()] returns *)
| l_done                (* worker: item handled, [task_done()] *)
| l_crash               (* worker: the output stream raises *)
| l_start               (* [ensure_playback_worker_started] on a dead worker *)
| l_clear               (* [reset_for_new_song]: [queue.clear()] *)
| l_flush.              (* one round of the flush loop *)


Definition step (l : label) (s : sys) : option sys :=
  match l with
  | l_put x =>
      Some (Sys (PyQueue.put x (q s)) (in_flight s) (worker_alive s)
                (enqueued s ++ [x]) (played s))
  | l_get =>
      match worker_alive s, in_flight s, PyQueue.get_nowait (q s) with
      | true, None, inl (x, q') =>
          Some (Sys q' (Some x) true (enqueued s) (played s))
      | _, _, _ => None
      end
  | l_done =>
      match in_flight s, PyQueue.task_done (q s) with
      | Some x, inl q' =>
          Some (Sys q' None (negb (is_stop x)) (enqueued s) (played s ++ [x]))
      | _, _ => None
      end
  | l_crash =>
      match in_flight s with
      | Some _ => Some (Sys (q s) None false (enqueued s) (played s))
      | None => None
      end
  | l_start =>
      if worker_alive s then None
      else Some (Sys (q s) (in_flight s) true (enqueued s) (played s))
  | l_clear =>
      Some (Sys (PyQueue.clear (q s)) (in_flight s) (worker_alive s)
                (enqueued s) (played s))
  | l_flush =>
      match PyQueue.get_nowait (q s) with
      | inl (_, q1) =>
          match PyQueue.task_done q1 with
          | inl q2 =>
              Some (Sys q2 (in_flight s) (worker_alive s) (enqueued s) (played s))
          | inr _ => None
          end
      | inr _ => None
      end
  end.

Fixpoint run (tr : list label) (s : sys) : option sys :=
  match tr with
  | [] => Some s
  | l :: tr' =>
      match step l s with
      | Some s' => run tr' s'
      | None => None
      end
  end.

(** [playback_queue.join()] returns in state [s]. *)
Definition join_returns (s : sys) : bool := PyQueue.join_returns (q s).

(** The wait loop of [play_random_wake_up_clip],
    [while unfinished_tasks > already_pending: sleep], exits in state [s]. *)
Definition watermark_returns (already_pending : nat) (s : sys) : bool :=
  Nat.leb (PyQueue.unfinished_tasks (q s)) already_pending.

(** The item the worker holds, as a list. *)
Definition holding (s : sys) : list item :=
  match in_flight s with
  | Some x => [x]
  | None => []
  end.



(** [enqueue_wav_to_playback]: one [put] per chunk read from the file. *)
Definition enqueue_wav_to_playback (chunks : list (list Z)) : list label :=
  map (fun c => l_put (RawItem c)) chunks.

(** *** The worker loop, one iteration on a song item *)

Record worker_locals : Type := Locals {
  head_move_active : bool;
  head_move_end_time : Q;
  drums_peak : Q;
  drums_peak_time : Q;
  next_beat_time : Q
}.

(** Locals at thread start (the interlude counters belong to the
    non-song branches). *)
Definition locals_init : worker_locals := Locals false 0 0 0 0.

(** Everything an iteration reads or writes.  [head_out] and
    [song_start_time] are the names the worker declares [global] in
    [audio_playback]; the module never binds them at import, so each is
    [None] until its first assignment.  [mv_head_out] is the separate
    global [movements.head_out]. *)
Record world : Type := World {
  mgr : AudioPlaybackManager;
  head_out : option bool;
  song_start_time : option Q;
  mv_head_out : bool;
  mouth : Movements.mouth_sync;
  loc : worker_locals
}.

Inductive event : Type :=
| ev_gpio (cs : list Movements.gpio_call)     (* lgpio calls made in line *)
| ev_thread (cs : list Movements.gpio_call)   (* a daemon thread with this body *)
| ev_write (mono : list Z).                   (* [stream.write] of the chunk *)

Definition read_head_out (wd : world) : result bool :=
  match head_out wd with
  | Some b => ret b
  | None => raise (NameError "head_out")
  end.

Definition read_song_start_time (wd : world) : result Q :=
  match song_start_time wd with
  | Some t => ret t
  | None => raise (NameError "song_start_time")
  end.

Definition set_loc (w : worker_locals) (wd : world) : world :=
  World (mgr wd) (head_out wd) (song_start_time wd) (mv_head_out wd) (mouth wd) w.

Definition set_head (ho mv : bool) (wd : world) : world :=
  World (mgr wd) (Some ho) (song_start_time wd) mv (mouth wd) (loc wd).

Definition set_head_move_queue (hq : list (Q * Q)) (wd : world) : world :=
  let m := mgr wd in
  World (Manager (playback_queue m) hq (playback_done_event m)
                 (last_played_time m) (song_mode m) (beat_length m)
                 (compensate_tail_beats m))
        (head_out wd) (song_start_time wd) (mv_head_out wd) (mouth wd) (loc wd).

Definition set_queue_played (pq : PyQueue.t item) (t : Q) (wd : world) : world :=
  let m := mgr wd in
  World (Manager pq (head_move_queue m) (playback_done_event m) t
                 (song_mode m) (beat_length m) (compensate_tail_beats m))
        (head_out wd) (song_start_time wd) (mv_head_out wd) (mouth wd) (loc wd).

Local Open Scope Q_scope.
Local Open Scope py_scope.

(** Lines 82-96: end an expired head move, start the next scheduled one. *)
Definition head_move_section (now : Q) (wd : world) : result (world * list event) :=
  let w := loc wd in
  let '(wd, evs) :=
    if head_move_active w && Np.leb (head_move_end_time w) now then
      let '(mv, cs) := Movements.move_head "off" (mv_head_out wd) in
      (set_loc (Locals false (head_move_end_time w) (drums_peak w)
                       (drums_peak_time w) (next_beat_time w))
               (set_head false mv wd),
       [ev_gpio cs])
    else (wd, []) in
  let w := loc wd in
  if negb (head_move_active w) then
    match head_move_queue (mgr wd) with
    | (move_time, move_duration) :: rest =>
        start <- read_song_start_time wd ;;
        if Np.leb move_time (now - start) then
          let '(mv, cs) := Movements.move_head "on" (mv_head_out wd) in
          ret (set_loc (Locals true (now + move_duration) (drums_peak w)
                               (drums_peak_time w) (next_beat_time w))
                       (set_head true mv (set_head_move_queue rest wd)),
               evs ++ match cs with [] => [] | _ => [ev_thread cs] end)
        else ret (wd, evs)
    | [] => ret (wd, evs)
    end
  else ret (wd, evs).

(** [move_tail_async(duration)] *)
Definition move_tail_async (USE_THIRD_MOTOR : bool) (duration : Q) : event :=
  ev_thread (Movements.move_tail USE_THIRD_MOTOR duration).

(** Lines 112-126: track the drums peak and flap the tail on the beat. *)
Definition beat_tail_sync (USE_THIRD_MOTOR : bool) (now rms_drums : Q) (wd : world)
    : result (world * list event) :=
  let w := loc wd in
  let w :=
    if Np.ltb (drums_peak w) rms_drums
    then Locals (head_move_active w) (head_move_end_time w) rms_drums now
                (next_beat_time w)
    else w in
  start <- read_song_start_time wd ;;
  let adjusted_now :=
    (now - start) + compensate_tail_beats (mgr wd) * beat_length (mgr wd) in
  let elapsed_song_time := now - start in
  if Np.leb (next_beat_time w) adjusted_now then
    fire <- (if Np.ltb 1500 (drums_peak w)
             then ho <- read_head_out wd ;; ret (negb ho)
             else ret false) ;;
    ret (set_loc (Locals (head_move_active w) (head_move_end_time w) 0 0
                         (next_beat_time w + beat_length (mgr wd))) wd,
         if fire : bool then [move_tail_async USE_THIRD_MOTOR (2 # 10)] else [])
  else ret (set_loc w wd, []).

(** One pass of the [while True] body for an item of mode ["song"], taken
    off the queue at instant [now].  [now_flap] is the clock reading
    inside [flap_from_pcm_chunk], [flap_rms] the RMS numpy computes for
    the vocals chunk, [now_end] the reading stored in [last_played_time]. *)
Definition worker_song_iteration (USE_THIRD_MOTOR : bool) (chunk_ms : Q)
    (now now_flap flap_rms now_end : Q)
    (audio_chunk flap_chunk : list Z) (rms_drums : Q) (wd : world)
    : result (world * list event) :=
  r1 <- head_move_section now wd ;;
  let '(wd, ev1) := r1 in
  let '(m, cs) :=
    Movements.flap_from_pcm_chunk (map inject_Z flap_chunk) flap_rms now_flap
      1500 (1 # 10) chunk_ms (mouth wd) in
  let wd := World (mgr wd) (head_out wd) (song_start_time wd) (mv_head_out wd) m
                  (loc wd) in
  r2 <- beat_tail_sync USE_THIRD_MOTOR now rms_drums wd ;;
  let '(wd, ev2) := r2 in
  pq <- PyQueue.task_done (playback_queue (mgr wd)) ;;
  ret (set_queue_played pq now_end wd,
       ev1 ++ [ev_gpio cs] ++ ev2 ++ [ev_write audio_chunk]).

(** [reset_for_new_song] at instant [now]. *)
Definition reset_for_new_song (now : Q) (wd : world) : world :=
  let m := mgr wd in
  World (Manager (PyQueue.clear (playback_queue m)) [] false now (song_mode m)
                 (beat_length m) (compensate_tail_beats m))
        (head_out wd) (Some now) (mv_head_out wd) (mouth wd) (loc wd).

(** The drums peak the beat check sees: the running peak, raised to the
    current chunk's level. *)
Definition peak_now (rms_drums : Q) (w : worker_locals) : Q :=
  if Np.ltb (drums_peak w) rms_drums then rms_drums else drums_peak w.

(** The world when the worker takes the first chunk of a song: manager
    as built by [__init__], [reset_for_new_song] at instant 10, no head
    move scheduled, the chunk's task counted. *)
Definition first_chunk_world : world :=
  let wd := reset_for_new_song 10
              (World (init 0) None None false Movements.mouth_sync_init locals_init) in
  set_queue_played (PyQueue.Mk [] 1) 10 wd.

Close Scope py_scope.
Close Scope Q_scope.

(** *** Response history *)

Record wav_file : Type := Wav {
  nchannels : Z;
  sampwidth : Z;
  framerate : Z;
  frames : list Z
}.

Definition RESPONSE_HISTORY_DIR : string := "sounds/response-history".
Definition DEFAULT_SAMPLE_RATE : Z := 24000.
Definition DEFAULT_CHANNELS : Z := 1.

(** [os.path.join(dir, name)] for a relative [name]. *)
Definition path_join (dir name : string) : string := dir +:+ "/" +:+ name.

(** [f"response-{i}.wav"] *)
Definition response_name (i : nat) : string := "response-" +:+ pretty i +:+ ".wav".

(** [save_audio_to_wav(audio_bytes, filename)] *)
Definition save_audio_to_wav (audio_bytes : list Z) (filename : string)
    (fs : gmap string wav_file) : gmap string wav_file :=
  <[path_join RESPONSE_HISTORY_DIR filename :=
      Wav DEFAULT_CHANNELS 2 DEFAULT_SAMPLE_RATE audio_bytes]> fs.

(** [os.replace(src, dst)] for an existing [src]. *)
Definition os_replace (src dst : string) (fs : gmap string wav_file)
    : gmap string wav_file :=
  match fs !! src with
  | Some f => <[dst := f]> (delete src fs)
  | None => fs
  end.

(** [rotate_and_save_response_audio]; [range(2, 0, -1)] is [2, 1]. *)
Definition rotate_and_save_response_audio (audio_bytes : list Z)
    (fs : gmap string wav_file) : gmap string wav_file :=
  let fs :=
    fold_left
      (fun fs i =>
         let src := path_join RESPONSE_HISTORY_DIR (response_name i) in
         let dst := path_join RESPONSE_HISTORY_DIR (response_name (i + 1)) in
         if bool_decide (is_Some (fs !! src)) then os_replace src dst fs else fs)
      [2%nat; 1%nat] fs in
  save_audio_to_wav audio_bytes "response-1.wav" fs.

(** The three rotation slots, and a run of calls. *)
Definition response_path (i : nat) : string :=
  path_join RESPONSE_HISTORY_DIR (response_name i).

Definition history_files : gset string :=
  {[response_path 1; response_path 2; response_path 3]}.

Definition rotate_all (calls : list (list Z)) (fs : gmap string wav_file)
    : gmap string wav_file :=
  fold_left (fun fs audio_bytes => rotate_and_save_response_audio audio_bytes fs)
            calls fs.

End Playback.

(** ** audio.py: song metadata *)

Module Audio.
Import Py.

(** Module-level names of [core.audio] that [play_song] rebinds.  They
    were copied from the manager's attributes at import and are separate
    bindings from then on. *)
Record audio_module : Type := AudioModule {
  song_mode : bool;
  beat_length : Q;
  compensate_tail_beats : Q
}.

Section Metadata.

(** [float(s)] of the builtins: [None] where Python raises [ValueError]. *)
Variable float : list ascii -> option Q.

Definition to_float (s : list ascii) : result Q :=
  match float s with
  | Some x => ret x
  | None => raise ValueError
  end.

Local Open Scope py_scope.

Definition metadata_defaults : gmap string pyval :=
  <["bpm" := PNone]>
  (<["head_moves" := PPairs []]>
  (<["tail_threshold" := PInt 1500]>
  (<["gain" := PFloat 1]>
  (<["compensate_tail" := PFloat 0]>
  (<["half_tempo_tail_flap" := PBool false]> ∅))))).

(** [(float(v.split(':')[0]), float(v.split(':')[1]))] *)
Definition parse_move (v : list ascii) : result (Q * Q) :=
  match split ":" v with
  | a :: b :: _ =>
      x <- to_float a ;;
      y <- to_float b ;;
      ret (x, y)
  | _ => x <- to_float (hd [] (split ":" v)) ;; raise IndexError
  end.

Fixpoint parse_moves (vs : list (list ascii)) : result (list (Q * Q)) :=
  match vs with
  | [] => ret []
  | v :: vs' =>
      m <- parse_move v ;;
      ms <- parse_moves vs' ;;
      ret (m :: ms)
  end.

(** The body of [for line in f] in [load_metadata]. *)
Definition load_line (metadata : gmap string pyval) (line : string)
    : result (gmap string pyval) :=
  match split_once "=" (strip (list_ascii_of_string line)) with
  | Some (k, value) =>
      let key := string_of_list_ascii k in
      if String.eqb key "head_moves" then
        ms <- parse_moves (split "," value) ;;
        ret (<[key := PPairs ms]> metadata)
      else if String.eqb key "bpm" || String.eqb key "tail_threshold"
              || String.eqb key "gain" || String.eqb key "compensate_tail" then
        x <- to_float (strip value) ;;
        ret (<[key := PFloat x]> metadata)
      else if String.eqb key "half_tempo_tail_flap" then
        ret (<[key := PBool (String.eqb (string_of_list_ascii (lower (strip value)))
                                       "true")]> metadata)
      else ret metadata
  | None => ret metadata
  end.

Fixpoint load_lines (metadata : gmap string pyval) (lines : list string)
    : result (gmap string pyval) :=
  match lines with
  | [] => ret metadata
  | line :: rest =>
      m <- load_line metadata line ;;
      load_lines m rest
  end.

(** [load_metadata(path)]; [file] is [None] when [os.path.exists(path)]
    is false, else the lines of the file. *)
Definition load_metadata (file : option (list string)) : result (gmap string pyval) :=
  match file with
  | None => ret metadata_defaults
  | Some lines => load_lines metadata_defaults lines
  end.

(** [x / v] for a float [x]. *)
Definition float_div (x : Q) (v : pyval) : result Q :=
  let over (d : Q) : result Q :=
    if Qeq_bool d 0 then raise ZeroDivisionError else ret (x / d)%Q in
  match v with
  | PFloat d => over d
  | PInt z => over (inject_Z z)
  | PBool b => over (if b then 1 else 0)%Q
  | _ => raise TypeError
  end.

Definition as_float (v : pyval) (dflt : Q) : Q :=
  match v with
  | PFloat d => d
  | PInt z => inject_Z z
  | _ => dflt
  end.

Definition as_pairs (v : pyval) : list (Q * Q) :=
  match v with
  | PPairs l => l
  | _ => []
  end.

(** The locals [play_song] derives from the metadata. *)
Record song_settings : Type := Settings {
  GAIN : pyval;
  BPM : pyval;
  tail_threshold : pyval;
  half_tempo_tail_flap : pyval
}.

(** [play_song] from [reset_for_new_song()] up to [audio.song_mode = True]
    (lines 138-191), at instant [now]. *)
Definition play_song_setup (now : Q) (file : option (list string))
    (am : audio_module) (wd : Playback.world)
    : result (song_settings * audio_module * Playback.world) :=
  let wd := Playback.reset_for_new_song now wd in
  metadata <- load_metadata file ;;
  let gain := dict_get metadata "gain" (PFloat 1) in
  let bpm := dict_get metadata "bpm" (PInt 120) in
  let tail := dict_get metadata "tail_threshold" (PInt 1500) in
  let am := AudioModule (song_mode am) (beat_length am)
              (as_float (dict_get metadata "compensate_tail" (PFloat 0)) 0) in
  let head_move_schedule := as_pairs (dict_get metadata "head_moves" (PPairs [])) in
  let wd :=
    Playback.set_head_move_queue
      (Playback.head_move_queue (Playback.mgr wd) ++ head_move_schedule) wd in
  let half := dict_get metadata "half_tempo_tail_flap" (PBool false) in
  bl <- float_div 60 bpm ;;
  let am := AudioModule (song_mode am) bl (compensate_tail_beats am) in
  let am :=
    if truthy (default PNone (metadata !! "half_tempo_tail_flap"))
    then AudioModule (song_mode am) (beat_length am * 2)%Q (compensate_tail_beats am)
    else am in
  let am := AudioModule true (beat_length am) (compensate_tail_beats am) in
  ret (Settings gain bpm tail half, am, wd).

End Metadata.

End Audio.

(** ** session.py *)

Module Session.
Import Py.

Definition STATE_IDLE : string := "idle".

Record BillySession : Type := Session_ {
  ws_client : bool;                   (* [True]: a client object, [False]: [None] *)
  full_response_text : string;
  last_activity : Q;
  session_active : bool;
  user_spoke_after_assistant : bool;
  allow_mic_input : bool;
  run_mode : pyval                    (* [RUN_MODE] of the configuration *)
}.

(** Calls that leave the session object. *)
Inductive action : Type :=
| mqtt_publish (topic state : string)
| stop_all_motors
| ws_disconnect
| start                               (* [await self.start()] *)
| update_persona_ini (trait : string) (val : pyval)
| ws_send_message (text : string)
| ws_create_response.

(** [re.search(r"[a-zA-Z]\?\s*$", s)]: somewhere an ASCII letter, then a
    question mark, then only whitespace up to the end of the string. *)
Fixpoint re_search_followup (s : list ascii) : bool :=
  match s with
  | c :: s' =>
      match s' with
      | d :: rest =>
          isalpha_ascii c && Ascii.eqb d "?" && forallb isspace rest
          || re_search_followup s'
      | [] => false
      end
  | [] => false
  end.

(** [async with self.ws_lock: if self.ws_client: disconnect; ws_client = None] *)
Definition close_connection (s : BillySession) : BillySession * list action :=
  if ws_client s
  then (Session_ false (full_response_text s) (last_activity s) (session_active s)
                 (user_spoke_after_assistant s) (allow_mic_input s) (run_mode s),
        [ws_disconnect])
  else (s, []).

Definition end_session (s : BillySession) : BillySession * list action :=
  let '(s', acts) := close_connection s in
  (s', [mqtt_publish "billy/state" STATE_IDLE; stop_all_motors] ++ acts).

(** [post_response_handling] *)
Definition post_response_handling (s : BillySession) : BillySession * list action :=
  if negb (session_active s) then end_session s
  else if negb (truthy (run_mode s))
          && (re_search_followup (strip (list_ascii_of_string (full_response_text s)))
              && user_spoke_after_assistant s)
  then (s, [start])
  else end_session s.








(** *** Vocabulary of the properties *)

(** The transcript ends in a question mark. *)
Definition ends_in_question_mark (text : string) : bool :=
  match rev (list_ascii_of_string text) with
  | c :: _ => Ascii.eqb c "?"
  | [] => false
  end.

(** The stripped transcript ends with an ASCII letter directly followed
    by a question mark. *)
Definition ends_in_letter_question_mark (text : string) : Prop :=
  exists (pre : list ascii) (c : ascii),
    strip (list_ascii_of_string text) = pre ++ [c; "?"%char]
    /\ isalpha_ascii c = true.






End Session.

(** ** audio_playback.py, continued *)

Module PlaybackMore.
Import Py Playback.

(** [is_billy_speaking] *)
Definition is_billy_speaking (pm : AudioPlaybackManager) : bool :=
  if negb (playback_done_event pm) then true
  else negb (PyQueue.empty (playback_queue pm)).

(** The task counter is ahead of the items still to be handled. *)
Definition in_debt (s : sys) : Prop :=
  (length (holding s ++ PyQueue.items (q s)) < PyQueue.unfinished_tasks (q s))%nat.

(** The task counter covers the items still to be handled. *)
Definition covered (s : sys) : Prop :=
  (length (holding s ++ PyQueue.items (q s)) <= PyQueue.unfinished_tasks (q s))%nat.

End PlaybackMore.

(** ** audio.py, continued *)

Module AudioMore.
Import Py.

(** The key of a metadata line: what precedes the first ['='] of the
    stripped line, if there is one. *)
Definition line_key (line : string) : option string :=
  match split_once "=" (strip (list_ascii_of_string line)) with
  | Some (k, _) => Some (string_of_list_ascii k)
  | None => None
  end.

(** The ["bpm"] entry is [None] or a float, never anything else. *)
Definition bpm_shape (m : gmap string pyval) : Prop :=
  m !! "bpm" = Some PNone \/ exists b : Q, m !! "bpm" = Some (PFloat b).

End AudioMore.

(** ** audio_playback.py: reading clips and playing raw chunks *)

Module PlaybackIO.
Import Py Playback.

(** A WAV file as [wave.open(path, 'rb')] presents it: its header and
    the frames not yet read.  For the one format the code accepts (mono,
    16 bit) a frame is one int16 sample. *)
Record Wave_read : Type := WaveRead {
  getframerate : Z;
  getnchannels : Z;
  getsampwidth : Z;
  unread : list Z
}.

Definition advance (frames : list Z) (wf : Wave_read) : Wave_read :=
  WaveRead (getframerate wf) (getnchannels wf) (getsampwidth wf) frames.

(** [wf.readframes(n)]: nothing for [n = 0], everything left for a
    negative [n], else up to [n] frames. *)
Definition readframes (n : Z) (wf : Wave_read) : list Z * Wave_read :=
  if n =? 0 then ([], wf)
  else if n <? 0 then (unread wf, advance [] wf)
  else (take (Z.to_nat n) (unread wf), advance (drop (Z.to_nat n) (unread wf)) wf).

(** [while True: frames = wf.readframes(chunk_size); if not frames: break;
    playback_queue.put(frames)].  Every round but the last consumes a
    frame, so one more round than there are frames is enough fuel. *)
Fixpoint read_loop (fuel : nat) (chunk_size : Z) (wf : Wave_read)
    (pq : PyQueue.t item) : PyQueue.t item :=
  match fuel with
  | O => pq
  | S fuel' =>
      let '(frames, wf') := readframes chunk_size wf in
      if Nat.eqb (length frames) 0 then pq
      else read_loop fuel' chunk_size wf' (PyQueue.put (RawItem frames) pq)
  end.

(** [enqueue_wav_to_playback(filepath)] on the opened file. *)
Definition enqueue_wav_to_playback (CHUNK_MS : Q) (wf : Wave_read)
    (pq : PyQueue.t item) : result (PyQueue.t item) :=
  if negb (getframerate wf =? DEFAULT_SAMPLE_RATE)
     || negb (getnchannels wf =? DEFAULT_CHANNELS)
     || negb (getsampwidth wf =? 2)
  then raise ValueError
  else
    let chunk_size := Np.int (inject_Z DEFAULT_SAMPLE_RATE * CHUNK_MS / 1000)%Q in
    ret (read_loop (S (length (unread wf))) chunk_size wf pq).

(** [range(0, n, step)] for a length [n]: [ValueError] for a zero step,
    empty for a negative one. *)
Fixpoint range_from (fuel i n step : nat) : list nat :=
  match fuel with
  | O => []
  | S fuel' => if (i <? n)%nat then i :: range_from fuel' (i + step) n step else []
  end.

Definition py_range (n : nat) (step : Z) : result (list nat) :=
  if step =? 0 then raise ValueError
  else if step <? 0 then ret []
  else ret (range_from n 0 n (Z.to_nat step)).

(** [mono[i : i + chunk_len]] *)
Definition slice (mono : list Z) (i : nat) (chunk_len : Z) : list Z :=
  take (Z.to_nat chunk_len) (drop i mono).

Inductive pcm_event : Type :=
| pe_gpio (cs : list Movements.gpio_call)     (* calls made by the mouth sync *)
| pe_write (sub : list Z)                     (* [stream.write] of the sub-chunk *)
| pe_interlude.                               (* [interlude()] *)

(** What the sub-chunk loop carries along. *)
Record pcm_state : Type := PcmState {
  ps_mouth : Movements.mouth_sync;
  interlude_counter : Z;
  interlude_target : Z;
  drawn : nat;                 (* calls of [random.randint] so far *)
  flapped : nat;               (* calls of [flap_from_pcm_chunk] so far *)
  ps_events : list pcm_event
}.

Section PcmLoop.

(** The environment of the loop: the RMS numpy computes for a sub-chunk,
    the clock reading inside the k-th call of the mouth sync, and the
    k-th value drawn by [random.randint(80000, 160000)]. *)
Variable rms_of : list Z -> Q.
Variable clock : nat -> Q.
Variable randint : nat -> Z.
Variable chunk_ms : Q.

(** The loop body for one [i]. *)
Definition pcm_body (mono : list Z) (chunk_len : Z) (st : pcm_state) (i : nat)
    : pcm_state :=
  let sub := slice mono i chunk_len in
  if Nat.eqb (length sub) 0 then st
  else
    let '(m, cs) :=
      Movements.flap_from_pcm_chunk (map inject_Z sub) (rms_of sub)
        (clock (flapped st)) 1500 (1 # 10) chunk_ms (ps_mouth st) in
    let counter := interlude_counter st + Z.of_nat (length sub) in
    let evs := ps_events st ++ [pe_gpio cs; pe_write sub] in
    if interlude_target st <=? counter
    then PcmState m 0 (randint (drawn st)) (S (drawn st)) (S (flapped st))
                  (evs ++ [pe_interlude])
    else PcmState m counter (interlude_target st) (drawn st) (S (flapped st)) evs.

(** The branch for raw bytes and for [("tts", chunk)] tuples:
    [chunk_len = int(24000 * chunk_ms / 1000)], then the loop over
    [range(0, len(mono), chunk_len)]. *)
Definition play_pcm (mono : list Z) (st : pcm_state) : result pcm_state :=
  let chunk_len := Np.int (24000 * chunk_ms / 1000)%Q in
  bind (py_range (length mono) chunk_len)
       (fun idx => ret (fold_left (pcm_body mono chunk_len) idx st)).

End PcmLoop.



End PlaybackIO.

(** ** error_handling.py: retry_on_failure *)

Module ErrorHandling.
Import Py.

Section Retry.
Context {A : Type}.

(** The decorated function as seen from the wrapper: the outcome of its
    k-th call, counting from zero.  [catches e] is
    [isinstance(e, exceptions)]. *)
Variable func : nat -> result A.
Variable catches : exn -> bool.

Record retry_run : Type := RetryRun {
  outcome : result A;
  calls : nat;                  (* how often [func] was called *)
  sleeps : list Q               (* the arguments of [time.sleep], in order *)
}.

(** [for attempt in range(max_retries + 1)] from [attempt] on, with
    [rounds] iterations left; after the loop, [raise last_exception]
    (raising [None] is a [TypeError]). *)
Fixpoint retry_loop (rounds attempt : nat) (max_retries : Z)
    (current_delay backoff_factor : Q) (last_exception : option exn)
    (slept : list Q) : retry_run :=
  match rounds with
  | O =>
      match last_exception with
      | Some e => RetryRun (raise e) attempt slept
      | None => RetryRun (raise TypeError) attempt slept
      end
  | S rounds' =>
      match func attempt with
      | inl v => RetryRun (ret v) (S attempt) slept
      | inr e =>
          if catches e then
            if Z.of_nat attempt <? max_retries
            then retry_loop rounds' (S attempt) max_retries
                            (current_delay * backoff_factor)%Q backoff_factor
                            (Some e) (slept ++ [current_delay])
            else retry_loop rounds' (S attempt) max_retries current_delay
                            backoff_factor (Some e) slept
          else RetryRun (raise e) (S attempt) slept
      end
  end.

(** [sync_wrapper] of [retry_on_failure(max_retries, delay, backoff_factor,
    exceptions)]. *)
Definition sync_wrapper (max_retries : Z) (delay backoff_factor : Q) : retry_run :=
  retry_loop (Z.to_nat (max_retries + 1)) 0 max_retries delay backoff_factor None [].

(** The call raised an exception the decorator catches. *)
Definition caught (r : result A) : Prop :=
  match r with
  | inl _ => False
  | inr e => catches e = true
  end.

(** The call returned, or raised an exception the decorator lets through. *)
Definition settled (r : result A) : Prop :=
  match r with
  | inl _ => True
  | inr e => catches e = false
  end.

End Retry.

(** [delay, delay * f, delay * f * f, ...], [n] terms. *)
Fixpoint backoff_delays (n : nat) (delay backoff_factor : Q) : list Q :=
  match n with
  | O => []
  | S n' => delay :: backoff_delays n' (delay * backoff_factor)%Q backoff_factor
  end.

End ErrorHandling.

(** ** session.py, continued *)

Module SessionMore.
Import Py Playback Session.

Definition STATE_SPEAKING : string := "speaking".
Definition STATE_LISTENING : string := "listening".
Definition WS_SESSION_UPDATED : string := "session_updated".
Definition WS_RESPONSE_DONE : string := "response.done".
Definition WS_RESPONSE_AUDIO : string := "response.audio".
Definition WS_RESPONSE_AUDIO_DELTA : string := "response.audio.delta".
Definition WS_RESPONSE_TEXT_DELTA : string := "response.text.delta".
Definition WS_RESPONSE_AUDIO_TRANSCRIPT_DELTA : string := "response.audio_transcript.delta".
Definition WS_RESPONSE_FUNCTION_CALL_ARGUMENTS_DONE : string :=
  "response.function_call_arguments.done".
Definition WS_ERROR : string := "error".

(** The two line feeds appended at the end of a speech segment. *)
Definition two_newlines : string := String "010" (String "010" EmptyString).

(** The fields of an inbound message these branches read: [data["type"]],
    [data.get("audio")], [data.get("delta")]. *)
Record message : Type := Message {
  m_type : string;
  m_audio : option string;
  m_delta : option string
}.

(** The session object with its per-turn flags, the stream processor's
    save buffer, the playback manager and the response-history files. *)
Record turn : Type := Turn {
  sess : BillySession;
  committed : bool;
  first_text : bool;
  session_initialized : bool;
  interrupt_event : bool;
  last_rms : Q;
  audio_buffer : list Z;
  pm : AudioPlaybackManager;
  files : gmap string wav_file
}.

Inductive effect : Type :=
| act (a : action)
| ws_commit_audio_buffer
| mic_start
| mic_stop
| send_mic_audio (samples : list Z).

(** How a handler hands control back: it fell through to the end,
    executed [return], or raised. *)
Inductive flow : Type := Next | Returned | Raised.

Definition with_sess (s : BillySession) (t : turn) : turn :=
  Turn s (committed t) (first_text t) (session_initialized t) (interrupt_event t)
       (last_rms t) (audio_buffer t) (pm t) (files t).

Definition set_active (b : bool) (s : BillySession) : BillySession :=
  Session_ (ws_client s) (full_response_text s) (last_activity s) b
           (user_spoke_after_assistant s) (allow_mic_input s) (run_mode s).

Definition set_last_activity (now : Q) (s : BillySession) : BillySession :=
  Session_ (ws_client s) (full_response_text s) now (session_active s)
           (user_spoke_after_assistant s) (allow_mic_input s) (run_mode s).

Definition set_allow_mic (b : bool) (s : BillySession) : BillySession :=
  Session_ (ws_client s) (full_response_text s) (last_activity s) (session_active s)
           (user_spoke_after_assistant s) b (run_mode s).

Definition set_spoke (b : bool) (s : BillySession) : BillySession :=
  Session_ (ws_client s) (full_response_text s) (last_activity s) (session_active s)
           b (allow_mic_input s) (run_mode s).

Definition set_text (text : string) (s : BillySession) : BillySession :=
  Session_ (ws_client s) text (last_activity s) (session_active s)
           (user_spoke_after_assistant s) (allow_mic_input s) (run_mode s).

Definition set_queue (pq : PyQueue.t item) (m : AudioPlaybackManager)
    : AudioPlaybackManager :=
  Manager pq (head_move_queue m) (playback_done_event m) (last_played_time m)
          (song_mode m) (beat_length m) (compensate_tail_beats m).

Definition set_done_event (b : bool) (m : AudioPlaybackManager) : AudioPlaybackManager :=
  Manager (playback_queue m) (head_move_queue m) b (last_played_time m)
          (song_mode m) (beat_length m) (compensate_tail_beats m).

(** [BillySession.__init__] at time [now], around the shared playback
    manager and response history. *)
Definition new_session (now : Q) (RUN_MODE : pyval) (interrupt_event : bool)
    (m : AudioPlaybackManager) (fs : gmap string wav_file) : turn :=
  Turn (Session_ false "" now false false true RUN_MODE)
       false true false interrupt_event 0 [] m fs.

(** [start] up to the call of [run_stream], when the connection is there
    or can be made: buffers cleared, per-turn flags reset, session
    active, and in audio mode the done event cleared. *)
Definition start_prologue (TEXT_ONLY_MODE : bool) (now : Q) (t : turn) : turn :=
  Turn (Session_ true "" now true false true (run_mode (sess t)))
       false true (session_initialized t) (interrupt_event t) (last_rms t) []
       (if TEXT_ONLY_MODE then pm t else set_done_event false (pm t)) (files t).

(** [stop_session]: clear the active flag, stop the microphone, close the
    connection if there is one (errors while closing are swallowed). *)
Definition stop_session (s : BillySession) : BillySession * list effect :=
  let s := set_active false s in
  let '(s', acts) := close_connection s in
  (s', mic_stop :: map act acts).

(** [request_stop] *)
Definition request_stop (s : BillySession) : BillySession := set_active false s.

(** [x or y] on the two optional strings, then the truth test
    [if audio_b64:]: the string the branch works on, if any. *)
Definition audio_field (data : message) : option string :=
  let pick :=
    match m_audio data with
    | Some a => if String.eqb a "" then m_delta data else Some a
    | None => m_delta data
    end in
  match pick with
  | Some a => if String.eqb a "" then None else Some a
  | None => None
  end.

Definition is_audio_type (data : message) : bool :=
  String.eqb (m_type data) WS_RESPONSE_AUDIO
  || String.eqb (m_type data) WS_RESPONSE_AUDIO_DELTA.

Definition is_text_type (data : message) : bool :=
  String.eqb (m_type data) WS_RESPONSE_AUDIO_TRANSCRIPT_DELTA
  || String.eqb (m_type data) WS_RESPONSE_TEXT_DELTA.

(** What reaches the stream loop and the session object while
    [run_stream] is in its [async for]: a message from the socket, a
    block from the microphone thread, [interrupt_event.set()],
    [request_stop()], and the [stop_session()] of the watchdog. *)
Inductive event : Type :=
| ws_message (now : Q) (data : message)
| mic_frame (now : Q) (samples : list Z) (rms : Q)
| interrupt
| stop_requested
| timed_out.

Section Handlers.

(** [TEXT_ONLY_MODE] and [SILENCE_THRESHOLD] of the configuration;
    [base64.b64decode] and [AudioProcessor.process_audio_chunk], [None]
    when they raise; the function-call and error branches of
    [handle_message], which are not unfolded here. *)
Variable TEXT_ONLY_MODE : bool.
Variable SILENCE_THRESHOLD : Q.
Variable b64decode : string -> option (list Z).
Variable process_audio_chunk : list Z -> option (list Z).
Variable on_function_call : message -> turn -> turn * list effect * flow.
Variable on_error : message -> turn -> turn * list effect * flow.

(** [mic_callback(indata)]: [samples] is the first channel, [rms] the
    value numpy computes for it, [now] the clock. *)
Definition mic_callback (now : Q) (samples : list Z) (rms : Q) (t : turn)
    : turn * list effect :=
  let s := sess t in
  if negb (allow_mic_input s) || negb (session_active s) then (t, [])
  else
    let t := Turn s (committed t) (first_text t) (session_initialized t)
                  (interrupt_event t) rms (audio_buffer t) (pm t) (files t) in
    let s := if Np.ltb SILENCE_THRESHOLD rms
             then set_spoke true (set_last_activity now s) else s in
    (with_sess s t, if ws_client s then [send_mic_audio samples] else []).

(** The audio branch of [handle_message].  Committing on a session
    whose client is [None] raises; so do a delta that is not base64 and
    a chunk the resampler refuses, the first before and the second
    after the bytes went into the save buffer. *)
Definition on_audio (now : Q) (data : message) (t : turn)
    : turn * list effect * flow :=
  if negb TEXT_ONLY_MODE && is_audio_type data then
    let '(t, e1, ok) :=
      if negb (committed t) && session_initialized t
      then
        if ws_client (sess t)
        then (Turn (sess t) true (first_text t) (session_initialized t)
                   (interrupt_event t) (last_rms t) (audio_buffer t) (pm t) (files t),
              [ws_commit_audio_buffer], true)
        else (t, [], false)                  (* [None.commit_audio_buffer] *)
      else (t, [], true) in
    if ok : bool then
      match audio_field data with
      | Some audio_b64 =>
          match b64decode audio_b64 with
          | Some audio_chunk =>
              let t := Turn (sess t) (committed t) (first_text t)
                            (session_initialized t) (interrupt_event t) (last_rms t)
                            (audio_buffer t ++ audio_chunk) (pm t) (files t) in
              match process_audio_chunk audio_chunk with
              | Some processed =>
                  let pq := PyQueue.put (RawItem processed) (playback_queue (pm t)) in
                  let t := Turn (set_last_activity now (sess t)) (committed t)
                                (first_text t) (session_initialized t)
                                (interrupt_event t) (last_rms t) (audio_buffer t)
                                (set_queue pq (pm t)) (files t) in
                  if interrupt_event t
                  then (Turn (set_active false (sess t)) (committed t) (first_text t)
                             (session_initialized t) false (last_rms t) (audio_buffer t)
                             (set_queue (PyQueue.flush (playback_queue (pm t))) (pm t))
                             (files t),
                        e1, Returned)
                  else (t, e1, Next)
              | None => (t, e1, Raised)
              end
          | None => (t, e1, Raised)
          end
      | None => (t, e1, Next)
      end
    else (t, e1, Raised)
  else (t, [], Next).

(** The text branch of [handle_message]; a delta that is present is a
    string. *)
Definition on_text (data : message) (t : turn) : turn * list effect :=
  match m_delta data with
  | Some delta =>
      if is_text_type data then
        let s := set_allow_mic false (sess t) in
        let '(s, ft, e) :=
          if first_text t
          then (set_spoke false s, false,
                [act (mqtt_publish "billy/state" STATE_SPEAKING)])
          else (s, first_text t, []) in
        (Turn (set_text (full_response_text s +:+ delta) s) (committed t) ft
              (session_initialized t) (interrupt_event t) (last_rms t)
              (audio_buffer t) (pm t) (files t),
         e)
      else (t, [])
  | None => (t, [])
  end.

(** The [response.done] branch of [handle_message], from the moment
    [playback_queue.join] and the settle sleep have returned.  The
    [status_details] entry, read only to choose what is printed, is
    taken to be absent or a dict. *)
Definition on_response_done (now : Q) (t : turn) : turn * list effect * flow :=
  let t :=
    if negb TEXT_ONLY_MODE then
      let fs :=
        if (0 <? length (audio_buffer t))%nat
        then rotate_and_save_response_audio (audio_buffer t) (files t)
        else files t in
      Turn (set_allow_mic true (set_last_activity now (sess t))) (committed t)
           (first_text t) (session_initialized t) (interrupt_event t) (last_rms t)
           [] (set_done_event true (pm t)) fs
    else t in
  match run_mode (sess t) with
  | PStr mode =>
      if String.eqb mode "dory"
      then let '(s, e) := stop_session (sess t) in (with_sess s t, e, Returned)
      else (t, [], Next)
  | _ => (t, [], Next)
  end.

(** [handle_message] *)
Definition handle_message (now : Q) (data : message) (t : turn)
    : turn * list effect * flow :=
  let t :=
    if String.eqb (m_type data) "response.audio_transcript.done"
    then with_sess (set_text (full_response_text (sess t) +:+ two_newlines) (sess t)) t
    else t in
  let '(t, e1, fl) := on_audio now data t in
  match fl with
  | Next =>
      let '(t, e2) := on_text data t in
      let '(t, e3, fl) :=
        if String.eqb (m_type data) WS_RESPONSE_FUNCTION_CALL_ARGUMENTS_DONE
        then on_function_call data t
        else if String.eqb (m_type data) WS_RESPONSE_DONE
        then on_response_done now t
        else if String.eqb (m_type data) WS_ERROR
        then on_error data t
        else (t, [], Next) in
      (t, e1 ++ e2 ++ e3, fl)
  | _ => (t, e1, fl)
  end.

(** The [async for] of [run_stream] with what happens around it: the
    loop body runs for a message only while the session is active (else
    [break]), an exception leaves the loop and clears the active flag. *)
Fixpoint stream_loop (events : list event) (t : turn) : turn * list effect :=
  match events with
  | [] => (t, [])
  | ws_message now data :: rest =>
      if negb (session_active (sess t)) then (t, [])
      else
        let t :=
          if String.eqb (m_type data) WS_SESSION_UPDATED
          then Turn (sess t) (committed t) (first_text t) true (interrupt_event t)
                    (last_rms t) (audio_buffer t) (pm t) (files t)
          else t in
        let '(t, e, fl) := handle_message now data t in
        match fl with
        | Raised => (with_sess (set_active false (sess t)) t, e)
        | _ => let '(t', e') := stream_loop rest t in (t', e ++ e')
        end
  | mic_frame now samples rms :: rest =>
      let '(t, e) := mic_callback now samples rms t in
      let '(t', e') := stream_loop rest t in (t', e ++ e')
  | interrupt :: rest =>
      stream_loop rest
        (Turn (sess t) (committed t) (first_text t) (session_initialized t) true
              (last_rms t) (audio_buffer t) (pm t) (files t))
  | stop_requested :: rest =>
      stream_loop rest (with_sess (request_stop (sess t)) t)
  | timed_out :: rest =>
      let '(s, e) := stop_session (sess t) in
      let '(t', e') := stream_loop rest (with_sess s t) in (t', e ++ e')
  end.

(** [run_stream]: publish the listening state, start the microphone, run
    the loop; [finally] stop the microphone and do
    [post_response_handling]. *)
Definition run_stream (events : list event) (t : turn) : turn * list effect :=
  let '(t, e) := stream_loop events t in
  let '(s, acts) := post_response_handling (sess t) in
  (with_sess s t,
   [act (mqtt_publish "billy/state" STATE_LISTENING); mic_start] ++ e
   ++ [mic_stop] ++ map act acts).



End Handlers.

(** The event is not a message for the function-call or the error branch. *)
Definition plain (ev : event) : bool :=
  match ev with
  | ws_message _ data =>
      negb (String.eqb (m_type data) WS_RESPONSE_FUNCTION_CALL_ARGUMENTS_DONE)
      && negb (String.eqb (m_type data) WS_ERROR)
  | _ => true
  end.

Definition has_type (ty : string) (ev : event) : bool :=
  match ev with
  | ws_message _ data => String.eqb (m_type data) ty
  | _ => false
  end.

Definition is_stop (ev : event) : bool :=
  match ev with
  | stop_requested | timed_out => true
  | _ => false
  end.


Definition is_commit (e : effect) : bool :=
  match e with ws_commit_audio_buffer => true | _ => false end.

Definition is_send (e : effect) : bool :=
  match e with send_mic_audio _ => true | _ => false end.

Definition is_restart (e : effect) : bool :=
  match e with act start => true | _ => false end.

Definition is_disconnect (e : effect) : bool :=
  match e with act ws_disconnect => true | _ => false end.

(** One pass of the [while] body of [mic_timeout_checker] at instant
    [now]: the new [last_tail_move], whether the tail was flapped, and
    whether the session was stopped.  [audio_last_played_time] is the
    module attribute [audio.last_played_time]. *)
Definition watchdog_tick (MIC_TIMEOUT_SECONDS audio_last_played_time : Q)
    (now last_activity last_tail_move : Q) : Q * bool * bool :=
  let idle_seconds := (now - Qmax last_activity audio_last_played_time)%Q in
  let timeout_offset := 2%Q in
  if Np.ltb (5 # 10) (idle_seconds - timeout_offset)%Q then
    let elapsed := (idle_seconds - timeout_offset)%Q in
    let flap := Np.ltb 1 (now - last_tail_move)%Q in
    (if flap then now else last_tail_move, flap, Np.ltb MIC_TIMEOUT_SECONDS elapsed)
  else (last_tail_move, false, false).

(** The loop over its wake-ups, each given by the clock reading and the
    value of [last_activity] at that moment, for as long as the session
    stays active: the instants of the tail flaps and, if the watchdog
    stopped the session, the instant it did. *)
Fixpoint watchdog_run (MIC_TIMEOUT_SECONDS audio_last_played_time : Q)
    (ticks : list (Q * Q)) (last_tail_move : Q) : list Q * option Q :=
  match ticks with
  | [] => ([], None)
  | (now, last_activity) :: rest =>
      let '(ltm, flap, stop) :=
        watchdog_tick MIC_TIMEOUT_SECONDS audio_last_played_time now last_activity
                      last_tail_move in
      let flaps := if flap : bool then [now] else [] in
      if stop : bool then (flaps, Some now)
      else
        let '(more, stopped) :=
          watchdog_run MIC_TIMEOUT_SECONDS audio_last_played_time rest ltm in
        (flaps ++ more, stopped)
  end.

(** [mic_timeout_checker] from its first line. *)
Definition mic_timeout_checker (MIC_TIMEOUT_SECONDS audio_last_played_time : Q)
    (ticks : list (Q * Q)) : list Q * option Q :=
  watchdog_run MIC_TIMEOUT_SECONDS audio_last_played_time ticks 0.

(** Consecutive instants, [prev] first, are more than a second apart. *)
Fixpoint spaced (prev : Q) (times : list Q) : Prop :=
  match times with
  | [] => True
  | t :: rest => (1 < t - prev)%Q /\ spaced t rest
  end.

End SessionMore.

(** * Properties *)

(** ** Facts about the numeric helpers *)

Module NpFacts.
Local Open Scope Q_scope.

Lemma ltb_true x y : x < y -> Np.ltb x y = true.
Proof.
  intros H. unfold Np.ltb. destruct (Qlt_le_dec x y) as [_ | Hle]; [reflexivity |].
  exfalso. apply (Qlt_not_le _ _ H Hle).
Qed.

Lemma ltb_false x y : y <= x -> Np.ltb x y = false.
Proof.
  intros H. unfold Np.ltb. destruct (Qlt_le_dec x y) as [Hlt | _]; [| reflexivity].
  exfalso. apply (Qlt_not_le _ _ Hlt H).
Qed.

Lemma leb_true x y : x <= y -> Np.leb x y = true.
Proof.
  intros H. unfold Np.leb. destruct (Qlt_le_dec y x) as [Hlt | _]; [| reflexivity].
  exfalso. apply (Qlt_not_le _ _ Hlt H).
Qed.

Lemma leb_false x y : y < x -> Np.leb x y = false.
Proof.
  intros H. unfold Np.leb. destruct (Qlt_le_dec y x) as [_ | Hle]; [reflexivity |].
  exfalso. apply (Qlt_not_le _ _ H Hle).
Qed.

Lemma smooth_id rms last : Movements.smooth rms last == rms.
Proof. unfold Movements.smooth, Movements.alpha. ring. Qed.

(** Clipping into the unit interval keeps a value that is already there. *)
Lemma clip_unit x : 0 <= x -> x <= 1 -> Np.clip x 0 1 == x.
Proof.
  intros H0 H1. unfold Np.clip.
  rewrite (Q.max_l x 0) by exact H0. apply Q.min_l. exact H1.
Qed.




End NpFacts.

(** ** The envelope follower *)

Module MouthSyncSpec.
Import Movements.
Local Open Scope Q_scope.

(** C9. On the empty chunk [flap_from_pcm_chunk] returns at once: no lgpio
    call is made, so nothing is driven or braked and every pin keeps its
    state, and [_last_flap], [_mouth_open_until] and [_last_rms] keep
    their values. *)
Theorem flap_empty_chunk_noop (rms0 now threshold min_flap_gap chunk_ms : Q)
    (st : mouth_sync) (g : gmap Z pin_state) :
  let r := flap_from_pcm_chunk [] rms0 now threshold min_flap_gap chunk_ms st in
  r = (st, [])
  /\ run_gpio (snd r) g = g
  /\ _last_flap (fst r) = _last_flap st
  /\ _mouth_open_until (fst r) = _mouth_open_until st
  /\ _last_rms (fst r) = _last_rms st.
Proof.
  cbv zeta. unfold flap_from_pcm_chunk. cbn [length Nat.eqb fst snd].
  repeat split.
Qed.

Lemma stop_mouth_no_drive : drive_calls stop_mouth = 0%nat.
Proof. reflexivity. Qed.

Lemma move_mouth_one_drive speed d :
  (0 < speed)%Z -> drive_calls (move_mouth speed d false) = 1%nat.
Proof.
  intros H. apply Z.ltb_lt in H.
  unfold drive_calls, move_mouth, run_motor. cbn. now rewrite H.
Qed.




(** Branch taken by a chunk loud enough to flap. *)
Lemma flap_loud_chunk (audio : list Q)
    (rms0 now threshold min_flap_gap chunk_ms : Q) (st : mouth_sync) :
  audio <> [] ->
  threshold < smooth rms0 (_last_rms st) ->
  0 <= threshold ->
  min_flap_gap <= now - _last_flap st ->
  flap_from_pcm_chunk audio rms0 now threshold min_flap_gap chunk_ms st =
    let rms := smooth rms0 (_last_rms st) in
    let normalized := Np.clip (rms / 32768) 0 1 in
    let speed :=
      Np.int (Np.clip (Np.interp normalized (5 # 1000) (15 # 100) 25 100) 25 100) in
    let duration :=
      Np.clip (Np.interp normalized (5 # 1000) (15 # 100) 15 70) 15 chunk_ms / 1000 in
    (MouthSync now (now + duration) rms, move_mouth speed duration false).
Proof.
  intros Hne Hloud Hthr Hgap. unfold flap_from_pcm_chunk.
  destruct audio as [| a audio']; [congruence |].
  cbn [length Nat.eqb _mouth_open_until _last_flap].
  rewrite (NpFacts.ltb_false (smooth rms0 (_last_rms st)) (threshold / 2)).
  2:{ apply Qlt_le_weak. eapply Qle_lt_trans; [| exact Hloud].
      apply Qle_shift_div_r; [reflexivity |]. lra. }
  rewrite (NpFacts.leb_false _ _ Hloud), (NpFacts.ltb_false _ _ Hgap).
  reflexivity.
Qed.






End MouthSyncSpec.

(** ** Braking and stopping *)

Module ActuationSpec.
Import Movements.

(** Resolve lookups through a stack of inserts. *)
Ltac pin_simpl :=
  unfold pin_of;
  repeat first [ rewrite lookup_insert_eq
               | rewrite lookup_insert_ne by congruence ];
  cbn.

(** What [brake_motor] does to the pin table: both pins end up [braked],
    every other pin is untouched. *)
Lemma run_brake_motor (pin1 pin2 : Z) (g : gmap Z pin_state) :
  run_gpio (brake_motor pin1 pin2) g = <[pin2 := braked]> (<[pin1 := braked]> g).
Proof.
  unfold run_gpio, brake_motor, braked. cbn [fold_left].
  unfold gpio_step.
  destruct (decide (pin1 = pin2)) as [-> | Hne].
  - pin_simpl. now rewrite !insert_insert_eq.
  - pin_simpl.
    apply map_eq. intros k.
    destruct (decide (k = pin2)) as [-> | Hk2]; [now pin_simpl |].
    destruct (decide (k = pin1)) as [-> | Hk1]; now pin_simpl.
Qed.

Lemma brake_motor_brakes (pin1 pin2 : Z) (g : gmap Z pin_state) :
  channel_braked pin1 pin2 (run_gpio (brake_motor pin1 pin2) g).
Proof.
  rewrite run_brake_motor. split.
  - destruct (decide (pin1 = pin2)) as [-> | Hne].
    + now rewrite lookup_insert_eq.
    + rewrite lookup_insert_ne by congruence. now rewrite lookup_insert_eq.
  - now rewrite lookup_insert_eq.
Qed.

Lemma brake_motor_fixes_braked (pin1 pin2 : Z) (g : gmap Z pin_state) :
  channel_braked pin1 pin2 g -> run_gpio (brake_motor pin1 pin2) g = g.
Proof.
  intros [H1 H2]. rewrite run_brake_motor.
  rewrite (insert_id g pin1 braked H1). now apply insert_id.
Qed.

Lemma flush_loop_empty {A} (fuel : nat) (q : PyQueue.t A) :
  PyQueue.empty q = true -> PyQueue.flush_loop fuel q = q.
Proof. intros H. destruct fuel as [| n]; cbn; [reflexivity | now rewrite H]. Qed.

(** C8. Braking and stopping are idempotent.
    - [brake_motor] on a channel that is already braked leaves the pin
      table as it is, and braking twice equals braking once, for any pins
      and any pin table; [stop_mouth] is the instance for the mouth pins.
    - [move_head] with a state other than ["on"] brakes the head pins and
      clears [head_out]; doing it again changes neither.
    - [stop_playback] on an empty queue leaves the queue empty with its
      task counter unchanged, sets the done event, and a second call
      changes nothing more.
    None of these has a raising path: the flush loop swallows [Empty] and
    [ValueError]. *)
Theorem brake_and_stop_idempotent :
  (forall (pin1 pin2 : Z) (g : gmap Z pin_state),
      (channel_braked pin1 pin2 g -> run_gpio (brake_motor pin1 pin2) g = g)
      /\ run_gpio (brake_motor pin1 pin2) (run_gpio (brake_motor pin1 pin2) g)
         = run_gpio (brake_motor pin1 pin2) g)
  /\ (forall g : gmap Z pin_state,
        run_gpio stop_mouth (run_gpio stop_mouth g) = run_gpio stop_mouth g)
  /\ (forall (head_out : bool) (g : gmap Z pin_state),
        let r1 := move_head "off" head_out in
        let r2 := move_head "off" (fst r1) in
        fst r1 = false /\ fst r2 = fst r1 /\ snd r2 = snd r1
        /\ run_gpio (snd r2) (run_gpio (snd r1) g) = run_gpio (snd r1) g)
  /\ (forall pm : Playback.AudioPlaybackManager,
        PyQueue.empty (Playback.playback_queue pm) = true ->
        Playback.playback_queue (Playback.stop_playback pm) = Playback.playback_queue pm
        /\ Playback.playback_done_event (Playback.stop_playback pm) = true
        /\ Playback.stop_playback (Playback.stop_playback pm) = Playback.stop_playback pm).
Proof.
  split; [| split; [| split]].
  - intros pin1 pin2 g. split.
    + apply brake_motor_fixes_braked.
    + apply brake_motor_fixes_braked, brake_motor_brakes.
  - intros g. unfold stop_mouth.
    apply brake_motor_fixes_braked, brake_motor_brakes.
  - intros head_out g. cbn.
    repeat split. apply brake_motor_fixes_braked, brake_motor_brakes.
  - intros pm Hempty.
    assert (Hq : PyQueue.flush (Playback.playback_queue pm) = Playback.playback_queue pm).
    { unfold PyQueue.flush. now apply flush_loop_empty. }
    unfold Playback.stop_playback. cbn. rewrite !Hq.
    repeat split.
Qed.

Lemma brake_and_stop_idempotent_witness :
  let pm := Playback.init 0 in
  Playback.playback_queue (Playback.stop_playback pm) = Playback.playback_queue pm
  /\ Playback.playback_done_event (Playback.stop_playback pm) = true
  /\ Playback.stop_playback (Playback.stop_playback pm) = Playback.stop_playback pm.
Proof.
  apply (proj2 (proj2 (proj2 brake_and_stop_idempotent)) (Playback.init 0)).
  reflexivity.
Defined.

End ActuationSpec.

(** ** Waiting for the playback queue to drain *)

Module DrainSpec.
Import Playback.











(** The watermark wait entered with one task pending, without any flush:
    [already_pending] is 1, the clip adds one chunk, and as soon as the
    worker has handled the older item the loop condition
    [unfinished_tasks > already_pending] is false, while the clip's chunk
    is still in the queue. *)
Lemma watermark_wait_returns_early :
  let a := RawItem [1; 2] in
  let clip := [[3; 4]] in
  exists sa s0 s1 : sys,
    run [l_put a] sys_init = Some sa
    /\ run (enqueue_wav_to_playback clip) sa = Some s0
    /\ run [l_get; l_done] s0 = Some s1
    /\ watermark_returns (PyQueue.unfinished_tasks (q sa)) s1 = true
    /\ played s1 = [a]
    /\ PyQueue.items (q s1) = [RawItem [3; 4]].
Proof.
  intros a clip.
  exists (Sys (PyQueue.Mk [a] 1) None true [a] []),
         (Sys (PyQueue.Mk [a; RawItem [3; 4]] 2) None true [a; RawItem [3; 4]] []),
         (Sys (PyQueue.Mk [RawItem [3; 4]] 1) None true [a; RawItem [3; 4]] [a]).
  repeat split.
Qed.

End DrainSpec.

(** ** Tail flaps on the beat *)

Module BeatSpec.
Import Py Playback.
Local Open Scope Q_scope.

(** With both globals bound, a chunk that reaches the boundary flaps the
    tail once exactly when the peak is above the literal 1500 and
    [head_out] is false; it then zeroes the peak and moves the boundary
    by one beat length.  No other threshold enters the decision. *)
Lemma beat_tail_sync_on_boundary (third : bool) (now rms_drums start : Q)
    (ho : bool) (wd : world) :
  song_start_time wd = Some start ->
  head_out wd = Some ho ->
  next_beat_time (loc wd)
    <= (now - start) + compensate_tail_beats (mgr wd) * beat_length (mgr wd) ->
  beat_tail_sync third now rms_drums wd =
    ret (set_loc (Locals (head_move_active (loc wd)) (head_move_end_time (loc wd)) 0 0
                         (next_beat_time (loc wd) + beat_length (mgr wd))) wd,
         if Np.ltb 1500 (peak_now rms_drums (loc wd)) && negb ho
         then [move_tail_async third (2 # 10)] else []).
Proof.
  intros Hs Hh Hcross. unfold beat_tail_sync, read_song_start_time, read_head_out, peak_now.
  rewrite Hs, Hh. cbn [bind ret].
  destruct (Np.ltb (drums_peak (loc wd)) rms_drums);
    cbn [next_beat_time head_move_active head_move_end_time drums_peak];
    rewrite (NpFacts.leb_true _ _ Hcross);
    destruct (Np.ltb 1500 _); cbn; destruct ho; reflexivity.
Qed.

(** Before the boundary nothing is flapped and the boundary stays. *)
Lemma beat_tail_sync_before_boundary (third : bool) (now rms_drums start : Q)
    (wd : world) :
  song_start_time wd = Some start ->
  (now - start) + compensate_tail_beats (mgr wd) * beat_length (mgr wd)
    < next_beat_time (loc wd) ->
  exists w : worker_locals,
    beat_tail_sync third now rms_drums wd = ret (set_loc w wd, [])
    /\ next_beat_time w = next_beat_time (loc wd)
    /\ drums_peak w = peak_now rms_drums (loc wd).
Proof.
  intros Hs Hlt. unfold beat_tail_sync, read_song_start_time, peak_now.
  rewrite Hs. cbn [bind ret].
  destruct (Np.ltb (drums_peak (loc wd)) rms_drums);
    cbn [next_beat_time]; rewrite (NpFacts.leb_false _ _ Hlt);
    eexists; repeat split.
Qed.

(** With [head_out] never assigned, a peak above 1500 at a boundary
    raises [NameError] instead of flapping. *)
Lemma beat_tail_sync_unbound (third : bool) (now rms_drums start : Q) (wd : world) :
  song_start_time wd = Some start ->
  head_out wd = None ->
  next_beat_time (loc wd)
    <= (now - start) + compensate_tail_beats (mgr wd) * beat_length (mgr wd) ->
  1500 < peak_now rms_drums (loc wd) ->
  beat_tail_sync third now rms_drums wd = raise (NameError "head_out").
Proof.
  intros Hs Hh Hcross Hpeak. unfold beat_tail_sync, read_song_start_time, read_head_out.
  unfold peak_now in Hpeak.
  rewrite Hs, Hh. cbn [bind ret].
  destruct (Np.ltb (drums_peak (loc wd)) rms_drums);
    cbn [next_beat_time head_move_active head_move_end_time drums_peak] in *;
    rewrite (NpFacts.leb_true _ _ Hcross), (NpFacts.ltb_true _ _ Hpeak);
    reflexivity.
Qed.

(** C3 (the code at the failing input). First chunk of a song without
    head moves, drums level 2000: the beat boundary is reached, the peak
    is above 1500, the head has never been extended, and the iteration
    raises [NameError] on [head_out]; no tail flap is issued, the peak is
    not reset and the boundary is not advanced. *)
Theorem first_beat_raises_name_error :
  head_move_queue (mgr first_chunk_world) = []
  /\ head_out first_chunk_world = None
  /\ worker_song_iteration true 40 (1005 # 100) (1005 # 100) 0 (1010 # 100)
       [0; 0]%Z [0; 0]%Z 2000 first_chunk_world
     = raise (NameError "head_out").
Proof. repeat split. Qed.

End BeatSpec.

(** ** Song metadata defaults *)

Module MetadataSpec.
Import Py Audio.

Lemma metadata_defaults_bpm : metadata_defaults !! "bpm" = Some PNone.
Proof. reflexivity. Qed.

(** The other defaults are read back as written. *)
Lemma metadata_defaults_rest :
  dict_get metadata_defaults "gain" (PFloat 1) = PFloat 1
  /\ dict_get metadata_defaults "tail_threshold" (PInt 1500) = PInt 1500
  /\ dict_get metadata_defaults "compensate_tail" (PFloat 0) = PFloat 0
  /\ dict_get metadata_defaults "half_tempo_tail_flap" (PBool false) = PBool false
  /\ dict_get metadata_defaults "head_moves" (PPairs []) = PPairs [].
Proof. repeat split. Qed.

(** C4 (the code at the failing input). Without a metadata file,
    [load_metadata] returns its initial dict, in which ["bpm"] is bound
    to [None]; [metadata.get("bpm", 120)] therefore yields [None], not
    120, and [60.0 / BPM] raises [TypeError]: no beat length is set and
    [play_song] does not get as far as starting playback. *)
Theorem play_song_without_metadata_raises (float : list ascii -> option Q)
    (now : Q) (am : audio_module) (wd : Playback.world) :
  load_metadata float None = ret metadata_defaults
  /\ dict_get metadata_defaults "bpm" (PInt 120) = PNone
  /\ play_song_setup float now None am wd = raise TypeError.
Proof. repeat split. Qed.

(** With a file that only sets the tempo the same prologue goes
    through, and the beat length lands in the module binding
    [audio.beat_length]. *)
Lemma load_line_bpm (float : list ascii -> option Q) (x : Q)
    (value : string) (metadata : gmap string pyval) :
  float (strip (list_ascii_of_string value)) = Some x ->
  split_once "=" (strip (list_ascii_of_string ("bpm=" +:+ value)))
    = Some (list_ascii_of_string "bpm", list_ascii_of_string value) ->
  load_line float metadata ("bpm=" +:+ value) = ret (<["bpm" := PFloat x]> metadata).
Proof.
  intros Hf Hs. unfold load_line. rewrite Hs.
  change (string_of_list_ascii (list_ascii_of_string "bpm")) with "bpm".
  cbn [String.eqb Ascii.eqb Bool.eqb orb].
  unfold to_float. rewrite Hf. reflexivity.
Qed.

Lemma play_song_with_bpm (float : list ascii -> option Q)
    (now : Q) (am : audio_module) (wd : Playback.world) :
  float (list_ascii_of_string "120") = Some 120%Q ->
  exists st am' wd',
    play_song_setup float now (Some ["bpm=120"]) am wd = ret (st, am', wd')
    /\ beat_length am' = (60 / 120)%Q
    /\ song_mode am' = true
    /\ Playback.beat_length (Playback.mgr wd') = Playback.beat_length (Playback.mgr wd).
Proof.
  intros Hf. unfold play_song_setup, load_metadata, load_lines.
  rewrite (load_line_bpm float 120%Q "120"); [| exact Hf | reflexivity].
  cbn [bind ret].
  assert (Hb : dict_get (<["bpm" := PFloat 120]> metadata_defaults) "bpm" (PInt 120)
               = PFloat 120) by reflexivity.
  rewrite Hb.
  assert (Hh : truthy (default PNone
                  ((<["bpm" := PFloat 120]> metadata_defaults) !! "half_tempo_tail_flap"))
               = false) by reflexivity.
  rewrite Hh.
  unfold float_div. cbn [Qeq_bool bind ret].

  eexists _, _, _. split; [reflexivity |]. repeat split.
Qed.

End MetadataSpec.

(** ** Response history rotation *)

Module HistorySpec.
Import Playback.

Lemma response_path_12 : response_path 1 <> response_path 2.
Proof. apply String.eqb_neq. reflexivity. Qed.

Lemma response_path_13 : response_path 1 <> response_path 3.
Proof. apply String.eqb_neq. reflexivity. Qed.

Lemma response_path_23 : response_path 2 <> response_path 3.
Proof. apply String.eqb_neq. reflexivity. Qed.

(** The rotation written out on the three slots. *)
Lemma rotate_unfold (audio_bytes : list Z) (fs : gmap string wav_file) :
  rotate_and_save_response_audio audio_bytes fs =
    let fs2 :=
      if bool_decide (is_Some (fs !! response_path 2))
      then os_replace (response_path 2) (response_path 3) fs else fs in
    let fs1 :=
      if bool_decide (is_Some (fs2 !! response_path 1))
      then os_replace (response_path 1) (response_path 2) fs2 else fs2 in
    <[response_path 1 := Wav DEFAULT_CHANNELS 2 DEFAULT_SAMPLE_RATE audio_bytes]> fs1.
Proof. reflexivity. Qed.

(** Resolve a lookup through inserts and deletes at other keys. *)
Ltac fs_simpl :=
  repeat first [ rewrite lookup_insert_eq
               | rewrite lookup_delete_eq
               | rewrite lookup_insert_ne by congruence
               | rewrite lookup_delete_ne by congruence ].

Lemma rotate_lookup (audio_bytes : list Z) (fs : gmap string wav_file) :
  let fs' := rotate_and_save_response_audio audio_bytes fs in
  fs' !! response_path 1 = Some (Wav DEFAULT_CHANNELS 2 DEFAULT_SAMPLE_RATE audio_bytes)
  /\ fs' !! response_path 2 = fs !! response_path 1
  /\ fs' !! response_path 3 =
       match fs !! response_path 2 with
       | Some f => Some f
       | None => fs !! response_path 3
       end
  /\ (forall p : string, p ∉ history_files -> fs' !! p = fs !! p).
Proof.
  cbv zeta. rewrite rotate_unfold. cbv zeta. unfold os_replace, history_files.
  generalize response_path_12 response_path_13 response_path_23.
  generalize (response_path 1) (response_path 2) (response_path 3).
  intros a b c H12 H13 H23.
  assert (Hout : forall p : string, p ∉ ({[a; b; c]} : gset string) ->
                 p <> a /\ p <> b /\ p <> c).
  { intros p Hp. rewrite !not_elem_of_union, !not_elem_of_singleton in Hp. tauto. }
  destruct (fs !! b) as [f2 |] eqn:Hb.
  - rewrite (bool_decide_eq_true_2 (is_Some (Some f2))) by eauto.
    fs_simpl.
    destruct (fs !! a) as [f1 |] eqn:Ha.
    + rewrite (bool_decide_eq_true_2 (is_Some (Some f1))) by eauto.
      repeat split; fs_simpl; try done.
      intros p Hp. destruct (Hout p Hp) as (? & ? & ?). by fs_simpl.
    + rewrite (bool_decide_eq_false_2 (is_Some None)) by (intros [? ?]; discriminate).
      repeat split; fs_simpl; try done.
      intros p Hp. destruct (Hout p Hp) as (? & ? & ?). by fs_simpl.
  - rewrite (bool_decide_eq_false_2 (is_Some None)) by (intros [? ?]; discriminate).
    destruct (fs !! a) as [f1 |] eqn:Ha.
    + rewrite (bool_decide_eq_true_2 (is_Some (Some f1))) by eauto.
      repeat split; fs_simpl; try done.
      intros p Hp. destruct (Hout p Hp) as (? & ? & ?). by fs_simpl.
    + rewrite (bool_decide_eq_false_2 (is_Some None)) by (intros [? ?]; discriminate).
      repeat split; fs_simpl; try done.
      intros p Hp. destruct (Hout p Hp) as (? & ? & ?). by fs_simpl.
Qed.

Lemma rotate_dom (audio_bytes : list Z) (fs : gmap string wav_file) :
  dom fs ⊆ history_files ->
  dom (rotate_and_save_response_audio audio_bytes fs) ⊆ history_files.
Proof.
  intros Hdom p Hp.
  destruct (decide (p ∈ history_files)) as [Hin | Hout]; [exact Hin |].
  apply Hdom. apply elem_of_dom. apply elem_of_dom in Hp.
  destruct (rotate_lookup audio_bytes fs) as (_ & _ & _ & Hother).
  now rewrite <- (Hother p Hout).
Qed.

Lemma rotate_all_dom (calls : list (list Z)) (fs : gmap string wav_file) :
  dom fs ⊆ history_files -> dom (rotate_all calls fs) ⊆ history_files.
Proof.
  revert fs. induction calls as [| audio_bytes calls IH]; intros fs Hdom; cbn.
  - exact Hdom.
  - apply IH. now apply rotate_dom.
Qed.

Lemma history_files_size : size history_files = 3%nat.
Proof.
  unfold history_files.
  rewrite !size_union, !size_singleton; [reflexivity | |].
  - apply disjoint_singleton_l, not_elem_of_singleton, response_path_12.
  - apply disjoint_union_l. split.
    + apply disjoint_singleton_l, not_elem_of_singleton, response_path_13.
    + apply disjoint_singleton_l, not_elem_of_singleton, response_path_23.
Qed.

(** C10. A call of [rotate_and_save_response_audio] leaves in
    [response-1.wav] a mono 16-bit 24 kHz file holding the new audio; the
    previous [response-1.wav], if any, is now [response-2.wav] (and there
    is no [response-2.wav] otherwise); the previous [response-2.wav], if
    any, is now [response-3.wav] (otherwise [response-3.wav] is left as it
    was); no other path of the file system changes.  Hence a history
    directory that holds only these three names keeps holding at most
    three files through any sequence of calls. *)
Theorem response_history_rotation (audio_bytes : list Z)
    (fs : gmap string wav_file) (calls : list (list Z)) :
  let fs' := rotate_and_save_response_audio audio_bytes fs in
  fs' !! response_path 1 = Some (Wav DEFAULT_CHANNELS 2 DEFAULT_SAMPLE_RATE audio_bytes)
  /\ fs' !! response_path 2 = fs !! response_path 1
  /\ fs' !! response_path 3 =
       match fs !! response_path 2 with
       | Some f => Some f
       | None => fs !! response_path 3
       end
  /\ (forall p : string, p ∉ history_files -> fs' !! p = fs !! p)
  /\ (dom fs ⊆ history_files ->
      dom (rotate_all calls fs) ⊆ history_files
      /\ (size (rotate_all calls fs) <= 3)%nat).
Proof.
  cbv zeta.
  destruct (rotate_lookup audio_bytes fs) as (H1 & H2 & H3 & H4).
  repeat split; try assumption.
  - now apply rotate_all_dom.
  - rewrite <- size_dom, <- history_files_size.
    apply subseteq_size. now apply rotate_all_dom.
Qed.

Lemma response_history_rotation_witness :
  dom (rotate_all [[1; 2]; [3]; [4]; [5; 6]]%Z (∅ : gmap string wav_file)) ⊆ history_files
  /\ (size (rotate_all [[1; 2]; [3]; [4]; [5; 6]]%Z (∅ : gmap string wav_file)) <= 3)%nat.
Proof.
  apply (response_history_rotation [] ∅ [[1; 2]; [3]; [4]; [5; 6]]%Z).
  rewrite dom_empty_L. apply empty_subseteq.
Defined.

End HistorySpec.

(** ** Follow-up restart and personality updates *)

Module SessionSpec.
Import Py Session.

Lemma lstrip_head (s s' : list ascii) (c : ascii) :
  lstrip s = c :: s' -> isspace c = false.
Proof.
  induction s as [| d s IH]; cbn; [discriminate |].
  destruct (isspace d) eqn:Hd; [exact IH |].
  intros H. injection H as <- _. exact Hd.
Qed.

Lemma rstrip_last (s s' : list ascii) (c : ascii) :
  rstrip s = s' ++ [c] -> isspace c = false.
Proof.
  unfold rstrip. intros H.
  apply (f_equal (@rev ascii)) in H.
  rewrite rev_involutive, rev_app_distr in H. cbn in H.
  eapply lstrip_head. exact H.
Qed.

(** A stripped string does not end in whitespace. *)
Lemma strip_last (s s' : list ascii) (c : ascii) :
  strip s = s' ++ [c] -> isspace c = false.
Proof. unfold strip. apply rstrip_last. Qed.

(** What the regular expression finds. *)
Lemma re_search_followup_spec (s : list ascii) :
  re_search_followup s = true <->
  exists (pre : list ascii) (c : ascii) (rest : list ascii),
    s = pre ++ c :: "?"%char :: rest
    /\ isalpha_ascii c = true /\ forallb isspace rest = true.
Proof.
  induction s as [| c s IH].
  - cbn. split; [discriminate |].
    intros (pre & c & rest & H & _). destruct pre; discriminate H.
  - cbn [re_search_followup]. destruct s as [| d rest].
    + split; [discriminate |].
      intros (pre & c' & rest & H & _).
      destruct pre as [| ? [| ? ?]]; discriminate H.
    + rewrite orb_true_iff, !andb_true_iff, IH. split.
      * intros [[[Hc Hd] Hr] | (pre & c' & rest' & H & Hc & Hr)].
        -- apply Ascii.eqb_eq in Hd. subst d. exists [], c, rest. auto.
        -- exists (c :: pre), c', rest'. rewrite H. auto.
      * intros (pre & c' & rest' & H & Hc & Hr).
        destruct pre as [| p pre].
        -- cbn in H. injection H as -> -> ->. left.
           rewrite Ascii.eqb_refl. auto.
        -- cbn in H. injection H as -> H. right. exists pre, c', rest'. auto.
Qed.

(** On a stripped transcript the regular expression matches exactly when
    the last two characters are a letter and a question mark. *)
Lemma followup_detected (text : string) :
  re_search_followup (strip (list_ascii_of_string text)) = true
  <-> ends_in_letter_question_mark text.
Proof.
  unfold ends_in_letter_question_mark. rewrite re_search_followup_spec. split.
  - intros (pre & c & rest & H & Hc & Hr).
    destruct rest as [| r0 rest0]; [exists pre, c; auto |].
    exfalso.
    destruct (@exists_last _ (r0 :: rest0)) as (rest' & z & Hz); [discriminate |].
    rewrite Hz in *.
    rewrite forallb_app in Hr. apply andb_prop in Hr as [_ Hz'].
    cbn in Hz'. rewrite andb_true_r in Hz'.
    change (c :: "?"%char :: rest' ++ [z])
      with ([c; "?"%char] ++ rest' ++ [z]) in H.
    rewrite !app_assoc in H. apply strip_last in H. congruence.
  - intros (pre & c & H & Hc). exists pre, c, []. auto.
Qed.

(** C5 (amended). After a turn that ends with the session still active,
    [post_response_handling] calls [start()] exactly once, and does
    nothing else, if and only if the configured run mode is falsy, the
    stripped transcript ends with an ASCII letter directly followed by a
    question mark, and the user spoke after the assistant's last
    utterance.  In every other case it does not restart: it publishes the
    idle state, stops the motors and closes the connection if one is
    open. *)
Theorem followup_restart_rule (s : BillySession) :
  session_active s = true ->
  let followup :=
    truthy (run_mode s) = false
    /\ ends_in_letter_question_mark (full_response_text s)
    /\ user_spoke_after_assistant s = true in
  let r := post_response_handling s in
  (followup -> r = (s, [start]))
  /\ (~ followup ->
      snd r = [mqtt_publish "billy/state" "idle"; stop_all_motors]
                ++ (if ws_client s then [ws_disconnect] else [])
      /\ ws_client (fst r) = false
      /\ ~ In start (snd r)).
Proof.
  intros Hact followup r. subst r followup. unfold post_response_handling.
  rewrite Hact. cbn [negb].
  pose proof (followup_detected (full_response_text s)) as Hre.
  split.
  - intros (Hmode & Htext & Hspoke).
    apply Hre in Htext. now rewrite Hmode, Htext, Hspoke.
  - intros Hno.
    destruct (negb (truthy (run_mode s))
              && (re_search_followup (strip (list_ascii_of_string (full_response_text s)))
                  && user_spoke_after_assistant s)) eqn:Hc.
    + exfalso. apply Hno.
      apply andb_prop in Hc as [Hm Hc]. apply andb_prop in Hc as [Ht Hu].
      apply negb_true_iff in Hm. apply Hre in Ht. auto.
    + unfold end_session, close_connection.
      destruct (ws_client s) eqn:Hws; cbn; rewrite ?Hws; repeat split;
        intros Hin; cbn in Hin; intuition congruence.
Qed.

Lemma followup_restart_rule_witness :
  let s := Session_ true "Shall I sing?" 0 true true true PNone in
  post_response_handling s = (s, [start]).
Proof.
  intros s.
  apply (proj1 (followup_restart_rule s eq_refl)).
  split; [reflexivity | split; [| reflexivity]].
  exists (list_ascii_of_string "Shall I sin"), "g"%char. split; reflexivity.
Defined.

(** A transcript that ends in a question mark after a digit, with the
    user having spoken and no run mode set: no restart, the session is
    closed. *)
Lemma followup_digit_counterexample :
  let s := Session_ true "Is it 5?" 0 true true true PNone in
  session_active s = true
  /\ ends_in_question_mark (full_response_text s) = true
  /\ user_spoke_after_assistant s = true
  /\ snd (post_response_handling s)
     = [mqtt_publish "billy/state" "idle"; stop_all_motors; ws_disconnect]
  /\ ~ In start (snd (post_response_handling s)).
Proof.
  cbv zeta. repeat split.
  intros Hin. vm_compute in Hin. intuition congruence.
Qed.










End SessionSpec.

(** ** More on the motor helpers *)

Module ActuationMore.
Import Movements ActuationSpec.

(** Lookups through inserts at the concrete pin numbers. *)
Ltac pins :=
  unfold MOUTH_IN1, MOUTH_IN2, HEAD_IN1, HEAD_IN2, TAIL_IN1, TAIL_IN2 in *;
  unfold pin_of;
  repeat first [ rewrite lookup_insert_eq
               | rewrite lookup_insert_ne by (congruence || discriminate) ];
  cbn.

Lemma run_gpio_app (cs1 cs2 : list gpio_call) (g : gmap Z pin_state) :
  run_gpio (cs1 ++ cs2) g = run_gpio cs2 (run_gpio cs1 g).
Proof. unfold run_gpio. apply fold_left_app. Qed.

(** The pin a call addresses, if any. *)
Lemma gpio_step_other (c : gpio_call) (g : gmap Z pin_state) (pin : Z) :
  match c with
  | tx_pwm p _ _ | gpio_write p _ => p <> pin
  | sleep _ => True
  end ->
  gpio_step g c !! pin = g !! pin.
Proof.
  destruct c as [p f d | p l | t]; cbn; intros H; [| | reflexivity];
    now rewrite lookup_insert_ne.
Qed.

Lemma run_motor_brake_table (pwm_pin low_pin speed : Z) (duration : Q)
    (g : gmap Z pin_state) :
  run_gpio (run_motor pwm_pin low_pin speed duration true) g
  = <[low_pin := braked]> (<[pwm_pin := braked]> g).
Proof.
  unfold run_motor. rewrite run_gpio_app, run_brake_motor.
  unfold run_gpio. cbn [fold_left gpio_step].
  apply map_eq. intros k.
  destruct (decide (k = low_pin)) as [-> | Hl]; [now pin_simpl |].
  destruct (decide (k = pwm_pin)) as [-> | Hp]; now pin_simpl.
Qed.

(** X1. A timed run with auto-brake ends in the pin table a plain brake
    gives: both pins of the channel braked, all other pins as before. *)
Theorem run_motor_with_brake_ends_braked (pwm_pin low_pin speed : Z) (duration : Q)
    (g : gmap Z pin_state) :
  run_gpio (run_motor pwm_pin low_pin speed duration true) g
  = run_gpio (brake_motor pwm_pin low_pin) g
  /\ channel_braked pwm_pin low_pin
       (run_gpio (run_motor pwm_pin low_pin speed duration true) g)
  /\ forall pin : Z, pin <> pwm_pin -> pin <> low_pin ->
       run_gpio (run_motor pwm_pin low_pin speed duration true) g !! pin = g !! pin.
Proof.
  pose proof (run_motor_brake_table pwm_pin low_pin speed duration g) as Heq.
  split; [| split].
  - now rewrite Heq, run_brake_motor.
  - rewrite Heq, <- run_brake_motor. apply brake_motor_brakes.
  - intros pin Hp Hl. rewrite Heq. now pin_simpl.
Qed.

(** X2. A timed run without auto-brake leaves the channel energised: the PWM
    pin keeps the requested duty at the motor frequency and the other pin
    is low, until something brakes the channel. *)
Theorem run_motor_without_brake_holds (pwm_pin low_pin speed : Z) (duration : Q)
    (g : gmap Z pin_state) :
  pwm_pin <> low_pin ->
  let g' := run_gpio (run_motor pwm_pin low_pin speed duration false) g in
  pwm_freq (pin_of g' pwm_pin) = FREQ
  /\ pwm_duty (pin_of g' pwm_pin) = speed
  /\ level (pin_of g' low_pin) = 0
  /\ forall pin : Z, pin <> pwm_pin -> pin <> low_pin -> g' !! pin = g !! pin.
Proof.
  intros Hne g'. subst g'. unfold run_motor, run_gpio.
  cbn [app fold_left gpio_step].
  repeat split; try (now pin_simpl).
  intros pin Hp Hl. now pin_simpl.
Qed.

Lemma run_motor_without_brake_holds_witness :
  let g0 : gmap Z pin_state := ∅ in
  let g' := run_gpio (move_mouth 60 (3 # 100) false) g0 in
  pwm_freq (pin_of g' MOUTH_IN1) = FREQ
  /\ pwm_duty (pin_of g' MOUTH_IN1) = 60
  /\ level (pin_of g' MOUTH_IN2) = 0
  /\ forall pin : Z, pin <> MOUTH_IN1 -> pin <> MOUTH_IN2 -> g' !! pin = g0 !! pin.
Proof.
  apply (run_motor_without_brake_holds MOUTH_IN1 MOUTH_IN2 60 (3 # 100) ∅).
  discriminate.
Defined.

(** X3. A tail flap and the head.  With the third motor the flap only ever
    touches the two tail pins.  Without it the flap runs on the head pins
    in reverse and ends by braking them, so a head that [move_head("on")]
    was holding extended at full duty is released by the flap. *)
Theorem move_tail_and_the_head (duration : Q) (g : gmap Z pin_state) :
  (forall pin : Z, pin <> TAIL_IN1 -> pin <> TAIL_IN2 ->
     run_gpio (move_tail true duration) g !! pin = g !! pin)
  /\ (forall pin : Z, pin <> HEAD_IN1 -> pin <> HEAD_IN2 ->
       run_gpio (move_tail false duration) g !! pin = g !! pin)
  /\ (let held := run_gpio (snd (move_head "on" false)) g in
      fst (move_head "on" false) = true
      /\ pwm_duty (pin_of held HEAD_IN1) = 100
      /\ channel_braked HEAD_IN1 HEAD_IN2 (run_gpio (move_tail false duration) held)).
Proof.
  split; [| split].
  - intros pin H1 H2. unfold move_tail. rewrite run_motor_brake_table. now pin_simpl.
  - intros pin H1 H2. unfold move_tail. rewrite run_motor_brake_table. now pin_simpl.
  - cbv zeta. split; [reflexivity |]. split.
    + change (snd (move_head "on" false)) with _move_head_on.
      unfold run_gpio, _move_head_on. cbn [fold_left gpio_step]. now pins.
    + unfold move_tail. rewrite run_motor_brake_table.
      split; now pins.
Qed.

Lemma run_gpio_other (cs : list gpio_call) (g : gmap Z pin_state) (pin : Z) :
  Forall (fun c => match c with
                   | tx_pwm p _ _ | gpio_write p _ => p <> pin
                   | sleep _ => True
                   end) cs ->
  run_gpio cs g !! pin = g !! pin.
Proof.
  revert g. induction cs as [| c cs IH]; intros g Hall; [reflexivity |].
  inversion Hall as [| ? ? Hc Hcs]; subst.
  change (run_gpio (c :: cs) g) with (run_gpio cs (gpio_step g c)).
  rewrite IH by exact Hcs. now apply gpio_step_other.
Qed.

(** A call that cannot energise [pin]: it addresses another pin or
    writes a zero. *)
Lemma gpio_step_keeps_zero (c : gpio_call) (g : gmap Z pin_state) (pin : Z) :
  match c with
  | tx_pwm p _ d => p <> pin \/ d = 0
  | gpio_write p l => p <> pin \/ l = 0
  | sleep _ => True
  end ->
  pwm_duty (pin_of g pin) = 0 /\ level (pin_of g pin) = 0 ->
  pwm_duty (pin_of (gpio_step g c) pin) = 0 /\ level (pin_of (gpio_step g c) pin) = 0.
Proof.
  intros Hc [Hd Hl]. destruct c as [p f d | p l | t]; cbn [gpio_step]; [| | auto].
  - destruct (decide (p = pin)) as [-> | Hne].
    + destruct Hc as [Hc | ->]; [congruence |]. unfold pin_of at 1 3.
      rewrite lookup_insert_eq. cbn. auto.
    + unfold pin_of at 1 3. rewrite lookup_insert_ne by exact Hne. auto.
  - destruct (decide (p = pin)) as [-> | Hne].
    + destruct Hc as [Hc | ->]; [congruence |]. unfold pin_of at 1 4.
      rewrite lookup_insert_eq. cbn. auto.
    + unfold pin_of at 1 4. rewrite lookup_insert_ne by exact Hne. auto.
Qed.

Lemma run_gpio_keeps_zero (cs : list gpio_call) (g : gmap Z pin_state) (pin : Z) :
  Forall (fun c => match c with
                   | tx_pwm p _ d => p <> pin \/ d = 0
                   | gpio_write p l => p <> pin \/ l = 0
                   | sleep _ => True
                   end) cs ->
  pwm_duty (pin_of g pin) = 0 /\ level (pin_of g pin) = 0 ->
  pwm_duty (pin_of (run_gpio cs g) pin) = 0 /\ level (pin_of (run_gpio cs g) pin) = 0.
Proof.
  revert g. induction cs as [| c cs IH]; intros g Hall Hz; [exact Hz |].
  inversion Hall as [| ? ? Hc Hcs]; subst.
  change (run_gpio (c :: cs) g) with (run_gpio cs (gpio_step g c)).
  apply IH; [exact Hcs |]. now apply gpio_step_keeps_zero.
Qed.

(** The closing loop of [stop_all_motors] over a list of pins. *)
Lemma zero_all_harmless (pins : list Z) (pin : Z) :
  Forall (fun c => match c with
                   | tx_pwm p _ d => p <> pin \/ d = 0
                   | gpio_write p l => p <> pin \/ l = 0
                   | sleep _ => True
                   end)
         (flat_map (fun p => [tx_pwm p FREQ 0; gpio_write p 0]) pins).
Proof.
  induction pins as [| p pins IH]; cbn; [constructor |].
  constructor; [now right |]. constructor; [now right | exact IH].
Qed.

Lemma zero_all_zeroes (pins : list Z) (g : gmap Z pin_state) (pin : Z) :
  In pin pins ->
  let g' := run_gpio (flat_map (fun p => [tx_pwm p FREQ 0; gpio_write p 0]) pins) g in
  pwm_duty (pin_of g' pin) = 0 /\ level (pin_of g' pin) = 0.
Proof.
  cbv zeta. revert g. induction pins as [| p pins IH]; intros g Hin; [destruct Hin |].
  cbn [flat_map]. rewrite run_gpio_app.
  destruct (decide (p = pin)) as [-> | Hne].
  - apply run_gpio_keeps_zero; [apply zero_all_harmless |].
    unfold run_gpio. cbn [fold_left gpio_step]. unfold pin_of.
    rewrite lookup_insert_eq. cbn. rewrite lookup_insert_eq. cbn. auto.
  - destruct Hin as [-> | Hin]; [congruence |]. now apply IH.
Qed.

(** X4. [stop_all_motors] clears [head_out] and leaves every motor pin of
    the variant with PWM duty 0 and level 0, whatever the pins held
    before; pins that are not motor pins keep their state. *)
Theorem stop_all_motors_zeroes_every_pin (USE_THIRD_MOTOR head_out : bool)
    (g : gmap Z pin_state) :
  let r := stop_all_motors USE_THIRD_MOTOR head_out in
  fst r = false
  /\ (forall pin : Z, In pin (motor_pins USE_THIRD_MOTOR) ->
       pwm_duty (pin_of (run_gpio (snd r) g) pin) = 0
       /\ level (pin_of (run_gpio (snd r) g) pin) = 0)
  /\ (forall pin : Z, ~ In pin (motor_pins true) ->
       run_gpio (snd r) g !! pin = g !! pin).
Proof.
  cbv zeta.
  assert (Hcalls : stop_all_motors USE_THIRD_MOTOR head_out
                   = (false,
                      brake_motor HEAD_IN1 HEAD_IN2
                        ++ flat_map (fun pin => [tx_pwm pin FREQ 0; gpio_write pin 0])
                                    (motor_pins USE_THIRD_MOTOR))) by reflexivity.
  rewrite Hcalls. cbn [fst snd]. split; [reflexivity |]. split.
  - intros pin Hin. rewrite run_gpio_app. now apply zero_all_zeroes.
  - intros pin Hout. apply run_gpio_other. apply Forall_app. split.
    + assert (pin <> HEAD_IN1 /\ pin <> HEAD_IN2) as [H1 H2]
        by (split; intros ->; apply Hout; cbn; tauto).
      unfold brake_motor. repeat constructor; congruence.
    + assert (Hsub : forall p, In p (motor_pins USE_THIRD_MOTOR) -> p <> pin).
      { intros p Hp ->. apply Hout. destruct USE_THIRD_MOTOR; [exact Hp |].
        unfold motor_pins in *. rewrite app_nil_r in Hp. apply in_or_app. now left. }
      revert Hsub. generalize (motor_pins USE_THIRD_MOTOR). intros pins Hsub.
      induction pins as [| p pins IH]; cbn; [constructor |].
      constructor; [apply Hsub; now left |].
      constructor; [apply Hsub; now left |].
      apply IH. intros q Hq. apply Hsub. now right.
Qed.

End ActuationMore.

(** ** More on the envelope follower *)

Module MouthSyncMore.
Import Movements.
Local Open Scope Q_scope.

Lemma slope_nonneg (x0 x1 y0 y1 : Q) :
  x0 < x1 -> y0 <= y1 -> 0 <= (y1 - y0) / (x1 - x0).
Proof. intros Hx Hy. apply Qle_shift_div_l; lra. Qed.

(** Interpolation stays between the table values ... *)
Lemma interp_bounds (x x0 x1 y0 y1 : Q) :
  x0 < x1 -> y0 <= y1 ->
  y0 <= Np.interp x x0 x1 y0 y1 /\ Np.interp x x0 x1 y0 y1 <= y1.
Proof.
  intros Hx Hy. unfold Np.interp, Np.leb.
  destruct (Qlt_le_dec x0 x) as [H0 | H0]; [| lra].
  destruct (Qlt_le_dec x x1) as [H1 | H1]; [| lra].
  pose proof (slope_nonneg x0 x1 y0 y1 Hx Hy) as Hs.
  set (k := (y1 - y0) / (x1 - x0)) in *.
  assert (Hk : k * (x1 - x0) == y1 - y0) by (unfold k; field; lra).
  split.
  - assert (0 <= (x - x0) * k) by (apply Qmult_le_0_compat; lra). lra.
  - assert ((x - x0) * k <= (x1 - x0) * k) by (apply Qmult_le_compat_r; lra). lra.
Qed.

(** ... and grows with its argument. *)
Lemma interp_mono (x x' x0 x1 y0 y1 : Q) :
  x0 < x1 -> y0 <= y1 -> x <= x' ->
  Np.interp x x0 x1 y0 y1 <= Np.interp x' x0 x1 y0 y1.
Proof.
  intros Hx Hy Hxx.
  pose proof (interp_bounds x x0 x1 y0 y1 Hx Hy) as [Hb1 Hb2].
  pose proof (interp_bounds x' x0 x1 y0 y1 Hx Hy) as [Hb1' Hb2'].
  unfold Np.interp, Np.leb in *.
  destruct (Qlt_le_dec x0 x) as [H0 | H0]; [| lra].
  destruct (Qlt_le_dec x0 x') as [H0' | H0']; [| lra].
  destruct (Qlt_le_dec x x1) as [H1 | H1];
    destruct (Qlt_le_dec x' x1) as [H1' | H1']; try lra.
  pose proof (slope_nonneg x0 x1 y0 y1 Hx Hy) as Hs.
  set (k := (y1 - y0) / (x1 - x0)) in *.
  assert ((x - x0) * k <= (x' - x0) * k) by (apply Qmult_le_compat_r; lra). lra.
Qed.

Lemma clip_bounds (x lo hi : Q) :
  lo <= hi -> lo <= Np.clip x lo hi /\ Np.clip x lo hi <= hi.
Proof.
  intros H. unfold Np.clip. split.
  - apply Q.min_glb; [apply Q.le_max_r | exact H].
  - apply Q.le_min_r.
Qed.

Lemma clip_mono (x x' lo hi : Q) : x <= x' -> Np.clip x lo hi <= Np.clip x' lo hi.
Proof.
  intros H. unfold Np.clip.
  apply Q.min_le_compat_r. apply Q.max_le_compat_r. exact H.
Qed.

Lemma int_nonneg (x : Q) : 0 <= x -> Np.int x = Qfloor x.
Proof. intros H. unfold Np.int. now rewrite NpFacts.ltb_false. Qed.

Lemma int_mono (x x' : Q) : 0 <= x -> x <= x' -> (Np.int x <= Np.int x')%Z.
Proof. intros H0 H. rewrite !int_nonneg by lra. now apply Qfloor_resp_le. Qed.

Lemma int_bounds (x : Q) (a b : Z) :
  0 <= inject_Z a -> inject_Z a <= x -> x <= inject_Z b -> (a <= Np.int x <= b)%Z.
Proof.
  intros Ha H1 H2. rewrite int_nonneg by lra. split.
  - rewrite <- (Qfloor_Z a). now apply Qfloor_resp_le.
  - rewrite <- (Qfloor_Z b). now apply Qfloor_resp_le.
Qed.

(** The speed and the duration in milliseconds the mapping gives for a
    smoothed RMS. *)
Lemma speed_bounds (rms : Q) :
  (25 <= Np.int (Np.clip (Np.interp (Np.clip (rms / 32768) 0 1)
                                    (5 # 1000) (15 # 100) 25 100) 25 100)
   <= 100)%Z.
Proof.
  apply int_bounds; [discriminate | |];
    apply clip_bounds; discriminate.
Qed.

Lemma duration_bounds (rms chunk_ms : Q) :
  let ms := Np.clip (Np.interp (Np.clip (rms / 32768) 0 1)
                               (5 # 1000) (15 # 100) 15 70) 15 chunk_ms in
  ms <= chunk_ms /\ ms <= 70 /\ Qmin 15 chunk_ms <= ms.
Proof.
  cbv zeta. unfold Np.clip at 1.
  destruct (interp_bounds (Np.clip (rms / 32768) 0 1) (5 # 1000) (15 # 100) 15 70)
    as [Hlo Hhi]; [reflexivity | discriminate |].
  split; [apply Q.le_min_r |]. split.
  - eapply Qle_trans; [apply Q.le_min_l |]. apply Q.max_lub; [exact Hhi | discriminate].
  - apply Q.min_le_compat_r. apply Q.le_max_r.
Qed.

(** X5. Whatever the chunk, the clock and the state, one call of
    [flap_from_pcm_chunk] makes no lgpio call, or the calls of one
    [stop_mouth], or the calls of one [move_mouth] without auto-brake.
    In the last case the speed is between 25 and 100 percent, the
    duration is at most [chunk_ms] and at most 70 ms and at least the
    smaller of 15 ms and [chunk_ms]; the flap instant is [now] and the
    open-mouth deadline is [now] plus the duration.  In the first two
    cases both timestamps are left alone. *)
Theorem flap_call_shapes (audio : list Q)
    (rms0 now threshold min_flap_gap chunk_ms : Q) (st : mouth_sync) :
  let r := flap_from_pcm_chunk audio rms0 now threshold min_flap_gap chunk_ms st in
  ((snd r = [] \/ snd r = stop_mouth)
   /\ _last_flap (fst r) = _last_flap st
   /\ _mouth_open_until (fst r) = _mouth_open_until st)
  \/ (exists (speed : Z) (d : Q),
        snd r = move_mouth speed d false
        /\ (25 <= speed <= 100)%Z
        /\ d * 1000 <= chunk_ms /\ d * 1000 <= 70 /\ Qmin 15 chunk_ms <= d * 1000
        /\ _last_flap (fst r) = now /\ _mouth_open_until (fst r) = now + d).
Proof.
  cbv zeta. unfold flap_from_pcm_chunk.
  destruct (Nat.eqb (length audio) 0); [left; auto |].
  cbn [_mouth_open_until _last_flap].
  destruct (Np.ltb _ _ && Np.leb _ _); [left; auto |].
  destruct (Np.leb _ _ || Np.ltb _ _); [left; auto |].
  right. set (rms := smooth rms0 (_last_rms st)).
  eexists _, _. split; [reflexivity |].
  split; [apply speed_bounds |].
  destruct (duration_bounds rms chunk_ms) as (H1 & H2 & H3).
  set (ms := Np.clip _ 15 chunk_ms) in *.
  assert (Hd : ms / 1000 * 1000 == ms) by field.
  cbn [fst snd _last_flap _mouth_open_until].
  rewrite Hd. repeat split; assumption.
Qed.

(** X6. Debounce.  A non-empty chunk that arrives less than
    [min_flap_gap] after the last flap, and is not silence on a closed
    mouth, causes no lgpio call however loud it is; only [_last_rms] is
    updated. *)
Theorem flap_debounced (audio : list Q)
    (rms0 now threshold min_flap_gap chunk_ms : Q) (st : mouth_sync) :
  audio <> [] ->
  now - _last_flap st < min_flap_gap ->
  threshold / 2 <= smooth rms0 (_last_rms st) \/ now < _mouth_open_until st ->
  flap_from_pcm_chunk audio rms0 now threshold min_flap_gap chunk_ms st
  = (MouthSync (_last_flap st) (_mouth_open_until st) (smooth rms0 (_last_rms st)), []).
Proof.
  intros Hne Hgap Hnot. unfold flap_from_pcm_chunk.
  destruct audio as [| a audio']; [congruence |].
  cbn [length Nat.eqb _mouth_open_until _last_flap].
  assert (Hfirst : Np.ltb (smooth rms0 (_last_rms st)) (threshold / 2)
                   && Np.leb (_mouth_open_until st) now = false).
  { destruct Hnot as [Hloud | Hopen].
    - now rewrite (NpFacts.ltb_false _ _ Hloud).
    - rewrite (NpFacts.leb_false _ _ Hopen). apply andb_false_r. }
  rewrite Hfirst, (NpFacts.ltb_true _ _ Hgap), orb_true_r. reflexivity.
Qed.

Lemma flap_debounced_witness :
  flap_from_pcm_chunk [9000; -9000] 9000 (105 # 100) 1500 (1 # 10) 40 (MouthSync 1 1 0)
  = (MouthSync 1 1 (smooth 9000 0), []).
Proof.
  apply (flap_debounced [9000; -9000] 9000 (105 # 100) 1500 (1 # 10) 40 (MouthSync 1 1 0)).
  - discriminate.
  - reflexivity.
  - left. discriminate.
Defined.

(** X7. The open-mouth window.  After a flap at instant [t], a silent chunk
    that arrives before the deadline the flap recorded leaves the motor
    alone; the first silent chunk at or after the deadline brakes the
    mouth. *)
Theorem open_window_defers_brake (audio1 audio2 : list Q)
    (rms1 rms2 t t' threshold min_flap_gap chunk_ms : Q) (st : mouth_sync) :
  audio1 <> [] -> audio2 <> [] ->
  0 <= threshold ->
  threshold < smooth rms1 (_last_rms st) ->
  min_flap_gap <= t - _last_flap st ->
  let r1 := flap_from_pcm_chunk audio1 rms1 t threshold min_flap_gap chunk_ms st in
  let r2 := flap_from_pcm_chunk audio2 rms2 t' threshold min_flap_gap chunk_ms (fst r1) in
  smooth rms2 (_last_rms (fst r1)) < threshold / 2 ->
  drive_calls (snd r1) = 1%nat
  /\ (t' < _mouth_open_until (fst r1) -> snd r2 = [])
  /\ (_mouth_open_until (fst r1) <= t' -> snd r2 = stop_mouth).
Proof.
  intros Hne1 Hne2 Hthr Hloud Hgap r1 r2 Hquiet.
  split; [| split].
  - subst r1. rewrite MouthSyncSpec.flap_loud_chunk by assumption. cbv zeta.
    cbn [snd]. apply MouthSyncSpec.move_mouth_one_drive.
    pose proof (speed_bounds (smooth rms1 (_last_rms st))). lia.
  - intros Hopen. subst r2. unfold flap_from_pcm_chunk at 1.
    destruct audio2 as [| a audio2']; [congruence |].
    cbn [length Nat.eqb _mouth_open_until _last_flap].
    rewrite (NpFacts.leb_false _ _ Hopen), andb_false_r.
    rewrite (NpFacts.leb_true (smooth rms2 (_last_rms (fst r1))) threshold).
    + reflexivity.
    + apply Qlt_le_weak. eapply Qlt_le_trans; [exact Hquiet |].
      apply Qle_shift_div_r; [reflexivity | lra].
  - intros Hclosed. subst r2. unfold flap_from_pcm_chunk at 1.
    destruct audio2 as [| a audio2']; [congruence |].
    cbn [length Nat.eqb _mouth_open_until _last_flap].
    now rewrite (NpFacts.ltb_true _ _ Hquiet), (NpFacts.leb_true _ _ Hclosed).
Qed.

Lemma open_window_defers_brake_witness :
  let r1 := flap_from_pcm_chunk [9000] 9000 1 1500 (1 # 10) 40 mouth_sync_init in
  let r2 := flap_from_pcm_chunk [10] 10 (102 # 100) 1500 (1 # 10) 40 (fst r1) in
  drive_calls (snd r1) = 1%nat
  /\ ((102 # 100) < _mouth_open_until (fst r1) -> snd r2 = [])
  /\ (_mouth_open_until (fst r1) <= (102 # 100) -> snd r2 = stop_mouth).
Proof.
  apply (open_window_defers_brake [9000] [10] 9000 10 1 (102 # 100) 1500 (1 # 10) 40
           mouth_sync_init).
  - discriminate.
  - discriminate.
  - discriminate.
  - reflexivity.
  - discriminate.
  - reflexivity.
Defined.

(** X8. A louder chunk never gets a weaker flap: with the same state and
    clock, if both chunks are above the threshold and the gap has
    elapsed, the chunk with the larger RMS is driven at no lower speed
    and for no shorter time. *)
Theorem louder_chunk_flaps_no_weaker (audio audio' : list Q)
    (rms0 rms0' now threshold min_flap_gap chunk_ms : Q) (st : mouth_sync) :
  audio <> [] -> audio' <> [] ->
  0 <= threshold ->
  threshold < rms0 -> rms0 <= rms0' ->
  min_flap_gap <= now - _last_flap st ->
  exists (speed speed' : Z) (d d' : Q),
    snd (flap_from_pcm_chunk audio rms0 now threshold min_flap_gap chunk_ms st)
      = move_mouth speed d false
    /\ snd (flap_from_pcm_chunk audio' rms0' now threshold min_flap_gap chunk_ms st)
       = move_mouth speed' d' false
    /\ (speed <= speed')%Z /\ d <= d'.
Proof.
  intros Hne Hne' Hthr Hloud Hle Hgap.
  pose proof (NpFacts.smooth_id rms0 (_last_rms st)) as Hs.
  pose proof (NpFacts.smooth_id rms0' (_last_rms st)) as Hs'.
  rewrite !MouthSyncSpec.flap_loud_chunk; try assumption; [| lra | lra].
  cbv zeta. cbn [snd]. eexists _, _, _, _.
  split; [reflexivity |]. split; [reflexivity |].
  assert (Hn : Np.clip (smooth rms0 (_last_rms st) / 32768) 0 1
               <= Np.clip (smooth rms0' (_last_rms st) / 32768) 0 1).
  { apply clip_mono. apply Qmult_le_compat_r; [lra | vm_compute; discriminate]. }
  split.
  - apply int_mono.
    + assert (H25 : 25 <= 100) by discriminate.
      eapply Qle_trans; [| apply (proj1 (clip_bounds _ 25 100 H25))]. discriminate.
    + apply clip_mono, interp_mono; [reflexivity | discriminate | exact Hn].
  - apply Qmult_le_compat_r; [| vm_compute; discriminate].
    apply clip_mono, interp_mono; [reflexivity | discriminate | exact Hn].
Qed.

Lemma louder_chunk_flaps_no_weaker_witness :
  exists (speed speed' : Z) (d d' : Q),
    snd (flap_from_pcm_chunk [2000] 2000 1 1500 (1 # 10) 40 mouth_sync_init)
      = move_mouth speed d false
    /\ snd (flap_from_pcm_chunk [4000] 4000 1 1500 (1 # 10) 40 mouth_sync_init)
       = move_mouth speed' d' false
    /\ (speed <= speed')%Z /\ d <= d'.
Proof.
  apply (louder_chunk_flaps_no_weaker [2000] [4000] 2000 4000 1 1500 (1 # 10) 40
           mouth_sync_init); discriminate || reflexivity.
Defined.

End MouthSyncMore.

(** ** More on the playback queue *)

Module QueueMore.
Import Py Playback PlaybackMore.

Lemma flush_loop_covered {A} (fuel : nat) (its : list A) (unf : nat) :
  (length its <= fuel)%nat -> (length its <= unf)%nat ->
  PyQueue.flush_loop fuel (PyQueue.Mk its unf) = PyQueue.Mk [] (unf - length its).
Proof.
  revert its unf. induction fuel as [| fuel IH]; intros its unf Hf Hu.
  - destruct its; [| cbn in Hf; lia]. cbn. now rewrite Nat.sub_0_r.
  - destruct its as [| x rest]; cbn.
    + now rewrite Nat.sub_0_r.
    + destruct unf as [| n]; [cbn in Hu; lia |]. cbn.
      apply IH; cbn in *; lia.
Qed.

(** X9. [stop_playback] on a queue whose task counter covers its items (as
    it does whenever the queue was only used through put, get and
    task_done): every queued item is discarded, the counter drops by the
    number of discarded items, the done event is set, and
    [is_billy_speaking] is false afterwards. *)
Theorem stop_playback_discards_pending (pm : AudioPlaybackManager) :
  (length (PyQueue.items (playback_queue pm))
   <= PyQueue.unfinished_tasks (playback_queue pm))%nat ->
  playback_queue (stop_playback pm)
  = PyQueue.Mk [] (PyQueue.unfinished_tasks (playback_queue pm)
                   - length (PyQueue.items (playback_queue pm)))
  /\ playback_done_event (stop_playback pm) = true
  /\ is_billy_speaking (stop_playback pm) = false
  /\ head_move_queue (stop_playback pm) = head_move_queue pm.
Proof.
  intros Hcov. destruct pm as [[its unf] hq ev lp sm bl ct]. cbn in *.
  unfold stop_playback, PyQueue.flush, is_billy_speaking. cbn.
  rewrite flush_loop_covered by lia. repeat split.
Qed.

Lemma stop_playback_discards_pending_witness :
  let pm := Manager (PyQueue.Mk [RawItem [1]; StopSignal] 3) [] false 0 false (1 # 2) 0 in
  playback_queue (stop_playback pm) = PyQueue.Mk [] (3 - 2)
  /\ playback_done_event (stop_playback pm) = true
  /\ is_billy_speaking (stop_playback pm) = false
  /\ head_move_queue (stop_playback pm) = head_move_queue pm.
Proof.
  intros pm. apply (stop_playback_discards_pending pm). cbn. lia.
Defined.

Lemma step_covered (l : label) (s s' : sys) :
  step l s = Some s' -> covered s -> covered s'.
Proof.
  intros Hstep Hc. destruct s as [[its unf] fl alive enq pl].
  unfold covered, holding in *. cbn in *.
  destruct l; cbn in Hstep.
  - injection Hstep as <-. cbn. rewrite !length_app in *. cbn. lia.
  - destruct alive, fl, its; try discriminate. injection Hstep as <-. cbn in *. lia.
  - destruct fl, unf; try discriminate. injection Hstep as <-. cbn in *. lia.
  - destruct fl; try discriminate. injection Hstep as <-. cbn in *. lia.
  - destruct alive; try discriminate. now injection Hstep as <-.
  - injection Hstep as <-. cbn. rewrite !length_app in *. cbn. lia.
  - destruct its, unf; try discriminate. injection Hstep as <-.
    cbn. rewrite !length_app in *. cbn in *. lia.
Qed.

Lemma run_covered (tr : list label) (s s' : sys) :
  run tr s = Some s' -> covered s -> covered s'.
Proof.
  revert s. induction tr as [| l tr IH]; intros s Hrun Hc; cbn in *.
  - now injection Hrun as <-.
  - destruct (step l s) as [s1 |] eqn:Hstep; [| discriminate].
    eapply IH; eauto using step_covered.
Qed.

Lemma covered_init : covered sys_init.
Proof. unfold covered. cbn. lia. Qed.

(** X10. In every state the threads can reach, by any interleaving including
    flushes, the task counter covers the items still to be handled.  So
    [task_done] never raises [ValueError]: not in the worker after an
    item, and not in a flush round after its [get_nowait]. *)
Theorem task_done_never_raises (tr : list label) (s : sys) :
  run tr sys_init = Some s ->
  covered s
  /\ (forall x, in_flight s = Some x -> is_Some (step l_done s))
  /\ (PyQueue.items (q s) <> [] -> is_Some (step l_flush s)).
Proof.
  intros Hrun. pose proof (run_covered tr sys_init s Hrun covered_init) as Hc.
  split; [exact Hc |].
  destruct s as [[its unf] fl alive enq pl]. unfold covered, holding in Hc. cbn in *.
  split.
  - intros x ->. cbn in *. destruct unf as [| n]; [lia |]. cbn. eauto.
  - intros Hne. destruct its as [| y rest]; [congruence |].
    rewrite length_app in Hc. cbn in *. destruct unf as [| n]; [lia |]. cbn. eauto.
Qed.

Lemma task_done_never_raises_witness :
  let s := Sys (PyQueue.Mk [RawItem [2]] 2) (Some (RawItem [1])) true
               [RawItem [1]; RawItem [2]] [] in
  covered s
  /\ (forall x, in_flight s = Some x -> is_Some (step l_done s))
  /\ (PyQueue.items (q s) <> [] -> is_Some (step l_flush s)).
Proof.
  intros s.
  apply (task_done_never_raises [l_put (RawItem [1]); l_put (RawItem [2]); l_get] s).
  reflexivity.
Defined.

Lemma step_handled_sublist (l : label) (s s' : sys) :
  step l s = Some s' ->
  (played s ++ holding s ++ PyQueue.items (q s)) `sublist_of` enqueued s ->
  (played s' ++ holding s' ++ PyQueue.items (q s')) `sublist_of` enqueued s'.
Proof.
  intros Hstep Hsub. destruct s as [[its unf] fl alive enq pl].
  unfold holding in *. cbn in *.
  destruct l; cbn in Hstep.
  - injection Hstep as <-. cbn. rewrite !app_assoc. apply sublist_app; [| done].
    now rewrite <- !app_assoc.
  - destruct alive, fl, its; try discriminate. now injection Hstep as <-.
  - destruct fl, unf; try discriminate. injection Hstep as <-. cbn in *.
    now rewrite <- app_assoc.
  - destruct fl as [x |]; try discriminate. injection Hstep as <-. cbn in *.
    etrans; [| exact Hsub]. apply sublist_app; [done |]. now apply sublist_cons.
  - destruct alive; try discriminate. now injection Hstep as <-.
  - injection Hstep as <-. cbn in *.
    etrans; [| exact Hsub]. apply sublist_app; [done |].
    rewrite app_nil_r. apply sublist_inserts_r. done.
  - destruct its as [| y rest], unf; try discriminate. injection Hstep as <-. cbn in *.
    etrans; [| exact Hsub]. apply sublist_app; [done |].
    apply sublist_app; [done |]. now apply sublist_cons.
Qed.

Lemma run_handled_sublist (tr : list label) (s s' : sys) :
  run tr s = Some s' ->
  (played s ++ holding s ++ PyQueue.items (q s)) `sublist_of` enqueued s ->
  (played s' ++ holding s' ++ PyQueue.items (q s')) `sublist_of` enqueued s'.
Proof.
  revert s. induction tr as [| l tr IH]; intros s Hrun Hsub; cbn in *.
  - now injection Hrun as <-.
  - destruct (step l s) as [s1 |] eqn:Hstep; [| discriminate].
    eapply IH; eauto using step_handled_sublist.
Qed.

(** X11. Whatever the interleaving (flushes, crashes and [queue.clear()]
    included), the items the worker has handled are a subsequence of the
    put history: nothing is handled that was not put, nothing is handled
    twice, and the put order is never inverted. *)
Theorem handled_in_put_order (tr : list label) (s : sys) :
  run tr sys_init = Some s -> played s `sublist_of` enqueued s.
Proof.
  intros Hrun.
  pose proof (run_handled_sublist tr sys_init s Hrun) as H.
  etrans; [| apply H; cbn; done].
  apply sublist_inserts_r. done.
Qed.

Lemma handled_in_put_order_witness :
  [RawItem [1]; RawItem [3]] `sublist_of` [RawItem [1]; RawItem [2]; RawItem [3]].
Proof.
  apply (handled_in_put_order
           [l_put (RawItem [1]); l_put (RawItem [2]); l_put (RawItem [3]);
            l_get; l_done; l_flush; l_get; l_done]
           (Sys (PyQueue.Mk [] 0) None true
                [RawItem [1]; RawItem [2]; RawItem [3]] [RawItem [1]; RawItem [3]])).
  reflexivity.
Defined.

Lemma step_in_debt (l : label) (s s' : sys) :
  step l s = Some s' -> in_debt s -> in_debt s'.
Proof.
  intros Hstep Hd. destruct s as [[its unf] fl alive enq pl].
  unfold in_debt, holding in *. cbn in *.
  destruct l; cbn in Hstep.
  - injection Hstep as <-. cbn. rewrite !length_app in *. cbn. lia.
  - destruct alive, fl, its; try discriminate. injection Hstep as <-. cbn in *. lia.
  - destruct fl, unf; try discriminate. injection Hstep as <-. cbn in *. lia.
  - destruct fl; try discriminate. injection Hstep as <-. cbn in *. lia.
  - destruct alive; try discriminate. now injection Hstep as <-.
  - injection Hstep as <-. cbn. rewrite !length_app in *. cbn. lia.
  - destruct its, unf; try discriminate. injection Hstep as <-.
    cbn. rewrite !length_app in *. cbn in *. lia.
Qed.

Lemma run_in_debt (tr : list label) (s s' : sys) :
  run tr s = Some s' -> in_debt s -> in_debt s'.
Proof.
  revert s. induction tr as [| l tr IH]; intros s Hrun Hd; cbn in *.
  - now injection Hrun as <-.
  - destruct (step l s) as [s1 |] eqn:Hstep; [| discriminate].
    eapply IH; eauto using step_in_debt.
Qed.

(** X12. Lost tasks are never recovered.  Once the worker has died while
    holding an item, or [reset_for_new_song] has cleared a non-empty
    queue, the task counter stays above the number of items left to
    handle through every later put, get, task_done, flush or restart, so
    [playback_queue.join()] never returns again. *)
Theorem join_blocks_after_lost_task (tr0 tr1 : list label) (l : label)
    (s0 s1 s2 : sys) :
  run tr0 sys_init = Some s0 ->
  l = l_crash \/ (l = l_clear /\ PyQueue.items (q s0) <> []) ->
  step l s0 = Some s1 ->
  run tr1 s1 = Some s2 ->
  join_returns s2 = false.
Proof.
  intros H0 Hl Hstep H1.
  pose proof (run_covered tr0 sys_init s0 H0 covered_init) as Hc.
  assert (Hd : in_debt s1).
  { destruct s0 as [[its unf] fl alive enq pl].
    unfold covered, in_debt, holding in *. cbn in *.
    destruct Hl as [-> | [-> Hne]]; cbn in Hstep.
    - destruct fl; [| discriminate]. injection Hstep as <-. cbn in *. lia.
    - injection Hstep as <-. cbn. destruct its as [| y rest]; [congruence |].
      rewrite !length_app in *. cbn in *. lia. }
  pose proof (run_in_debt tr1 s1 s2 H1 Hd) as Hd2.
  unfold join_returns, PyQueue.join_returns, in_debt in *.
  apply Nat.eqb_neq. lia.
Qed.

Lemma join_blocks_after_lost_task_witness :
  join_returns (Sys (PyQueue.Mk [] 1) None true [RawItem [1]; RawItem [2]] [RawItem [2]])
  = false.
Proof.
  apply (join_blocks_after_lost_task [l_put (RawItem [1])] [l_put (RawItem [2]); l_get; l_done]
           l_clear
           (Sys (PyQueue.Mk [RawItem [1]] 1) None true [RawItem [1]] [])
           (Sys (PyQueue.Mk [] 1) None true [RawItem [1]] [])).
  - reflexivity.
  - right. split; [reflexivity | discriminate].
  - reflexivity.
  - reflexivity.
Defined.

End QueueMore.

(** ** More on the worker loop *)

Module WorkerMore.
Import Py Playback.
Local Open Scope Q_scope.

(** While a head move is active and its end time has not come, the head
    section of an iteration does nothing: no motor call, no event taken
    from the schedule, no state change. *)
Theorem head_move_held_until_end (now : Q) (wd : world) :
  head_move_active (loc wd) = true ->
  now < head_move_end_time (loc wd) ->
  head_move_section now wd = ret (wd, []).
Proof.
  intros Hact Hnow. unfold head_move_section.
  rewrite Hact, (NpFacts.leb_false _ _ Hnow). cbn [andb negb].
  now rewrite Hact.
Qed.

Lemma head_move_held_until_end_witness :
  let wd := World (init 0) (Some true) (Some 0) true Movements.mouth_sync_init
                  (Locals true 5 0 0 0) in
  head_move_section 4 (set_head_move_queue [(1, 2)] wd)
  = ret (set_head_move_queue [(1, 2)] wd, []).
Proof.
  intros wd. apply (head_move_held_until_end 4 (set_head_move_queue [(1, 2)] wd));
    reflexivity.
Defined.

(** X13. The head section takes at most one event off the schedule, always
    the earliest one, and only when no head move is active any more (none
    was, or the active one has reached its end time) and the event's
    trigger offset from the song start has elapsed.  The head is then
    marked extended and the move ends [move_duration] after [now]. *)
Theorem head_move_fires_in_order (now : Q) (wd wd' : world) (evs : list event) :
  head_move_section now wd = ret (wd', evs) ->
  head_move_queue (mgr wd') = head_move_queue (mgr wd)
  \/ exists (move_time move_duration start : Q) (rest : list (Q * Q)),
       head_move_queue (mgr wd) = (move_time, move_duration) :: rest
       /\ head_move_queue (mgr wd') = rest
       /\ song_start_time wd = Some start
       /\ move_time <= now - start
       /\ (head_move_active (loc wd) = false \/ head_move_end_time (loc wd) <= now)
       /\ head_move_active (loc wd') = true
       /\ head_move_end_time (loc wd') = now + move_duration
       /\ head_out wd' = Some true
       /\ mv_head_out wd' = true.
Proof.
  unfold head_move_section. intros H.
  assert (Hidle : forall b : bool,
             (if head_move_active (loc wd) && Np.leb (head_move_end_time (loc wd)) now
              then false else head_move_active (loc wd)) = false ->
             head_move_active (loc wd) = false \/ head_move_end_time (loc wd) <= now).
  { intros _ Hb. unfold Np.leb in Hb.
    destruct (head_move_active (loc wd)); [| now left].
    destruct (Qlt_le_dec now (head_move_end_time (loc wd))); [discriminate | now right]. }
  destruct (head_move_active (loc wd) && Np.leb (head_move_end_time (loc wd)) now) eqn:Hexp.
  - (* the active move has expired *)
    cbn [Movements.move_head String.eqb] in H.
    change (Movements.move_head "off" (mv_head_out wd))
      with (false, Movements.brake_motor Movements.HEAD_IN1 Movements.HEAD_IN2) in H.
    cbn [loc set_loc set_head head_move_active negb mgr head_move_queue
         song_start_time mv_head_out] in H.
    destruct (head_move_queue (mgr wd)) as [| [move_time move_duration] rest] eqn:Hq.
    + injection H as <- _. left. cbn. exact Hq.
    + unfold read_song_start_time in H.
      cbn [song_start_time set_loc set_head] in H.
      destruct (song_start_time wd) as [start |] eqn:Hs; [| discriminate].
      cbn [bind ret] in H.
      destruct (Np.leb move_time (now - start)) eqn:Hdue.
      * change (Movements.move_head "on" false)
          with (true, Movements._move_head_on) in H.
        injection H as <- _. right.
        exists move_time, move_duration, start, rest.
        repeat split; try reflexivity.
        -- unfold Np.leb in Hdue.
           destruct (Qlt_le_dec (now - start) move_time); [discriminate | assumption].
        -- apply andb_prop in Hexp as [_ Hexp]. right. unfold Np.leb in Hexp.
           destruct (Qlt_le_dec now (head_move_end_time (loc wd)));
             [discriminate | assumption].
      * injection H as <- _. left. cbn. exact Hq.
  - (* no expiry *)
    destruct (head_move_active (loc wd)) eqn:Hact; cbn [negb] in H.
    + injection H as <- _. now left.
    + destruct (head_move_queue (mgr wd)) as [| [move_time move_duration] rest] eqn:Hq.
      * injection H as <- _. left. exact Hq.
      * unfold read_song_start_time in H.
        destruct (song_start_time wd) as [start |] eqn:Hs; [| discriminate].
        cbn [bind ret] in H.
        destruct (Np.leb move_time (now - start)) eqn:Hdue.
        -- assert (Hmv : exists cs, Movements.move_head "on" (mv_head_out wd) = (true, cs)).
           { destruct (mv_head_out wd); eexists; reflexivity. }
           destruct Hmv as [cs Hmv]. rewrite Hmv in H.
           injection H as <- _. right.
           exists move_time, move_duration, start, rest.
           repeat split; try reflexivity; try (now left).
           unfold Np.leb in Hdue.
           destruct (Qlt_le_dec (now - start) move_time); [discriminate | assumption].
        -- injection H as <- _. left. exact Hq.
Qed.

Lemma head_move_fires_in_order_witness :
  let wd := set_head_move_queue [(1, 2); (9, 1)]
              (World (init 0) None (Some 10) false Movements.mouth_sync_init locals_init) in
  exists (wd' : world) (evs : list event),
    head_move_section 12 wd = ret (wd', evs)
    /\ (head_move_queue (mgr wd') = head_move_queue (mgr wd)
        \/ exists (move_time move_duration start : Q) (rest : list (Q * Q)),
             head_move_queue (mgr wd) = (move_time, move_duration) :: rest
             /\ head_move_queue (mgr wd') = rest
             /\ song_start_time wd = Some start
             /\ move_time <= 12 - start
             /\ (head_move_active (loc wd) = false \/ head_move_end_time (loc wd) <= 12)
             /\ head_move_active (loc wd') = true
             /\ head_move_end_time (loc wd') = 12 + move_duration
             /\ head_out wd' = Some true
             /\ mv_head_out wd' = true).
Proof.
  intros wd. eexists _, _. split; [reflexivity |].
  eapply (head_move_fires_in_order 12 wd). reflexivity.
Defined.

(** X14. The beat rule on the path where both worker globals are bound.  The
    tail is flapped, once, exactly when the adjusted elapsed time has
    reached the next boundary, the drums peak (current chunk included) is
    above 1500 and the worker's [head_out] flag is false; so never while
    the head is extended.  At a boundary the peak restarts from zero and
    the boundary moves by one beat length, one beat per chunk however far
    the clock has run ahead; before the boundary only the running peak is
    updated. *)
Theorem beat_rule_with_globals_bound (third : bool) (now rms_drums start : Q)
    (ho : bool) (wd : world) :
  song_start_time wd = Some start ->
  head_out wd = Some ho ->
  let adjusted :=
    (now - start) + compensate_tail_beats (mgr wd) * beat_length (mgr wd) in
  exists (w : worker_locals) (evs : list event),
    beat_tail_sync third now rms_drums wd = ret (set_loc w wd, evs)
    /\ (evs = [move_tail_async third (2 # 10)] \/ evs = [])
    /\ (evs <> [] <->
        next_beat_time (loc wd) <= adjusted
        /\ 1500 < peak_now rms_drums (loc wd) /\ ho = false)
    /\ (next_beat_time (loc wd) <= adjusted ->
        next_beat_time w = next_beat_time (loc wd) + beat_length (mgr wd)
        /\ drums_peak w = 0)
    /\ (adjusted < next_beat_time (loc wd) ->
        next_beat_time w = next_beat_time (loc wd)
        /\ drums_peak w = peak_now rms_drums (loc wd)).
Proof.
  intros Hs Hh adjusted.
  destruct (Qlt_le_dec adjusted (next_beat_time (loc wd))) as [Hbefore | Hcross].
  - destruct (BeatSpec.beat_tail_sync_before_boundary third now rms_drums start wd Hs Hbefore)
      as (w & Hw & Hn & Hp).
    exists w, []. split; [exact Hw |]. split; [now right |]. split.
    + split; [congruence |]. intros (Hc & _). exfalso.
      apply (Qlt_not_le _ _ Hbefore Hc).
    + split; [intros Hc; exfalso; apply (Qlt_not_le _ _ Hbefore Hc) | auto].
  - rewrite (BeatSpec.beat_tail_sync_on_boundary third now rms_drums start ho wd Hs Hh Hcross).
    eexists _, _. split; [reflexivity |].
    split; [destruct (_ && _); auto |]. split; [| split].
    + unfold Np.ltb.
      destruct (Qlt_le_dec 1500 (peak_now rms_drums (loc wd))) as [Hp | Hp];
        destruct ho; cbn [andb negb]; split.
      * intros Hne. congruence.
      * intros (_ & _ & Hho). discriminate Hho.
      * intros _. auto.
      * intros _. discriminate.
      * intros Hne. congruence.
      * intros (_ & Hpk & _). exfalso. apply (Qlt_not_le _ _ Hpk Hp).
      * intros Hne. congruence.
      * intros (_ & Hpk & _). exfalso. apply (Qlt_not_le _ _ Hpk Hp).
    + intros _. split; reflexivity.
    + intros Hlt. exfalso. apply (Qlt_not_le _ _ Hlt Hcross).
Qed.

Lemma beat_rule_with_globals_bound_witness :
  let wd := World (init 0) (Some true) (Some 10) true Movements.mouth_sync_init
                  (Locals true 99 0 0 (1 # 2)) in
  exists (w : worker_locals) (evs : list event),
    beat_tail_sync true 11 3000 wd = ret (set_loc w wd, evs)
    /\ (evs = [move_tail_async true (2 # 10)] \/ evs = [])
    /\ (evs <> [] <->
        next_beat_time (loc wd) <= (11 - 10) + 0 * (5 # 10)
        /\ 1500 < peak_now 3000 (loc wd) /\ true = false)
    /\ (next_beat_time (loc wd) <= (11 - 10) + 0 * (5 # 10) ->
        next_beat_time w = next_beat_time (loc wd) + (5 # 10)
        /\ drums_peak w = 0)
    /\ ((11 - 10) + 0 * (5 # 10) < next_beat_time (loc wd) ->
        next_beat_time w = next_beat_time (loc wd)
        /\ drums_peak w = peak_now 3000 (loc wd)).
Proof.
  intros wd.
  apply (beat_rule_with_globals_bound true 11 3000 10 true wd); reflexivity.
Defined.

End WorkerMore.

(** ** More on the response history *)

Module HistoryMore.
Import Playback HistorySpec.

(** X15. Three calls in a row fill the three slots with their audio, newest
    first, whatever the directory held before; so after any run of at
    least three calls the history holds exactly the last three
    responses. *)
Theorem history_holds_last_three (calls : list (list Z)) (a b c : list Z)
    (fs : gmap string wav_file) :
  let fs' := rotate_all (calls ++ [a; b; c]) fs in
  fs' !! response_path 1 = Some (Wav DEFAULT_CHANNELS 2 DEFAULT_SAMPLE_RATE c)
  /\ fs' !! response_path 2 = Some (Wav DEFAULT_CHANNELS 2 DEFAULT_SAMPLE_RATE b)
  /\ fs' !! response_path 3 = Some (Wav DEFAULT_CHANNELS 2 DEFAULT_SAMPLE_RATE a).
Proof.
  cbv zeta. unfold rotate_all. rewrite fold_left_app. cbn [fold_left].
  set (fs0 := fold_left _ calls fs).
  destruct (rotate_lookup a fs0) as (Ha1 & _ & _ & _).
  set (fsa := rotate_and_save_response_audio a fs0) in *.
  destruct (rotate_lookup b fsa) as (Hb1 & Hb2 & _ & _).
  set (fsb := rotate_and_save_response_audio b fsa) in *.
  destruct (rotate_lookup c fsb) as (Hc1 & Hc2 & Hc3 & _).
  split; [exact Hc1 |]. split.
  - now rewrite Hc2, Hb1.
  - rewrite Hc3, Hb2, Ha1. reflexivity.
Qed.

End HistoryMore.

(** ** More on song metadata *)

Module MetadataMore.
Import Py Audio AudioMore.

Section WithFloat.
Variable float : list ascii -> option Q.

(** A line only ever writes the entry of its own key. *)
Lemma load_line_other (m m' : gmap string pyval) (line k : string) :
  load_line float m line = ret m' ->
  line_key line <> Some k ->
  m' !! k = m !! k.
Proof.
  unfold load_line, line_key.
  destruct (split_once "=" (strip (list_ascii_of_string line))) as [[key value] |];
    [| intros H _; now injection H as <-].
  intros H Hk.
  assert (Hne : string_of_list_ascii key <> k) by congruence.
  destruct (String.eqb (string_of_list_ascii key) "head_moves").
  { destruct (parse_moves float (split "," value)) as [ms | e]; cbn in H;
      [| discriminate].
    injection H as <-. now apply lookup_insert_ne. }
  destruct (_ || _).
  { unfold to_float in H. destruct (float (strip value)); cbn in H; [| discriminate].
    injection H as <-. now apply lookup_insert_ne. }
  destruct (String.eqb (string_of_list_ascii key) "half_tempo_tail_flap").
  { injection H as <-. now apply lookup_insert_ne. }
  now injection H as <-.
Qed.

Lemma load_line_bpm_shape (m m' : gmap string pyval) (line : string) :
  load_line float m line = ret m' -> bpm_shape m -> bpm_shape m'.
Proof.
  intros H Hm.
  destruct (decide (line_key line = Some "bpm")) as [Hk | Hk].
  - right. revert H. unfold load_line. unfold line_key in Hk.
    destruct (split_once "=" (strip (list_ascii_of_string line))) as [[key value] |];
      [| discriminate].
    injection Hk as Hk. rewrite Hk. cbn [String.eqb Ascii.eqb Bool.eqb orb].
    unfold to_float. destruct (float (strip value)) as [x |]; cbn; [| discriminate].
    intros H. injection H as <-. exists x. apply lookup_insert_eq.
  - unfold bpm_shape. now rewrite (load_line_other m m' line "bpm" H Hk).
Qed.

Lemma load_lines_other (lines : list string) (m m' : gmap string pyval) (k : string) :
  (forall line, In line lines -> line_key line <> Some k) ->
  load_lines float m lines = ret m' ->
  m' !! k = m !! k.
Proof.
  revert m. induction lines as [| line lines IH]; intros m Hall H; cbn in H.
  - now injection H as <-.
  - destruct (load_line float m line) as [m1 | e] eqn:Hl; cbn in H; [| discriminate].
    rewrite (IH m1); [| intros l Hin; apply Hall; now right | exact H].
    eapply load_line_other; [exact Hl |]. apply Hall. now left.
Qed.

Lemma load_lines_bpm_shape (lines : list string) (m m' : gmap string pyval) :
  load_lines float m lines = ret m' -> bpm_shape m -> bpm_shape m'.
Proof.
  revert m. induction lines as [| line lines IH]; intros m H Hm; cbn in H.
  - now injection H as <-.
  - destruct (load_line float m line) as [m1 | e] eqn:Hl; cbn in H; [| discriminate].
    eapply IH; [exact H |]. eapply load_line_bpm_shape; eassumption.
Qed.

Lemma load_metadata_bpm_shape (file : option (list string)) (m : gmap string pyval) :
  load_metadata float file = ret m -> bpm_shape m.
Proof.
  destruct file as [lines |]; cbn.
  - intros H. eapply load_lines_bpm_shape; [exact H |]. now left.
  - intros H. injection H as <-. now left.
Qed.

(** X16. A metadata file without a [bpm=] line never lets the song start:
    either a line fails to parse and [play_song] raises that error, or
    the file loads, ["bpm"] is still [None], and [60.0 / BPM] raises
    [TypeError]. *)
Theorem play_song_needs_bpm_line (now : Q) (lines : list string)
    (am : audio_module) (wd : Playback.world) :
  (forall line, In line lines -> line_key line <> Some "bpm") ->
  match load_metadata float (Some lines) with
  | inl m =>
      dict_get m "bpm" (PInt 120) = PNone
      /\ play_song_setup float now (Some lines) am wd = raise TypeError
  | inr e => play_song_setup float now (Some lines) am wd = raise e
  end.
Proof.
  intros Hall. unfold play_song_setup.
  destruct (load_metadata float (Some lines)) as [m | e] eqn:Hload; [| reflexivity].
  assert (Hb : m !! "bpm" = Some PNone).
  { cbn in Hload. now rewrite (load_lines_other lines _ m "bpm" Hall Hload). }
  cbn [bind]. unfold dict_get. rewrite Hb. cbn. auto.
Qed.

End WithFloat.

Lemma play_song_needs_bpm_line_witness :
  let float := fun _ : list ascii => Some 2%Q in
  match load_metadata float (Some ["gain=2"; "# a comment"; "tempo=90"]) with
  | inl m =>
      dict_get m "bpm" (PInt 120) = PNone
      /\ play_song_setup float 0 (Some ["gain=2"; "# a comment"; "tempo=90"])
           (AudioModule false (1 # 2) 0) Playback.first_chunk_world
         = raise TypeError
  | inr e =>
      play_song_setup float 0 (Some ["gain=2"; "# a comment"; "tempo=90"])
        (AudioModule false (1 # 2) 0) Playback.first_chunk_world
      = raise e
  end.
Proof.
  intros float.
  apply (play_song_needs_bpm_line float 0 ["gain=2"; "# a comment"; "tempo=90"]).
  intros line Hin. cbn in Hin.
  destruct Hin as [<- | [<- | [<- | []]]]; vm_compute; discriminate.
Defined.

(** X17. Where the tempo goes.  When the prologue of [play_song] succeeds,
    the metadata had a non-zero float tempo [b]; the beat length,
    [60 / b], doubled under [half_tempo_tail_flap], is bound to the
    module attribute [audio.beat_length] and [audio.song_mode] is set.
    The manager attributes the worker reads, [beat_length],
    [compensate_tail_beats] and [song_mode], are exactly what they were
    before the call.  The queue was cleared without touching its task
    counter, the song start is [now], and the head schedule is the
    parsed [head_moves] list in file order. *)
Theorem play_song_setup_effects (float : list ascii -> option Q) (now : Q)
    (file : option (list string)) (am am' : audio_module)
    (wd wd' : Playback.world) (st : song_settings) :
  play_song_setup float now file am wd = ret (st, am', wd') ->
  (exists (m : gmap string pyval) (b : Q),
      load_metadata float file = ret m
      /\ m !! "bpm" = Some (PFloat b) /\ ~ (b == 0)%Q
      /\ beat_length am'
         = (if truthy (dict_get m "half_tempo_tail_flap" PNone)
            then 60 / b * 2 else 60 / b)%Q
      /\ Playback.head_move_queue (Playback.mgr wd')
         = as_pairs (dict_get m "head_moves" (PPairs [])))
  /\ song_mode am' = true
  /\ Playback.beat_length (Playback.mgr wd') = Playback.beat_length (Playback.mgr wd)
  /\ Playback.compensate_tail_beats (Playback.mgr wd')
     = Playback.compensate_tail_beats (Playback.mgr wd)
  /\ Playback.song_mode (Playback.mgr wd') = Playback.song_mode (Playback.mgr wd)
  /\ Playback.song_start_time wd' = Some now
  /\ Playback.playback_queue (Playback.mgr wd')
     = PyQueue.clear (Playback.playback_queue (Playback.mgr wd)).
Proof.
  unfold play_song_setup. intros H.
  destruct (load_metadata float file) as [m | e] eqn:Hload; [| discriminate].
  cbn [bind] in H.
  destruct (load_metadata_bpm_shape float file m Hload) as [Hb | [b Hb]].
  - unfold dict_get in H. rewrite Hb in H. discriminate.
  - unfold dict_get in H. rewrite Hb in H. cbn [default from_option id float_div] in H.
    destruct (Qeq_bool b 0) eqn:Hz; [discriminate |].
    cbn [bind ret] in H. injection H as _ <- <-.
    split.
    + exists m, b. split; [reflexivity |]. split; [exact Hb |]. split.
      * intros Hb0. apply Qeq_bool_neq in Hz. contradiction.
      * unfold dict_get. split; [now destruct (truthy _) | reflexivity].
    + repeat split; now destruct (truthy _).
Qed.

Lemma play_song_setup_effects_witness :
  let float := fun _ : list ascii => Some 120%Q in
  let am := AudioModule false (1 # 2) 0 in
  let wd := Playback.first_chunk_world in
  exists (st : song_settings) (am' : audio_module) (wd' : Playback.world),
    play_song_setup float 7 (Some ["bpm=120"]) am wd = ret (st, am', wd')
    /\ song_mode am' = true
    /\ Playback.beat_length (Playback.mgr wd') = Playback.beat_length (Playback.mgr wd)
    /\ Playback.song_start_time wd' = Some 7%Q.
Proof.
  intros float am wd.
  destruct (MetadataSpec.play_song_with_bpm float 7 am wd eq_refl)
    as (st & am' & wd' & Hrun & _).
  exists st, am', wd'. split; [exact Hrun |].
  destruct (play_song_setup_effects float 7 (Some ["bpm=120"]) am am' wd wd' st Hrun)
    as (_ & H1 & H2 & _ & _ & H3 & _).
  auto.
Defined.

(** X18. A tempo of zero in the metadata makes the prologue raise
    [ZeroDivisionError]. *)
Theorem play_song_zero_bpm_raises (float : list ascii -> option Q) (now : Q)
    (file : option (list string)) (am : audio_module) (wd : Playback.world)
    (m : gmap string pyval) (b : Q) :
  load_metadata float file = ret m ->
  m !! "bpm" = Some (PFloat b) ->
  (b == 0)%Q ->
  play_song_setup float now file am wd = raise ZeroDivisionError.
Proof.
  intros Hload Hb Hz. unfold play_song_setup. rewrite Hload. unfold ret at 1.
  cbn [bind]. unfold dict_get. rewrite Hb. cbn [default from_option id float_div].
  apply Qeq_bool_iff in Hz. now rewrite Hz.
Qed.

Lemma play_song_zero_bpm_raises_witness :
  play_song_setup (fun _ => Some 0%Q) 0 (Some ["bpm=0"])
    (AudioModule false (1 # 2) 0) Playback.first_chunk_world
  = raise ZeroDivisionError.
Proof.
  apply (play_song_zero_bpm_raises (fun _ => Some 0%Q) 0 (Some ["bpm=0"])
           (AudioModule false (1 # 2) 0) Playback.first_chunk_world
           (<["bpm" := PFloat 0]> metadata_defaults) 0).
  - cbn [load_metadata load_lines].
    rewrite (MetadataSpec.load_line_bpm (fun _ => Some 0%Q) 0 "0"); reflexivity.
  - reflexivity.
  - reflexivity.
Defined.

End MetadataMore.

(** ** Reading clips and playing raw chunks *)

Module PlaybackIOSpec.
Import Py Playback PlaybackIO.

Lemma read_loop_chunks (fuel : nat) (chunk_size : Z) (wf : Wave_read)
    (pq : PyQueue.t item) :
  chunk_size <> 0 ->
  (length (unread wf) < fuel)%nat ->
  exists chunks : list (list Z),
    read_loop fuel chunk_size wf pq
    = PyQueue.Mk (PyQueue.items pq ++ map RawItem chunks)
                 (PyQueue.unfinished_tasks pq + length chunks)
    /\ concat chunks = unread wf
    /\ Forall (fun c => c <> []) chunks
    /\ (0 < chunk_size -> Forall (fun c => Z.of_nat (length c) <= chunk_size) chunks).
Proof.
  intros Hcs. revert wf pq.
  induction fuel as [| fuel IH]; intros wf pq Hfuel; [lia |].
  cbn [read_loop]. unfold readframes.
  destruct (chunk_size =? 0) eqn:H0; [apply Z.eqb_eq in H0; congruence |].
  destruct (unread wf) as [| x rest] eqn:Hun; rewrite ?Hun in Hfuel; cbn in Hfuel.
  - (* nothing left: the read is empty and the loop ends *)
    exists []. destruct (chunk_size <? 0); cbn; rewrite ?take_nil; cbn;
      destruct pq as [its unf]; cbn; rewrite app_nil_r, Nat.add_0_r; auto.
  - destruct (chunk_size <? 0) eqn:Hneg.
    + (* a negative size reads everything at once *)
      cbn [length Nat.eqb].
      destruct (IH (advance [] wf) (PyQueue.put (RawItem (x :: rest)) pq))
        as (chunks & Hrun & Hcat & Hne & Hle); [cbn; lia |].
      cbn in Hcat. destruct chunks as [| c chunks].
      * exists [x :: rest]. rewrite Hrun. destruct pq as [its unf]. cbn.
        rewrite !app_nil_r, Nat.add_0_r, Nat.add_1_r.
        repeat split; auto.
        intros Hpos. apply Z.ltb_lt in Hneg. lia.
      * exfalso. inversion Hne as [| ? ? Hc _]; subst.
        destruct c; [congruence | discriminate Hcat].
    + apply Z.ltb_ge in Hneg.
      assert (Hn : (1 <= Z.to_nat chunk_size)%nat) by lia.
      destruct (Z.to_nat chunk_size) as [| n] eqn:Hto; [lia |].
      cbn [take length Nat.eqb].
      destruct (IH (advance (drop (S n) (x :: rest)) wf)
                   (PyQueue.put (RawItem (x :: take n rest)) pq))
        as (chunks & Hrun & Hcat & Hne & Hle).
      { cbn. rewrite length_drop. cbn in Hfuel. lia. }
      exists ((x :: take n rest) :: chunks). rewrite Hrun.
      destruct pq as [its unf]. cbn.
      rewrite <- app_assoc. cbn.
      split; [f_equal; lia |]. split.
      * cbn in Hcat. rewrite Hcat. f_equal. apply take_drop.
      * split; [constructor; [discriminate | exact Hne] |].
        intros Hpos. constructor; [| now apply Hle].
        cbn. rewrite length_take. lia.
Qed.

(** X19. Reading a clip.  For a file in the accepted format and a chunk size
    other than zero, [enqueue_wav_to_playback] puts the file's frames on
    the queue as raw items whose payloads, joined in order, are exactly
    the frames of the file; no chunk is empty, none is longer than the
    chunk size, and the task counter grows by the number of chunks.
    Items already queued stay in front. *)
Theorem enqueue_wav_keeps_every_frame (CHUNK_MS : Q) (wf : Wave_read)
    (pq : PyQueue.t item) :
  getframerate wf = 24000 -> getnchannels wf = 1 -> getsampwidth wf = 2 ->
  let chunk_size := Np.int (24000 * CHUNK_MS / 1000)%Q in
  chunk_size <> 0 ->
  exists chunks : list (list Z),
    enqueue_wav_to_playback CHUNK_MS wf pq
    = ret (PyQueue.Mk (PyQueue.items pq ++ map RawItem chunks)
                      (PyQueue.unfinished_tasks pq + length chunks))
    /\ concat chunks = unread wf
    /\ Forall (fun c => c <> []) chunks
    /\ (0 < chunk_size -> Forall (fun c => Z.of_nat (length c) <= chunk_size) chunks).
Proof.
  intros Hr Hc Hw chunk_size Hcs. unfold enqueue_wav_to_playback.
  rewrite Hr, Hc, Hw. cbn [Z.eqb negb orb DEFAULT_SAMPLE_RATE DEFAULT_CHANNELS].
  change (24000 =? DEFAULT_SAMPLE_RATE) with true.
  change (1 =? DEFAULT_CHANNELS) with true. cbn [negb orb Z.eqb Pos.eqb].
  destruct (read_loop_chunks (S (length (unread wf))) chunk_size wf pq Hcs)
    as (chunks & Hrun & Hrest); [lia |].
  exists chunks. split; [| exact Hrest].
  unfold ret. f_equal. exact Hrun.
Qed.

Lemma enqueue_wav_keeps_every_frame_witness :
  let wf := WaveRead 24000 1 2 [1; 2; 3; 4; 5] in
  exists chunks : list (list Z),
    enqueue_wav_to_playback (1 # 12) wf PyQueue.new
    = ret (PyQueue.Mk (PyQueue.items PyQueue.new ++ map RawItem chunks)
                      (PyQueue.unfinished_tasks (@PyQueue.new item) + length chunks))
    /\ concat chunks = unread wf
    /\ Forall (fun c => c <> []) chunks
    /\ (0 < Np.int (24000 * (1 # 12) / 1000)%Q ->
        Forall (fun c => Z.of_nat (length c) <= Np.int (24000 * (1 # 12) / 1000)%Q) chunks).
Proof.
  intros wf.
  apply (enqueue_wav_keeps_every_frame (1 # 12) wf PyQueue.new);
    reflexivity || discriminate.
Defined.

(** X20. Reading a clip, the edges.  A file that is not 24 kHz mono 16-bit is
    refused with [ValueError] before anything is queued.  With a chunk
    size of zero (a [CHUNK_MS] below 1/24) the first read is empty and
    the clip is skipped without any error: the queue is left as it was. *)
Theorem enqueue_wav_edges (CHUNK_MS : Q) (wf : Wave_read) (pq : PyQueue.t item) :
  (getframerate wf <> 24000 \/ getnchannels wf <> 1 \/ getsampwidth wf <> 2 ->
   enqueue_wav_to_playback CHUNK_MS wf pq = raise ValueError)
  /\ (getframerate wf = 24000 -> getnchannels wf = 1 -> getsampwidth wf = 2 ->
      Np.int (24000 * CHUNK_MS / 1000)%Q = 0 ->
      enqueue_wav_to_playback CHUNK_MS wf pq = ret pq).
Proof.
  unfold enqueue_wav_to_playback, DEFAULT_SAMPLE_RATE, DEFAULT_CHANNELS. split.
  - intros Hbad.
    destruct (getframerate wf =? 24000) eqn:H1; [| reflexivity].
    destruct (getnchannels wf =? 1) eqn:H2; [| reflexivity].
    destruct (getsampwidth wf =? 2) eqn:H3; [| reflexivity].
    apply Z.eqb_eq in H1, H2, H3. tauto.
  - intros -> -> -> Hz. cbn [Z.eqb Pos.eqb negb orb].
    cbn [read_loop]. unfold readframes.
    change (inject_Z 24000) with 24000%Q. rewrite Hz. reflexivity.
Qed.

Lemma enqueue_wav_edges_witness :
  enqueue_wav_to_playback 40 (WaveRead 44100 2 2 [1; 2; 3]) PyQueue.new = raise ValueError
  /\ enqueue_wav_to_playback (1 # 100) (WaveRead 24000 1 2 [1; 2; 3]) PyQueue.new
     = ret PyQueue.new.
Proof.
  split.
  - apply (enqueue_wav_edges 40 (WaveRead 44100 2 2 [1; 2; 3]) PyQueue.new).
    left. discriminate.
  - apply (enqueue_wav_edges (1 # 100) (WaveRead 24000 1 2 [1; 2; 3]) PyQueue.new);
      reflexivity.
Defined.

Section PcmLoopFacts.

Variable rms_of : list Z -> Q.
Variable clock : nat -> Q.
Variable randint : nat -> Z.
Variable chunk_ms : Q.





(** X22. Playing a raw chunk, the edges.  A sub-chunk length of zero (a
    [chunk_ms] below 1/24) makes [range] raise [ValueError], which ends
    the worker; an empty chunk plays nothing and changes nothing. *)
Theorem play_pcm_edges (mono : list Z) (st : pcm_state) :
  (Np.int (24000 * chunk_ms / 1000)%Q = 0 ->
   play_pcm rms_of clock randint chunk_ms mono st = raise ValueError)
  /\ (Np.int (24000 * chunk_ms / 1000)%Q <> 0 ->
      play_pcm rms_of clock randint chunk_ms [] st = ret st).
Proof.
  unfold play_pcm, py_range. split.
  - intros ->. reflexivity.
  - intros Hne. destruct (_ =? 0) eqn:H0; [apply Z.eqb_eq in H0; congruence |].
    destruct (_ <? 0); reflexivity.
Qed.

End PcmLoopFacts.


Lemma play_pcm_edges_witness :
  let st := PcmState Movements.mouth_sync_init 0 150000 0 0 [] in
  play_pcm (fun _ => 0%Q) (fun _ => 1%Q) (fun _ => 90000) (1 # 100) [1; 2; 3] st
  = raise ValueError.
Proof.
  intros st.
  apply (play_pcm_edges (fun _ => 0%Q) (fun _ => 1%Q) (fun _ => 90000) (1 # 100)
           [1; 2; 3] st).
  reflexivity.
Defined.

End PlaybackIOSpec.

(** ** The retry decorator *)

Module RetryMore.
Import Py ErrorHandling.

Section RetryFacts.
Context {A : Type}.
Variable func : nat -> result A.
Variable catches : exn -> bool.

Lemma retry_loop_settles (max_retries : Z) (backoff_factor : Q) (k : nat) :
  forall (rounds attempt : nat) (current_delay : Q) (last : option exn)
         (slept : list Q),
    (k < rounds)%nat ->
    (Z.of_nat (attempt + k) <= max_retries)%Z ->
    (forall j, (j < k)%nat -> caught catches (func (attempt + j))) ->
    settled catches (func (attempt + k)) ->
    retry_loop func catches rounds attempt max_retries current_delay
               backoff_factor last slept
    = RetryRun (func (attempt + k)) (S (attempt + k))
               (slept ++ backoff_delays k current_delay backoff_factor).
Proof.
  induction k as [| k IH]; intros rounds attempt d last slept Hr Hm Hc Hs.
  - destruct rounds as [| rounds]; [lia |].
    rewrite Nat.add_0_r in *. cbn [retry_loop backoff_delays].
    rewrite app_nil_r.
    destruct (func attempt) as [v | e]; [reflexivity |].
    cbn in Hs. now rewrite Hs.
  - destruct rounds as [| rounds]; [lia |].
    cbn [retry_loop backoff_delays].
    pose proof (Hc 0%nat ltac:(lia)) as H0. rewrite Nat.add_0_r in H0.
    destruct (func attempt) as [v | e]; [contradiction |].
    cbn in H0. rewrite H0.
    replace (Z.of_nat attempt <? max_retries)%Z with true
      by (symmetry; apply Z.ltb_lt; lia).
    rewrite (IH rounds (S attempt) (d * backoff_factor)%Q (Some e)
                (slept ++ [d])).
    + replace (S attempt + k)%nat with (attempt + S k)%nat by lia.
      now rewrite <- app_assoc.
    + lia.
    + replace (S attempt + k)%nat with (attempt + S k)%nat by lia. exact Hm.
    + intros j Hj. replace (S attempt + j)%nat with (attempt + S j)%nat by lia.
      apply Hc. lia.
    + now replace (S attempt + k)%nat with (attempt + S k)%nat by lia.
Qed.

Lemma retry_loop_exhausts (max_retries : Z) (backoff_factor : Q) (rounds : nat) :
  forall (attempt : nat) (current_delay : Q) (last : option exn) (slept : list Q),
    Z.of_nat (attempt + S rounds) = (max_retries + 1)%Z ->
    (forall j, (j <= rounds)%nat -> caught catches (func (attempt + j))) ->
    retry_loop func catches (S rounds) attempt max_retries current_delay
               backoff_factor last slept
    = RetryRun (func (attempt + rounds)) (S (attempt + rounds))
               (slept ++ backoff_delays rounds current_delay backoff_factor).
Proof.
  induction rounds as [| rounds IH]; intros attempt d last slept Hm Hc.
  - pose proof (Hc 0%nat ltac:(lia)) as H0. rewrite Nat.add_0_r in *.
    cbn [retry_loop backoff_delays]. rewrite app_nil_r.
    destruct (func attempt) as [v | e]; [contradiction |].
    cbn in H0. rewrite H0.
    replace (Z.of_nat attempt <? max_retries)%Z with false
      by (symmetry; apply Z.ltb_ge; lia).
    reflexivity.
  - pose proof (Hc 0%nat ltac:(lia)) as H0. rewrite Nat.add_0_r in H0.
    remember (S rounds) as r eqn:Er.
    cbn [retry_loop]. subst r. cbn [backoff_delays].
    destruct (func attempt) as [v | e]; [contradiction |].
    cbn in H0. rewrite H0.
    replace (Z.of_nat attempt <? max_retries)%Z with true
      by (symmetry; apply Z.ltb_lt; lia).
    rewrite (IH (S attempt) (d * backoff_factor)%Q (Some e) (slept ++ [d])).
    + replace (S attempt + rounds)%nat with (attempt + S rounds)%nat by lia.
      now rewrite <- app_assoc.
    + lia.
    + intros j Hj. replace (S attempt + j)%nat with (attempt + S j)%nat by lia.
      apply Hc. lia.
Qed.

(** X23. The schedule of [retry_on_failure]'s synchronous wrapper, for
    any decorated function, exception filter, retry count, delay and
    back-off factor.
    - The first call that returns, or raises an exception outside
      [exceptions], ends the run with that very outcome, provided it is
      among the first [max_retries + 1] calls: if it is call number [k]
      (from zero), the function was called [k + 1] times and the wrapper
      slept [k] times, for [delay], [delay * f], [delay * f * f], ...
    - If each of the [max_retries + 1] calls raises a caught exception,
      the wrapper re-raises the exception of the last call, after
      exactly [max_retries] sleeps (none after the last call).
    - With a negative [max_retries] the function is never called and
      the wrapper raises [TypeError], from [raise None]. *)
Theorem retry_on_failure_schedule (max_retries : Z) (delay backoff_factor : Q) :
  let r := sync_wrapper func catches max_retries delay backoff_factor in
  (forall k : nat,
      (Z.of_nat k <= max_retries)%Z ->
      (forall j, (j < k)%nat -> caught catches (func j)) ->
      settled catches (func k) ->
      outcome r = func k /\ calls r = S k
      /\ sleeps r = backoff_delays k delay backoff_factor)
  /\ ((0 <= max_retries)%Z ->
      (forall j, (Z.of_nat j <= max_retries)%Z -> caught catches (func j)) ->
      outcome r = func (Z.to_nat max_retries)
      /\ calls r = S (Z.to_nat max_retries)
      /\ sleeps r = backoff_delays (Z.to_nat max_retries) delay backoff_factor)
  /\ ((max_retries < 0)%Z ->
      outcome r = raise TypeError /\ calls r = 0%nat /\ sleeps r = []).
Proof.
  cbv zeta. unfold sync_wrapper. split; [| split].
  - intros k Hk Hc Hs.
    rewrite (retry_loop_settles max_retries backoff_factor k
               (Z.to_nat (max_retries + 1)) 0 delay None []);
      [cbn; auto | lia | cbn; lia | exact Hc | exact Hs].
  - intros Hm Hc.
    replace (Z.to_nat (max_retries + 1)) with (S (Z.to_nat max_retries)) by lia.
    rewrite (retry_loop_exhausts max_retries backoff_factor (Z.to_nat max_retries)
               0 delay None []);
      [cbn; auto | cbn; lia |].
    intros j Hj. apply Hc. cbn. lia.
  - intros Hm.
    replace (Z.to_nat (max_retries + 1)) with 0%nat by lia.
    cbn. auto.
Qed.

End RetryFacts.

(** Three retries, one second, factor two; the first two calls raise a
    caught [ValueError], the third returns 7. *)
Lemma retry_on_failure_schedule_witness :
  let func := fun k : nat => if (k <? 2)%nat then raise ValueError else ret 7%Z in
  let r := sync_wrapper func (fun _ => true) 3 1 2 in
  outcome r = ret 7%Z /\ calls r = 3%nat /\ sleeps r = [1%Q; (1 * 2)%Q].
Proof.
  cbv zeta.
  apply (proj1 (retry_on_failure_schedule
                  (fun k : nat => if (k <? 2)%nat then raise ValueError else ret 7%Z)
                  (fun _ => true) 3 1 2) 2%nat).
  - lia.
  - intros j Hj. destruct j as [| [| j]]; [reflexivity | reflexivity | lia].
  - exact I.
Defined.

End RetryMore.

(** ** The idle watchdog *)

Module WatchdogSpec.
Import SessionMore.
Local Open Scope Q_scope.

Lemma ltb_true_inv x y : Np.ltb x y = true -> x < y.
Proof. unfold Np.ltb. destruct (Qlt_le_dec x y); [auto | discriminate]. Qed.

Lemma ltb_false_inv x y : Np.ltb x y = false -> y <= x.
Proof. unfold Np.ltb. destruct (Qlt_le_dec x y); [discriminate | auto]. Qed.

Lemma watchdog_run_spaced (T lp : Q) (ticks : list (Q * Q)) :
  forall ltm, spaced ltm (fst (watchdog_run T lp ticks ltm)).
Proof.
  induction ticks as [| [now la] rest IH]; intros ltm; [exact I |].
  cbn [watchdog_run]. unfold watchdog_tick.
  destruct (Np.ltb (5 # 10) (now - Qmax la lp - 2)) eqn:Hidle.
  - destruct (Np.ltb 1 (now - ltm)) eqn:Hflap.
    + destruct (Np.ltb T (now - Qmax la lp - 2)).
      * cbn. split; [now apply ltb_true_inv | exact I].
      * specialize (IH now).
        destruct (watchdog_run T lp rest now) as [more stopped].
        cbn in *. split; [now apply ltb_true_inv | exact IH].
    + destruct (Np.ltb T (now - Qmax la lp - 2)).
      * exact I.
      * specialize (IH ltm).
        destruct (watchdog_run T lp rest ltm) as [more stopped].
        exact IH.
  - specialize (IH ltm).
    destruct (watchdog_run T lp rest ltm) as [more stopped]. exact IH.
Qed.

Lemma watchdog_run_idle (T lp : Q) (ticks : list (Q * Q)) :
  forall ltm,
    (forall now, In now (fst (watchdog_run T lp ticks ltm)) ->
       exists la, In (now, la) ticks /\ 5 # 10 < now - Qmax la lp - 2)
    /\ (forall now, snd (watchdog_run T lp ticks ltm) = Some now ->
          exists la, In (now, la) ticks
                     /\ 5 # 10 < now - Qmax la lp - 2
                     /\ T < now - Qmax la lp - 2)
    /\ ((forall now la, In (now, la) ticks -> now - Qmax la lp - 2 <= 5 # 10) ->
        watchdog_run T lp ticks ltm = ([], None)).
Proof.
  induction ticks as [| [now la] rest IH]; intros ltm.
  - cbn. split; [| split]; [intros ? [] | discriminate | reflexivity].
  - cbn [watchdog_run]. unfold watchdog_tick.
    destruct (Np.ltb (5 # 10) (now - Qmax la lp - 2)) eqn:Hidle.
    + apply ltb_true_inv in Hidle.
      destruct (Np.ltb T (now - Qmax la lp - 2)) eqn:Hstop.
      * apply ltb_true_inv in Hstop. split; [| split].
        -- intros n Hin. destruct (Np.ltb 1 (now - ltm)); cbn in Hin;
             [| contradiction].
           destruct Hin as [<- | []]. exists la. split; [now left | exact Hidle].
        -- cbn. intros n [= <-]. exists la. split; [now left | auto].
        -- intros Hq. exfalso.
           apply (Qlt_not_le _ _ Hidle). apply (Hq now la). now left.
      * destruct (IH (if Np.ltb 1 (now - ltm) then now else ltm))
          as (IH1 & IH2 & _).
        destruct (watchdog_run T lp rest (if Np.ltb 1 (now - ltm) then now else ltm))
          as [more stopped].
        cbn [fst snd] in *. split; [| split].
        -- intros n Hin. apply in_app_or in Hin. destruct Hin as [Hin | Hin].
           ++ destruct (Np.ltb 1 (now - ltm)); cbn in Hin; [| contradiction].
              destruct Hin as [<- | []]. exists la. split; [now left | exact Hidle].
           ++ destruct (IH1 n Hin) as (la' & Hin' & Hi). exists la'.
              split; [now right | exact Hi].
        -- intros n Hs. destruct (IH2 n Hs) as (la' & Hin' & Hi). exists la'.
           split; [now right | exact Hi].
        -- intros Hq. exfalso.
           apply (Qlt_not_le _ _ Hidle). apply (Hq now la). now left.
    + destruct (IH ltm) as (IH1 & IH2 & IH3).
      destruct (watchdog_run T lp rest ltm) as [more stopped].
      cbn [fst snd app] in *. split; [| split].
      * intros n Hin. destruct (IH1 n Hin) as (la' & Hin' & Hi). exists la'.
        split; [now right | exact Hi].
      * intros n Hs. destruct (IH2 n Hs) as (la' & Hin' & Hi). exists la'.
        split; [now right | exact Hi].
      * intros Hq. rewrite IH3; [reflexivity |].
        intros n l Hin. apply Hq. now right.
Qed.

(** X24. The idle watchdog [mic_timeout_checker], for any timeout, any
    value of [audio.last_played_time] and any sequence of wake-ups.
    - Two consecutive tail flaps are more than one second apart, whatever
      the spacing of the wake-ups.
    - A tail flap happens only at a wake-up that finds more than 2.5 s
      without activity.
    - The session is stopped only at a wake-up whose idle time exceeds
      2 s by more than the timeout and by more than half a second; so a
      timeout below 0.5 s acts as 0.5 s.
    - If no wake-up finds more than 2.5 s of idle time, the watchdog
      neither flaps the tail nor stops the session. *)
Theorem watchdog_flaps_and_stop (MIC_TIMEOUT_SECONDS audio_last_played_time : Q)
    (ticks : list (Q * Q)) :
  let run := mic_timeout_checker MIC_TIMEOUT_SECONDS audio_last_played_time ticks in
  let idle := fun now la : Q => now - Qmax la audio_last_played_time in
  spaced 0 (fst run)
  /\ (forall now, In now (fst run) ->
        exists la, In (now, la) ticks /\ 5 # 10 < idle now la - 2)
  /\ (forall now, snd run = Some now ->
        exists la, In (now, la) ticks
                   /\ 5 # 10 < idle now la - 2
                   /\ MIC_TIMEOUT_SECONDS < idle now la - 2)
  /\ ((forall now la, In (now, la) ticks -> idle now la - 2 <= 5 # 10) ->
      run = ([], None)).
Proof.
  cbv zeta. unfold mic_timeout_checker. split.
  - apply watchdog_run_spaced.
  - apply watchdog_run_idle.
Qed.

End WatchdogSpec.

(** ** The stream loop *)

Module StreamSpec.
Import Py Playback Session SessionMore.

Ltac simp :=
  cbn [sess committed first_text session_initialized interrupt_event last_rms
       audio_buffer pm files ws_client full_response_text last_activity
       session_active user_spoke_after_assistant allow_mic_input run_mode
       with_sess set_active set_last_activity set_allow_mic set_spoke set_text
       set_queue set_done_event request_stop playback_queue playback_done_event
       negb andb orb fst snd app map List.filter length Nat.b2n Nat.add
       is_commit is_send is_restart is_disconnect] in *.

Lemma audio_type_exclusive (data : message) :
  is_audio_type data = true ->
  is_text_type data = false
  /\ String.eqb (m_type data) WS_RESPONSE_DONE = false
  /\ String.eqb (m_type data) "response.audio_transcript.done" = false
  /\ String.eqb (m_type data) WS_SESSION_UPDATED = false.
Proof.
  unfold is_audio_type, is_text_type. intros H.
  apply orb_true_iff in H as [H | H]; apply String.eqb_eq in H; rewrite H;
    repeat split; reflexivity.
Qed.

Lemma text_type_exclusive (data : message) :
  is_text_type data = true ->
  String.eqb (m_type data) WS_RESPONSE_DONE = false
  /\ String.eqb (m_type data) "response.audio_transcript.done" = false.
Proof.
  unfold is_text_type. intros H.
  apply orb_true_iff in H as [H | H]; apply String.eqb_eq in H; rewrite H;
    repeat split; reflexivity.
Qed.

Lemma plain_message (now : Q) (data : message) :
  plain (ws_message now data) = true ->
  String.eqb (m_type data) WS_RESPONSE_FUNCTION_CALL_ARGUMENTS_DONE = false
  /\ String.eqb (m_type data) WS_ERROR = false.
Proof.
  cbn [plain]. intros Hp. apply andb_true_iff in Hp as [Hf He].
  now apply negb_true_iff in Hf, He.
Qed.

Section StreamFacts.
Variable TEXT_ONLY_MODE : bool.
Variable SILENCE_THRESHOLD : Q.
Variable b64decode : string -> option (list Z).
Variable process_audio_chunk : list Z -> option (list Z).
Variable on_function_call : message -> turn -> turn * list effect * flow.
Variable on_error : message -> turn -> turn * list effect * flow.

Ltac step_case :=
  match goal with
  | |- context [if ?c then _ else _] => is_var c; destruct c
  | |- context [match ?c with _ => _ end] => is_var c; destruct c
  | |- context [negb ?c] => is_var c; destruct c
  | |- context [andb ?c _] => is_var c; destruct c
  | |- context [String.eqb ?a ?b] => destruct (String.eqb a b) eqn:?
  | |- context [is_text_type ?d] => destruct (is_text_type d) eqn:?
  | |- context [audio_field ?d] => destruct (audio_field d) eqn:?
  | |- context [m_delta ?d] => destruct (m_delta d) eqn:?
  | |- context [Nat.ltb ?a ?b] => destruct (Nat.ltb a b) eqn:?
  | |- context [b64decode ?a] => destruct (b64decode a) eqn:?
  | |- context [process_audio_chunk ?a] => destruct (process_audio_chunk a) eqn:?
  end; simp.

(** Unfold [handle_message] on a plain message and split on the kind of
    the message first, so that the branches that cannot fire together
    are not multiplied out. *)
Ltac open_handler Hp data t :=
  destruct (plain_message _ _ Hp) as [?Hfc ?Her];
  unfold handle_message; rewrite ?Hfc, ?Her;
  unfold on_audio, on_text, on_response_done, stop_session, close_connection;
  destruct t as [[ws txt la sa us am rm] c ft si ie lr ab m fs];
  simp;
  let Ha := fresh "Ha" in
  let Ht := fresh "Ht" in
  destruct (is_audio_type data) eqn:Ha;
  [ destruct (audio_type_exclusive _ Ha) as (-> & -> & -> & _)
  | destruct (is_text_type data) eqn:Ht;
    [ destruct (text_type_exclusive _ Ht) as (-> & ->) | ] ];
  simp.

Lemma handle_message_commits (now : Q) (data : message) (t : turn) :
  plain (ws_message now data) = true ->
  let '(t', e, fl) :=
    handle_message TEXT_ONLY_MODE b64decode process_audio_chunk on_function_call
                   on_error now data t in
  session_initialized t' = session_initialized t
  /\ ((List.filter is_commit e = [] /\ committed t' = committed t)
      \/ (List.filter is_commit e = [ws_commit_audio_buffer]
          /\ committed t = false /\ committed t' = true
          /\ session_initialized t = true)).
Proof.
  intros Hp. open_handler Hp data t.
  all: repeat step_case.
  all: tauto.
Qed.

Lemma mic_callback_frame (now : Q) (samples : list Z) (rms : Q) (t : turn) :
  let '(t', e) := mic_callback SILENCE_THRESHOLD now samples rms t in
  committed t' = committed t
  /\ session_initialized t' = session_initialized t
  /\ interrupt_event t' = interrupt_event t
  /\ audio_buffer t' = audio_buffer t
  /\ pm t' = pm t /\ files t' = files t
  /\ session_active (sess t') = session_active (sess t)
  /\ ws_client (sess t') = ws_client (sess t)
  /\ allow_mic_input (sess t') = allow_mic_input (sess t)
  /\ List.filter is_commit e = []
  /\ List.filter is_restart e = []
  /\ List.filter is_disconnect e = []
  /\ (allow_mic_input (sess t) = false \/ session_active (sess t) = false ->
      t' = t /\ e = []).
Proof.
  unfold mic_callback.
  destruct t as [[ws txt la sa us am rm] c ft si ie lr ab m fs]. simp.
  destruct am, sa; simp;
    [ destruct (Np.ltb SILENCE_THRESHOLD rms), ws; simp | | | ];
    repeat match goal with |- _ /\ _ => split end; try reflexivity;
    intros [Hx | Hx]; solve [discriminate Hx | split; reflexivity].
Qed.

(** X25. At most one [input_audio_buffer.commit] is sent during a run of
    the stream loop, whatever the socket, the microphone, the button and
    the watchdog deliver (messages for the function-call and error
    branches apart); none is sent once [committed] is set; and none is
    sent unless a message of type [session_updated] has set
    [session_initialized]. *)
Theorem commit_once_after_session_updated (events : list event) :
  forall t : turn,
    forallb plain events = true ->
    let e := snd (stream_loop TEXT_ONLY_MODE SILENCE_THRESHOLD b64decode
                              process_audio_chunk on_function_call on_error
                              events t) in
    (length (List.filter is_commit e) <= 1)%nat
    /\ (committed t = true -> List.filter is_commit e = [])
    /\ (session_initialized t = false ->
        forallb (fun ev => negb (has_type WS_SESSION_UPDATED ev)) events = true ->
        List.filter is_commit e = []).
Proof.
  induction events as [| ev rest IH]; intros t Hp; cbv zeta.
  { cbn. auto. }
  cbn [forallb] in Hp. apply andb_true_iff in Hp as [Hp1 Hp2].
  destruct ev as [now data | now samples rms | | |]; cbn [stream_loop].
  - destruct (negb (session_active (sess t))); [cbn; auto |].
    set (t1 := if String.eqb (m_type data) WS_SESSION_UPDATED then _ else t).
    assert (Hc1 : committed t1 = committed t)
      by (subst t1; destruct (String.eqb _ _); reflexivity).
    assert (Hs1 : String.eqb (m_type data) WS_SESSION_UPDATED = false ->
                  session_initialized t1 = session_initialized t)
      by (subst t1; intros ->; reflexivity).
    pose proof (handle_message_commits now data t1 Hp1) as Hh.
    destruct (handle_message _ _ _ _ _ now data t1) as [[t2 e] fl].
    destruct Hh as [Hsi Hh].
    assert (Hthis : (length (List.filter is_commit e) <= 1)%nat
                    /\ (committed t = true -> List.filter is_commit e = [])
                    /\ (session_initialized t1 = false ->
                        List.filter is_commit e = [])).
    { destruct Hh as [[-> _] | (-> & Hf & _ & Hi)]; cbn; repeat split;
        try lia; try reflexivity; congruence. }
    destruct (IH t2 Hp2) as (I1 & I2 & I3).
    assert (Hgoal :
      (length (List.filter is_commit
                 (e ++ snd (stream_loop TEXT_ONLY_MODE SILENCE_THRESHOLD b64decode
                              process_audio_chunk on_function_call on_error
                              rest t2))) <= 1)%nat
      /\ (committed t = true ->
          List.filter is_commit
            (e ++ snd (stream_loop TEXT_ONLY_MODE SILENCE_THRESHOLD b64decode
                         process_audio_chunk on_function_call on_error rest t2)) = [])
      /\ (session_initialized t = false ->
          forallb (fun ev => negb (has_type WS_SESSION_UPDATED ev))
                  (ws_message now data :: rest) = true ->
          List.filter is_commit
            (e ++ snd (stream_loop TEXT_ONLY_MODE SILENCE_THRESHOLD b64decode
                         process_audio_chunk on_function_call on_error rest t2)) = [])).
    { rewrite List.filter_app, length_app. split; [| split].
      - destruct Hh as [[-> _] | (-> & _ & Hc2 & _)]; cbn; [exact I1 |].
        rewrite (I2 Hc2). cbn. lia.
      - intros Hc. destruct Hh as [[-> Hc2] | (_ & Hf & _)]; [| congruence].
        cbn. apply I2. congruence.
      - intros Hi Hno. cbn [forallb has_type] in Hno.
        apply andb_true_iff in Hno as [Hn1 Hn2]. apply negb_true_iff in Hn1.
        specialize (Hs1 Hn1).
        destruct Hthis as (_ & _ & H3). rewrite H3 by congruence. cbn.
        apply I3; [congruence | exact Hn2]. }
    destruct fl.
    + destruct (stream_loop _ _ _ _ _ _ rest t2) as [t3 e3]. exact Hgoal.
    + destruct (stream_loop _ _ _ _ _ _ rest t2) as [t3 e3]. exact Hgoal.
    + cbn [snd]. destruct Hthis as (H1 & H2 & H3). split; [exact H1 |].
      split; [exact H2 |]. intros Hi Hno. cbn [forallb has_type] in Hno.
      apply andb_true_iff in Hno as [Hn1 _]. apply negb_true_iff in Hn1.
      apply H3. rewrite (Hs1 Hn1). exact Hi.
  - pose proof (mic_callback_frame now samples rms t) as Hm.
    destruct (mic_callback SILENCE_THRESHOLD now samples rms t) as [t1 e].
    destruct Hm as (Hc & Hsi & _ & _ & _ & _ & _ & _ & _ & He & _).
    destruct (IH t1 Hp2) as (I1 & I2 & I3).
    destruct (stream_loop _ _ _ _ _ _ rest t1) as [t3 e3]. cbn [snd] in *.
    rewrite List.filter_app, He. cbn [app]. split; [exact I1 |].
    split; [intros H; apply I2; congruence |].
    intros Hi Hno. apply I3; [congruence | exact Hno].
  - destruct t. exact (IH _ Hp2).
  - destruct t as [[]]. exact (IH _ Hp2).
  - unfold stop_session, close_connection.
    destruct t as [[ws txt la sa us am rm] c ft si ie lr ab m fs]. simp.
    destruct ws; simp.
    + destruct (IH (Turn (Session_ false txt la false us am rm) c ft si ie lr ab m fs)
                  Hp2) as (I1 & I2 & I3).
      destruct (stream_loop _ _ _ _ _ _ rest _) as [t3 e3]. simp. auto.
    + destruct (IH (Turn (Session_ false txt la false us am rm) c ft si ie lr ab m fs)
                  Hp2) as (I1 & I2 & I3).
      destruct (stream_loop _ _ _ _ _ _ rest _) as [t3 e3]. simp. auto.
Qed.


Lemma handle_message_mic_off (now : Q) (data : message) (t : turn) :
  plain (ws_message now data) = true ->
  allow_mic_input (sess t) = false ->
  TEXT_ONLY_MODE = true \/ String.eqb (m_type data) WS_RESPONSE_DONE = false ->
  let '(t', e, fl) :=
    handle_message TEXT_ONLY_MODE b64decode process_audio_chunk on_function_call
                   on_error now data t in
  allow_mic_input (sess t') = false
  /\ List.filter is_send e = []
  /\ (user_spoke_after_assistant (sess t) = false ->
      user_spoke_after_assistant (sess t') = false).
Proof.
  intros Hp Hoff Hdone. revert Hoff Hdone. open_handler Hp data t.
  all: intros -> Hdone.
  all: repeat step_case.
  all: try (repeat split; (reflexivity || assumption || auto)).
  all: destruct Hdone; discriminate.
Qed.

(** X26. While the assistant is speaking the microphone is shut off.
    From a state in which [allow_mic_input] is cleared (as the first
    text or transcript delta leaves it), and for any run of events
    without a [response.done] message, no microphone block is forwarded
    to the socket, [allow_mic_input] stays cleared, and
    [user_spoke_after_assistant] does not become true.  In text-only
    mode the same holds even across [response.done] messages: there the
    flag is not set again before the next [start]. *)
Theorem speaking_suspends_mic (events : list event) :
  forall t : turn,
    forallb plain events = true ->
    allow_mic_input (sess t) = false ->
    TEXT_ONLY_MODE = true
    \/ forallb (fun ev => negb (has_type WS_RESPONSE_DONE ev)) events = true ->
    let '(t', e) := stream_loop TEXT_ONLY_MODE SILENCE_THRESHOLD b64decode
                                process_audio_chunk on_function_call on_error
                                events t in
    allow_mic_input (sess t') = false
    /\ List.filter is_send e = []
    /\ (user_spoke_after_assistant (sess t) = false ->
        user_spoke_after_assistant (sess t') = false).
Proof.
  induction events as [| ev rest IH]; intros t Hp Hoff Hdone.
  { cbn. auto. }
  cbn [forallb] in Hp. apply andb_true_iff in Hp as [Hp1 Hp2].
  assert (Hdone1 : TEXT_ONLY_MODE = true
                   \/ negb (has_type WS_RESPONSE_DONE ev) = true).
  { destruct Hdone as [H | H]; [now left | right].
    cbn [forallb] in H. now apply andb_true_iff in H as [H _]. }
  assert (Hdone2 : TEXT_ONLY_MODE = true
                   \/ forallb (fun ev => negb (has_type WS_RESPONSE_DONE ev)) rest
                      = true).
  { destruct Hdone as [H | H]; [now left | right].
    cbn [forallb] in H. now apply andb_true_iff in H as [_ H]. }
  clear Hdone.
  destruct ev as [now data | now samples rms | | |]; cbn [stream_loop].
  - destruct (negb (session_active (sess t))); [auto |].
    set (t1 := if String.eqb (m_type data) WS_SESSION_UPDATED then _ else t).
    assert (Hs1 : sess t1 = sess t)
      by (subst t1; destruct (String.eqb _ _); reflexivity).
    assert (Hd : TEXT_ONLY_MODE = true
                 \/ String.eqb (m_type data) WS_RESPONSE_DONE = false).
    { destruct Hdone1 as [H | H]; [now left | right].
      cbn [has_type] in H. now apply negb_true_iff in H. }
    pose proof (handle_message_mic_off now data t1 Hp1) as Hh.
    rewrite Hs1 in Hh. specialize (Hh Hoff Hd).
    destruct (handle_message _ _ _ _ _ now data t1) as [[t2 e] fl].
    destruct Hh as (Ha & He & Hu).
    pose proof (IH t2 Hp2 Ha Hdone2) as I.
    destruct fl.
    + destruct (stream_loop _ _ _ _ _ _ rest t2) as [t3 e3].
      destruct I as (I1 & I2 & I3). rewrite List.filter_app, He, I2. auto.
    + destruct (stream_loop _ _ _ _ _ _ rest t2) as [t3 e3].
      destruct I as (I1 & I2 & I3). rewrite List.filter_app, He, I2. auto.
    + destruct t2 as [[]]. simp. auto.
  - pose proof (mic_callback_frame now samples rms t) as Hm.
    destruct (mic_callback SILENCE_THRESHOLD now samples rms t) as [t1 e].
    destruct Hm as (_ & _ & _ & _ & _ & _ & _ & _ & _ & _ & _ & _ & Hm).
    destruct (Hm (or_introl Hoff)) as [-> ->].
    pose proof (IH t Hp2 Hoff Hdone2) as I.
    destruct (stream_loop _ _ _ _ _ _ rest t) as [t3 e3]. exact I.
  - destruct t. simp. refine (IH _ Hp2 _ Hdone2). exact Hoff.
  - destruct t as [[]]. simp. refine (IH _ Hp2 _ Hdone2). exact Hoff.
  - unfold stop_session, close_connection.
    destruct t as [[ws txt la sa us am rm] c ft si ie lr ab m fs]. simp.
    destruct ws; simp.
    + pose proof (IH (Turn (Session_ false txt la false us am rm) c ft si ie lr ab m fs)
                    Hp2 Hoff Hdone2) as I.
      destruct (stream_loop _ _ _ _ _ _ rest _) as [t3 e3]. simp. exact I.
    + pose proof (IH (Turn (Session_ false txt la false us am rm) c ft si ie lr ab m fs)
                    Hp2 Hoff Hdone2) as I.
      destruct (stream_loop _ _ _ _ _ _ rest _) as [t3 e3]. simp. exact I.
Qed.


Lemma handle_message_closing (now : Q) (data : message) (t : turn) :
  plain (ws_message now data) = true ->
  let '(t', e, fl) :=
    handle_message TEXT_ONLY_MODE b64decode process_audio_chunk on_function_call
                   on_error now data t in
  List.filter is_restart e = []
  /\ (length (List.filter is_disconnect e) + Nat.b2n (ws_client (sess t')))%nat
     = Nat.b2n (ws_client (sess t)).
Proof.
  intros Hp. open_handler Hp data t.
  all: repeat step_case.
  all: split; reflexivity.
Qed.

Lemma stream_loop_closing (events : list event) :
  forall t : turn,
    forallb plain events = true ->
    let '(t', e) := stream_loop TEXT_ONLY_MODE SILENCE_THRESHOLD b64decode
                                process_audio_chunk on_function_call on_error
                                events t in
    List.filter is_restart e = []
    /\ (length (List.filter is_disconnect e) + Nat.b2n (ws_client (sess t')))%nat
       = Nat.b2n (ws_client (sess t))
    /\ (session_active (sess t) = false -> session_active (sess t') = false)
    /\ (existsb is_stop events = true -> session_active (sess t') = false).
Proof.
  induction events as [| ev rest IH]; intros t Hp.
  { cbn. repeat split; auto. discriminate. }
  cbn [forallb] in Hp. apply andb_true_iff in Hp as [Hp1 Hp2].
  destruct ev as [now data | now samples rms | | |]; cbn [stream_loop existsb is_stop orb].
  - destruct (session_active (sess t)) eqn:Hact; cbn [negb].
    2:{ cbn. repeat split; auto. }
    set (t1 := if String.eqb (m_type data) WS_SESSION_UPDATED then _ else t).
    assert (Hs1 : sess t1 = sess t)
      by (subst t1; destruct (String.eqb _ _); reflexivity).
    pose proof (handle_message_closing now data t1 Hp1) as Hh.
    rewrite Hs1 in Hh.
    destruct (handle_message _ _ _ _ _ now data t1) as [[t2 e] fl].
    destruct Hh as (Hr & Hd).
    pose proof (IH t2 Hp2) as I.
    destruct fl.
    + destruct (stream_loop _ _ _ _ _ _ rest t2) as [t3 e3].
      destruct I as (I1 & I2 & I3 & I4).
      rewrite !List.filter_app, length_app, Hr, I1.
      repeat split; [lia | discriminate | exact I4].
    + destruct (stream_loop _ _ _ _ _ _ rest t2) as [t3 e3].
      destruct I as (I1 & I2 & I3 & I4).
      rewrite !List.filter_app, length_app, Hr, I1.
      repeat split; [lia | discriminate | exact I4].
    + destruct t2 as [[]]. simp. auto.
  - pose proof (mic_callback_frame now samples rms t) as Hm.
    destruct (mic_callback SILENCE_THRESHOLD now samples rms t) as [t1 e].
    destruct Hm as (_ & _ & _ & _ & _ & _ & Ha & Hw & _ & _ & Hr & Hd & _).
    pose proof (IH t1 Hp2) as I.
    destruct (stream_loop _ _ _ _ _ _ rest t1) as [t3 e3].
    destruct I as (I1 & I2 & I3 & I4).
    rewrite !List.filter_app, Hr, Hd, I1. cbn [app].
    rewrite <- Hw, <- Ha. auto.
  - destruct t. simp. exact (IH _ Hp2).
  - destruct t as [[]]. simp.
    match goal with
    | |- context [stream_loop _ _ _ _ _ _ rest ?t1] =>
        pose proof (IH t1 Hp2) as I
    end.
    destruct (stream_loop _ _ _ _ _ _ rest _) as [t3 e3]. simp.
    destruct I as (I1 & I2 & I3 & I4). auto.
  - unfold stop_session, close_connection.
    destruct t as [[ws txt la sa us am rm] c ft si ie lr ab m fs]. simp.
    destruct ws; simp.
    + pose proof (IH (Turn (Session_ false txt la false us am rm) c ft si ie lr ab m fs)
                    Hp2) as I.
      destruct (stream_loop _ _ _ _ _ _ rest _) as [t3 e3]. simp.
      destruct I as (I1 & I2 & I3 & I4). repeat split; auto; lia.
    + pose proof (IH (Turn (Session_ false txt la false us am rm) c ft si ie lr ab m fs)
                    Hp2) as I.
      destruct (stream_loop _ _ _ _ _ _ rest _) as [t3 e3]. simp.
      destruct I as (I1 & I2 & I3 & I4). repeat split; auto.
Qed.

(** X27. A session that was told to stop does not start again, and its
    connection is closed exactly once.  For any run of events that
    contains a [request_stop] or a watchdog time-out (messages for the
    function-call and error branches apart), [run_stream] ends with the
    session inactive and without a client, never calls [start],
    whatever the transcript says, and calls [disconnect] once if there
    was a client at the beginning and not at all otherwise. *)
Theorem stopped_session_closes_once (events : list event) (t : turn) :
  forallb plain events = true ->
  existsb is_stop events = true ->
  let '(t', e) := run_stream TEXT_ONLY_MODE SILENCE_THRESHOLD b64decode
                             process_audio_chunk on_function_call on_error
                             events t in
  List.filter is_restart e = []
  /\ session_active (sess t') = false
  /\ ws_client (sess t') = false
  /\ length (List.filter is_disconnect e) = Nat.b2n (ws_client (sess t)).
Proof.
  intros Hp Hstop. unfold run_stream.
  pose proof (stream_loop_closing events t Hp) as H.
  destruct (stream_loop _ _ _ _ _ _ events t) as [t1 e1].
  destruct H as (Hr & Hd & _ & Ha). specialize (Ha Hstop).
  unfold post_response_handling, end_session, close_connection.
  destruct t1 as [[ws txt la sa us am rm] c ft si ie lr ab m fs]. simp. subst sa.
  simp. destruct ws; simp; rewrite !List.filter_app, ?length_app, Hr; simp;
    repeat split; lia.
Qed.





Lemma stream_loop_inactive (events : list event) :
  forall t : turn,
    session_active (sess t) = false ->
    let '(t', e) := stream_loop TEXT_ONLY_MODE SILENCE_THRESHOLD b64decode
                                process_audio_chunk on_function_call on_error
                                events t in
    pm t' = pm t /\ files t' = files t /\ audio_buffer t' = audio_buffer t
    /\ session_active (sess t') = false
    /\ List.filter is_restart e = [].
Proof.
  induction events as [| ev rest IH]; intros t Hact.
  { cbn. auto. }
  destruct ev as [now data | now samples rms | | |]; cbn [stream_loop].
  - rewrite Hact. cbn. auto.
  - pose proof (mic_callback_frame now samples rms t) as Hm.
    destruct (mic_callback SILENCE_THRESHOLD now samples rms t) as [t1 e].
    destruct Hm as (_ & _ & _ & _ & _ & _ & _ & _ & _ & _ & _ & _ & Hm).
    destruct (Hm (or_intror Hact)) as [-> ->].
    pose proof (IH t Hact) as I.
    destruct (stream_loop _ _ _ _ _ _ rest t) as [t3 e3]. exact I.
  - destruct t. simp. refine (IH _ _). exact Hact.
  - destruct t as [[]]. simp. refine (IH _ _). reflexivity.
  - unfold stop_session, close_connection.
    destruct t as [[ws txt la sa us am rm] c ft si ie lr ab m fs]. simp.
    destruct ws; simp.
    + pose proof (IH (Turn (Session_ false txt la false us am rm) c ft si ie lr ab m fs)
                    eq_refl) as I.
      destruct (stream_loop _ _ _ _ _ _ rest _) as [t3 e3]. simp. exact I.
    + pose proof (IH (Turn (Session_ false txt la false us am rm) c ft si ie lr ab m fs)
                    eq_refl) as I.
      destruct (stream_loop _ _ _ _ _ _ rest _) as [t3 e3]. simp. exact I.
Qed.

(** X29. Barge-in.  In audio mode, when [interrupt_event] is set and an
    audio delta with decodable audio arrives on an active session, the
    run ends there, whatever follows: every item still in the playback
    queue is discarded, the delta's own chunk included (the task counter
    drops by as many, so that only an item the worker holds remains
    accounted for); the session is inactive and its connection closed
    when [run_stream] returns; [start] is not called; and although the
    delta's bytes were appended to the save buffer, nothing is written
    to the response history. *)
Theorem barge_in_discards_and_ends
    (now : Q) (data : message) (rest : list event) (t : turn)
    (audio_b64 : string) (chunk processed : list Z) :
  TEXT_ONLY_MODE = false ->
  is_audio_type data = true ->
  audio_field data = Some audio_b64 ->
  b64decode audio_b64 = Some chunk ->
  process_audio_chunk chunk = Some processed ->
  interrupt_event t = true ->
  session_active (sess t) = true ->
  ws_client (sess t) = true ->
  (length (PyQueue.items (playback_queue (pm t)))
   <= PyQueue.unfinished_tasks (playback_queue (pm t)))%nat ->
  let '(t', e) := run_stream TEXT_ONLY_MODE SILENCE_THRESHOLD b64decode
                             process_audio_chunk on_function_call on_error
                             (ws_message now data :: rest) t in
  playback_queue (pm t')
  = PyQueue.Mk [] (PyQueue.unfinished_tasks (playback_queue (pm t))
                   - length (PyQueue.items (playback_queue (pm t))))
  /\ session_active (sess t') = false
  /\ ws_client (sess t') = false
  /\ List.filter is_restart e = []
  /\ audio_buffer t' = audio_buffer t ++ chunk
  /\ files t' = files t.
Proof.
  intros Hto Ha Hf Hd Hpr Hie Hact Hws Hcov.
  unfold run_stream. cbn [stream_loop]. rewrite Hact. cbn [negb].
  destruct (audio_type_exclusive _ Ha) as (Ht & Hdn & Htd & Hsu).
  unfold handle_message, on_audio. rewrite Hsu, Htd, Hto, Ha, Hf.
  destruct t as [[ws txt la sa us am rm] c ft si ie lr ab m fs]. simp.
  subst ie sa ws.
  assert (Hflush :
    PyQueue.flush (PyQueue.put (RawItem processed) (playback_queue m))
    = PyQueue.Mk [] (PyQueue.unfinished_tasks (playback_queue m)
                     - length (PyQueue.items (playback_queue m)))).
  { unfold PyQueue.flush, PyQueue.put. cbn [PyQueue.items].
    rewrite QueueMore.flush_loop_covered;
      [| lia | rewrite length_app; cbn; lia].
    rewrite length_app. cbn [length]. f_equal. lia. }
  destruct c, si; simp; rewrite Hd; simp; rewrite Hpr; simp.
  all: match goal with
       | |- context [stream_loop ?a ?b ?c ?d ?f ?g ?r ?t1] =>
           pose proof (stream_loop_inactive r t1 eq_refl) as I;
           rewrite Hto in I;
           destruct (stream_loop a b c d f g r t1) as [t3 e3]
       end.
  all: destruct I as (Hpm & Hfs & Hab & Hact3 & Hr).
  all: unfold post_response_handling, end_session, close_connection.
  all: destruct t3 as [[ws3 txt3 la3 sa3 us3 am3 rm3] c3 ft3 si3 ie3 lr3 ab3 m3 fs3].
  all: simp; subst sa3 m3 fs3 ab3; simp.
  all: destruct ws3; simp.
  all: rewrite ?List.filter_app, ?Hr; simp;
    rewrite Hflush; repeat split; reflexivity.
Qed.

End StreamFacts.


(** The same session with the barge-in flag set and two chunks still
    queued, one of them in the worker's hands. *)
Lemma barge_in_discards_and_ends_witness :
  let dec := fun a : string =>
    Some (map (fun ch => Z.of_nat (nat_of_ascii ch)) (list_ascii_of_string a)) in
  let proc := fun chunk : list Z => Some (chunk ++ chunk) in
  let skip := fun (_ : message) (t : turn) => (t, @nil effect, Next) in
  let m := Manager (PyQueue.Mk [RawItem [1]; RawItem [2]] 3) [] false 0 false
                   (5 # 10) 0 in
  let t0 := start_prologue false 10 (new_session 0 PNone true m ∅) in
  let '(t', e) :=
    run_stream false 2000 dec proc skip skip
      [ws_message 11 (Message WS_RESPONSE_AUDIO_DELTA None (Some "ab"));
       ws_message 12 (Message WS_RESPONSE_DONE None None)] t0 in
  playback_queue (pm t') = PyQueue.Mk [] 1
  /\ session_active (sess t') = false
  /\ ws_client (sess t') = false
  /\ List.filter is_restart e = []
  /\ audio_buffer t' = [97; 98]
  /\ files t' = ∅.
Proof.
  cbv zeta.
  apply (barge_in_discards_and_ends false 2000
           (fun a : string =>
              Some (map (fun ch => Z.of_nat (nat_of_ascii ch))
                        (list_ascii_of_string a)))
           (fun chunk : list Z => Some (chunk ++ chunk))
           (fun (_ : message) (t : turn) => (t, @nil effect, Next))
           (fun (_ : message) (t : turn) => (t, @nil effect, Next))
           11 (Message WS_RESPONSE_AUDIO_DELTA None (Some "ab"))
           [ws_message 12 (Message WS_RESPONSE_DONE None None)]
           (start_prologue false 10
              (new_session 0 PNone true
                 (Manager (PyQueue.Mk [RawItem [1]; RawItem [2]] 3) [] false 0
                          false (5 # 10) 0) ∅))
           "ab" [97; 98] [97; 98; 97; 98]);
    try reflexivity.
  cbn. lia.
Defined.

(** A session that was told to speak: a loud microphone block and a
    further transcript delta arrive while the flag is cleared. *)
Lemma speaking_suspends_mic_witness :
  let dec := fun a : string =>
    Some (map (fun ch => Z.of_nat (nat_of_ascii ch)) (list_ascii_of_string a)) in
  let proc := fun chunk : list Z => Some (chunk ++ chunk) in
  let skip := fun (_ : message) (t : turn) => (t, @nil effect, Next) in
  let t0 := fst (on_text (Message WS_RESPONSE_TEXT_DELTA None (Some "Hel"))
                   (start_prologue false 10
                      (new_session 0 PNone false (Playback.init 0) ∅))) in
  let '(t', e) :=
    stream_loop false 2000 dec proc skip skip
      [mic_frame 11 [5; 6] 3000;
       ws_message 12 (Message WS_RESPONSE_TEXT_DELTA None (Some "lo?"))] t0 in
  allow_mic_input (sess t') = false
  /\ List.filter is_send e = []
  /\ (user_spoke_after_assistant (sess t0) = false ->
      user_spoke_after_assistant (sess t') = false).
Proof.
  cbv zeta.
  apply (speaking_suspends_mic false 2000
           (fun a : string =>
              Some (map (fun ch => Z.of_nat (nat_of_ascii ch))
                        (list_ascii_of_string a)))
           (fun chunk : list Z => Some (chunk ++ chunk))
           (fun (_ : message) (t : turn) => (t, @nil effect, Next))
           (fun (_ : message) (t : turn) => (t, @nil effect, Next))
           [mic_frame 11 [5; 6] 3000;
            ws_message 12 (Message WS_RESPONSE_TEXT_DELTA None (Some "lo?"))]
           (fst (on_text (Message WS_RESPONSE_TEXT_DELTA None (Some "Hel"))
                   (start_prologue false 10
                      (new_session 0 PNone false (Playback.init 0) ∅)))));
    [reflexivity | reflexivity | right; reflexivity].
Defined.

(** The assistant asks a question, the user answers, and the watchdog
    fires before the next message. *)
Lemma stopped_session_closes_once_witness :
  let dec := fun a : string =>
    Some (map (fun ch => Z.of_nat (nat_of_ascii ch)) (list_ascii_of_string a)) in
  let proc := fun chunk : list Z => Some (chunk ++ chunk) in
  let skip := fun (_ : message) (t : turn) => (t, @nil effect, Next) in
  let t0 := start_prologue false 10
              (new_session 0 PNone false (Playback.init 0) ∅) in
  let '(t', e) :=
    run_stream false 2000 dec proc skip skip
      [ws_message 11 (Message WS_RESPONSE_TEXT_DELTA None (Some "Ready?"));
       ws_message 12 (Message WS_RESPONSE_DONE None None);
       mic_frame 13 [5; 6] 3000;
       timed_out;
       ws_message 20 (Message WS_RESPONSE_TEXT_DELTA None (Some "Hello"))] t0 in
  List.filter is_restart e = []
  /\ session_active (sess t') = false
  /\ ws_client (sess t') = false
  /\ length (List.filter is_disconnect e) = 1%nat.
Proof.
  cbv zeta.
  apply (stopped_session_closes_once false 2000
           (fun a : string =>
              Some (map (fun ch => Z.of_nat (nat_of_ascii ch))
                        (list_ascii_of_string a)))
           (fun chunk : list Z => Some (chunk ++ chunk))
           (fun (_ : message) (t : turn) => (t, @nil effect, Next))
           (fun (_ : message) (t : turn) => (t, @nil effect, Next))
           [ws_message 11 (Message WS_RESPONSE_TEXT_DELTA None (Some "Ready?"));
            ws_message 12 (Message WS_RESPONSE_DONE None None);
            mic_frame 13 [5; 6] 3000;
            timed_out;
            ws_message 20 (Message WS_RESPONSE_TEXT_DELTA None (Some "Hello"))]
           (start_prologue false 10
              (new_session 0 PNone false (Playback.init 0) ∅)));
    reflexivity.
Defined.

(** Two audio deltas after [session_updated]: one commit. *)
Lemma commit_once_after_session_updated_witness :
  let dec := fun a : string =>
    Some (map (fun ch => Z.of_nat (nat_of_ascii ch)) (list_ascii_of_string a)) in
  let proc := fun chunk : list Z => Some (chunk ++ chunk) in
  let skip := fun (_ : message) (t : turn) => (t, @nil effect, Next) in
  let t0 := start_prologue false 10
              (new_session 0 PNone false (Playback.init 0) ∅) in
  let e := snd (stream_loop false 2000 dec proc skip skip
                  [ws_message 11 (Message WS_SESSION_UPDATED None None);
                   ws_message 12 (Message WS_RESPONSE_AUDIO_DELTA None (Some "ab"));
                   ws_message 13 (Message WS_RESPONSE_AUDIO_DELTA None (Some "c"))]
                  t0) in
  (length (List.filter is_commit e) <= 1)%nat.
Proof.
  cbv zeta.
  apply (commit_once_after_session_updated false 2000
           (fun a : string =>
              Some (map (fun ch => Z.of_nat (nat_of_ascii ch))
                        (list_ascii_of_string a)))
           (fun chunk : list Z => Some (chunk ++ chunk))
           (fun (_ : message) (t : turn) => (t, @nil effect, Next))
           (fun (_ : message) (t : turn) => (t, @nil effect, Next))
           [ws_message 11 (Message WS_SESSION_UPDATED None None);
            ws_message 12 (Message WS_RESPONSE_AUDIO_DELTA None (Some "ab"));
            ws_message 13 (Message WS_RESPONSE_AUDIO_DELTA None (Some "c"))]
           (start_prologue false 10
              (new_session 0 PNone false (Playback.init 0) ∅)));
    reflexivity.
Defined.

End StreamSpec.
